(** * cull / deepsweep: the selection-and-deletion engine

    A shallow embedding of the TypeScript sources
      - [utils/fileUtils.ts]   (shouldExclude, findFiles, findDirectories,
                                findItems, matchesPattern, deleteItem, isFile,
                                isDirectory),
      - [utils/prompts.ts]     (confirmDeletion, confirmProceed),
      - [core/deletionEngine.ts] (class DeletionEngine),
      - [bin/cli.ts]           (main),
    together with the part of the JavaScript / Node platform these functions
    call (strings, [path], [RegExp], [fs], [readline]).

    Conventions.
      - A JavaScript string is a [string]: a sequence of code units.  The
        model covers code units below 256; comparison is by code unit.
      - A call that can throw returns a [completion].
      - Engine methods mutate [this] and the outside world; they are
        functions in the state monad [M] over [Run].
      - The Logger is recorded as [Log] events, console output as [Console]
        events, and every removal system call as an [Rm] / [Unlink] event.

    What the model leaves out.
      - The log file.  The Logger is a component of its own, whose calls
        are events; what it writes is not part of the tree [fs].  So a run
        with [--log F] where [F] lies inside the searched directory, in
        which the program finds its own log file, is outside the model,
        and the statements about [main] that speak of the tree take a run
        without a log file.
      - The end of standard input.  The operator answers every question
        that is put.  A run whose input ends at a prompt stops there (the
        promise of [rl.question] never settles and the process ends with
        status 0); the statements about the exit status of [main] take a
        run whose flags put no question.
      - What a failed removal leaves behind.  A removal takes the entry
        with all that is below it, or fails and leaves the tree as it was;
        a recursive removal that fails half way is not modelled, and no
        statement depends on the tree after a failed removal. *)

From Stdlib Require Import List String Ascii ZArith Bool Arith Lia.
From Stdlib Require Import Sorting.Permutation Sorting.Sorted Sorting.Mergesort.
From Stdlib Require Import Structures.Orders.
From Stdlib Require Import Numbers.DecimalString.
Import ListNotations.

Open Scope string_scope.
Open Scope list_scope.

Notation "s1 +:+ s2" := (String.append s1 s2)
  (at level 60, right associativity) : string_scope.

(* ================================================================== *)
(** * Completions *)

Inductive exn : Type :=
| SyntaxError   (* thrown by [new RegExp] *)
| SystemError.  (* thrown by [fs] calls: ENOENT, EACCES, ENOTDIR, ... *)

Inductive completion (A : Type) : Type :=
| Normal (a : A)
| Throw (e : exn).

Arguments Normal {A} a.
Arguments Throw {A} e.

(* ================================================================== *)
(** * JavaScript strings *)

Module JSString.

(** [s.startsWith(p)] *)
Fixpoint startsWith (p s : string) : bool :=
  match p, s with
  | EmptyString, _ => true
  | String _ _, EmptyString => false
  | String a p', String b s' => Ascii.eqb a b && startsWith p' s'
  end.

(** [s.includes(p)]: [p] occurs in [s] as a contiguous run. *)
Fixpoint includes (s p : string) : bool :=
  startsWith p s ||
  match s with
  | EmptyString => false
  | String _ s' => includes s' p
  end.

(** [s.replace(/c/g, by)] for a one-character pattern [c] and a
    replacement text [by] that has no [$] in it. *)
Fixpoint replaceAll (c : ascii) (by_ : string) (s : string) : string :=
  match s with
  | EmptyString => EmptyString
  | String a s' =>
      if Ascii.eqb a c then by_ +:+ replaceAll c by_ s'
      else String a (replaceAll c by_ s')
  end.

(** White space and line terminators among the code units below 256:
    TAB, LF, VT, FF, CR, SPACE, NO-BREAK SPACE. *)
Definition isWhiteSpace (a : ascii) : bool :=
  let n := nat_of_ascii a in
  ((9 <=? n)%nat && (n <=? 13)%nat) || (n =? 32)%nat || (n =? 160)%nat.

Fixpoint trimStart (s : string) : string :=
  match s with
  | EmptyString => EmptyString
  | String a s' => if isWhiteSpace a then trimStart s' else s
  end.

(** Drops the trailing white space: a character is kept when it is not
    white space or when something is kept after it. *)
Fixpoint trimEnd (s : string) : string :=
  match s with
  | EmptyString => EmptyString
  | String a s' =>
      match trimEnd s' with
      | EmptyString => if isWhiteSpace a then EmptyString
                       else String a EmptyString
      | t => String a t
      end
  end.

(** [s.trim()] *)
Definition trim (s : string) : string := trimEnd (trimStart s).

(** Lower case of one code unit below 256: A-Z, and the Latin-1 capitals
    0xC0-0xDE without the multiplication sign 0xD7. *)
Definition lowerChar (a : ascii) : ascii :=
  let n := nat_of_ascii a in
  if ((65 <=? n)%nat && (n <=? 90)%nat)
     || ((192 <=? n)%nat && (n <=? 222)%nat && negb (n =? 215)%nat)
  then ascii_of_nat (n + 32)
  else a.

(** [s.toLowerCase()] *)
Fixpoint toLowerCase (s : string) : string :=
  match s with
  | EmptyString => EmptyString
  | String a s' => String (lowerChar a) (toLowerCase s')
  end.

(** [s.split(sep)] for a one-character separator. *)
Fixpoint split (sep : ascii) (s : string) : list string :=
  match s with
  | EmptyString => [EmptyString]
  | String a s' =>
      if Ascii.eqb a sep then EmptyString :: split sep s'
      else match split sep s' with
           | [] => [String a EmptyString]
           | seg :: segs => String a seg :: segs
           end
  end.

(** [segs.join(sep)] *)
Fixpoint join (sep : string) (segs : list string) : string :=
  match segs with
  | [] => EmptyString
  | [seg] => seg
  | seg :: segs' => seg +:+ sep +:+ join sep segs'
  end.

(** [String(n)] for a non-negative integer. *)
Definition ofNat (n : nat) : string :=
  NilEmpty.string_of_uint (Nat.to_uint n).

End JSString.

(* ================================================================== *)
(** * Node's [path] module, POSIX flavour *)

Module Path.

Definition nonEmpty (s : string) : bool :=
  match s with EmptyString => false | _ => true end.

(** The last element of a list, or [d]. *)
Fixpoint lastOr (d : string) (l : list string) : string :=
  match l with
  | [] => d
  | x :: l' => lastOr x l'
  end.

(** [path.basename(p)]: the last non-empty segment of [p] (trailing
    slashes are ignored), or the empty string. *)
Definition basename (p : string) : string :=
  lastOr EmptyString (filter nonEmpty (JSString.split "/" p)).

(** Normalisation used by [path.resolve]: walks the segments, skips the
    empty one and [.], and lets [..] drop the last segment (staying at
    the root when there is none).  [acc] is reversed. *)
Fixpoint normalize (acc : list string) (segs : list string) : list string :=
  match segs with
  | [] => rev acc
  | seg :: segs' =>
      if String.eqb seg "" || String.eqb seg "." then normalize acc segs'
      else if String.eqb seg ".." then normalize (tl acc) segs'
      else normalize (seg :: acc) segs'
  end.

Definition isAbsolute (p : string) : bool := JSString.startsWith "/" p.

(** [path.resolve(p)] with the process working directory [cwd], as the
    list of segments of the absolute path. *)
Definition resolve (cwd : list string) (p : string) : list string :=
  if isAbsolute p then normalize [] (JSString.split "/" p)
  else normalize (rev cwd) (JSString.split "/" p).

(** Strips the longest common prefix of two segment lists. *)
Fixpoint stripCommon (from to : list string) : list string * list string :=
  match from, to with
  | a :: from', b :: to' =>
      if String.eqb a b then stripCommon from' to' else (from, to)
  | _, _ => (from, to)
  end.

(** [path.relative(from, to)] on two absolute paths given by segments. *)
Definition relative (from to : list string) : string :=
  let '(up, down) := stripCommon from to in
  JSString.join "/" (map (fun _ => "..") up ++ down).

(** [path.relative(process.cwd(), path.join(dir, name))] where [dir] is a
    directory below the working directory whose own relative path is
    [rel] (the empty string for the working directory itself). *)
Definition relativeJoin (rel name : string) : string :=
  match rel with
  | EmptyString => name
  | _ => rel +:+ "/" +:+ name
  end.

(** The depth of a relative path: its number of segments.  The entries
    of the root directory are at depth 1. *)
Definition depth (p : string) : Z :=
  Z.of_nat (List.length (filter nonEmpty (JSString.split "/" p))).

End Path.

(* ================================================================== *)
(** * [RegExp]: a fragment of ECMAScript regular expressions

    The fragment is the set of sources without a backslash, a [[], a [{]
    and a [(?]: what is left of the syntax is the alternation [|], groups
    [( )], the quantifiers [*], [+] and [?] (with their lazy forms), the
    assertions [^] and [$], the wildcard [.], and characters that stand
    for themselves (in a source without [[] and [{], the characters []]
    and [}] do).  No flag is set.  The behaviour of the constructor on the
    other sources is a parameter of the development (see [Platform]). *)

Module RegExp.

Inductive re : Type :=
| Empty                 (* the empty alternative *)
| Char (c : ascii)      (* a character that stands for itself *)
| Dot                   (* [.]: any character but a line terminator *)
| Bol                   (* [^] *)
| Eol                   (* [$] *)
| Seq (a b : re)
| Alt (a b : re)
| Star (a : re)
| Plus (a : re)
| Opt (a : re).

(** ** Syntax *)

(** What the parser knows about a term it has read: whether a quantifier
    may follow it. *)
Inductive tkind : Type :=
| KAtom        (* an atom: any quantifier may follow *)
| KQuantified  (* atom and quantifier: only the lazy mark [?] may follow *)
| KClosed.     (* an assertion, or a lazy quantifier: nothing to repeat *)

(** The alternatives already closed and the terms of the current one,
    both most recent first. *)
Record frame : Type := mkFrame {
  alts : list re;
  terms : list (re * tkind)
}.

Definition emptyFrame : frame := mkFrame [] [].

Definition pushTerm (f : frame) (r : re) (k : tkind) : frame :=
  mkFrame (alts f) ((r, k) :: terms f).

(** The terms [ts] (most recent first) in sequence, followed by [acc]. *)
Fixpoint seqOf (ts : list (re * tkind)) (acc : re) : re :=
  match ts with
  | [] => acc
  | (r, _) :: ts' => seqOf ts' (Seq r acc)
  end.

Definition alternative (ts : list (re * tkind)) : re :=
  match ts with
  | [] => Empty
  | (r, _) :: ts' => seqOf ts' r
  end.

(** The alternatives [rs] (most recent first) in disjunction, followed
    by [acc]. *)
Fixpoint altOf (rs : list re) (acc : re) : re :=
  match rs with
  | [] => acc
  | r :: rs' => altOf rs' (Alt r acc)
  end.

(** The disjunction a frame stands for. *)
Definition close (f : frame) : re :=
  altOf (alts f) (alternative (terms f)).

(** [|]: the current alternative is closed and an empty one begins. *)
Definition nextAlt (f : frame) : frame :=
  mkFrame (alternative (terms f) :: alts f) [].

(** A quantifier character after the terms of [f]; [None] is
    "Nothing to repeat". *)
Definition quantify (q : ascii) (f : frame) : option frame :=
  match terms f with
  | (r, KAtom) :: ts =>
      let r' := if Ascii.eqb q "*" then Star r
                else if Ascii.eqb q "+" then Plus r
                else Opt r in
      Some (mkFrame (alts f) ((r', KQuantified) :: ts))
  | (r, KQuantified) :: ts =>
      if Ascii.eqb q "?" then Some (mkFrame (alts f) ((r, KClosed) :: ts))
      else None
  | _ => None
  end.

(** The parser: one pass over the source with the stack of the groups
    that are open.  [None] is a SyntaxError: "Nothing to repeat",
    "Unmatched ')'" or "Unterminated group". *)
Fixpoint parse (src : string) (stack : list frame) (cur : frame)
  : option re :=
  match src with
  | EmptyString =>
      match stack with
      | [] => Some (close cur)
      | _ :: _ => None
      end
  | String c src' =>
      if Ascii.eqb c "(" then parse src' (cur :: stack) emptyFrame
      else if Ascii.eqb c ")" then
        match stack with
        | [] => None
        | f :: stack' => parse src' stack' (pushTerm f (close cur) KAtom)
        end
      else if Ascii.eqb c "|" then parse src' stack (nextAlt cur)
      else if Ascii.eqb c "*" || Ascii.eqb c "+" || Ascii.eqb c "?" then
        match quantify c cur with
        | None => None
        | Some cur' => parse src' stack cur'
        end
      else if Ascii.eqb c "^" then parse src' stack (pushTerm cur Bol KClosed)
      else if Ascii.eqb c "$" then parse src' stack (pushTerm cur Eol KClosed)
      else if Ascii.eqb c "." then parse src' stack (pushTerm cur Dot KAtom)
      else parse src' stack (pushTerm cur (Char c) KAtom)
  end.

(** A source is in the fragment when it has no backslash, no [[], no [{]
    and no [(?]. *)
Definition inFragment (src : string) : bool :=
  negb (JSString.includes src "\")
  && negb (JSString.includes src "[")
  && negb (JSString.includes src "{")
  && negb (JSString.includes src "(?").

(** ** Matching *)

(** A position in the subject: the index and what is left to read. *)
Definition pos : Type := nat * string.

Definition isLineTerminator (a : ascii) : bool :=
  Ascii.eqb a "010" || Ascii.eqb a "013".

(** The iteration of [*]: zero or more rounds of [step], a round that
    does not advance being refused; [n] bounds the number of rounds and
    the length of what is left is enough. *)
Fixpoint repeat (step : pos -> (pos -> bool) -> bool) (n : nat)
         (p : pos) (k : pos -> bool) : bool :=
  k p ||
  match n with
  | O => false
  | S n' =>
      step p (fun p' =>
        (String.length (snd p') <? String.length (snd p))%nat
        && repeat step n' p' k)
  end.

(** [m r p k]: [r] matches at [p] up to a position that [k] accepts.
    Without captures and backreferences the order in which the
    alternatives are tried cannot be observed by [test]. *)
Fixpoint m (r : re) (p : pos) (k : pos -> bool) : bool :=
  match r with
  | Empty => k p
  | Char c =>
      match snd p with
      | String a rest => Ascii.eqb a c && k (S (fst p), rest)
      | EmptyString => false
      end
  | Dot =>
      match snd p with
      | String a rest => negb (isLineTerminator a) && k (S (fst p), rest)
      | EmptyString => false
      end
  | Bol => (fst p =? 0)%nat && k p
  | Eol => match snd p with EmptyString => k p | _ => false end
  | Seq a b => m a p (fun p' => m b p' k)
  | Alt a b => m a p k || m b p k
  | Star a => repeat (m a) (String.length (snd p)) p k
  | Plus a => m a p (fun p' => repeat (m a) (String.length (snd p')) p' k)
  | Opt a => m a p k || k p
  end.

(** A match that starts at index [i] or later. *)
Fixpoint search (r : re) (i : nat) (s : string) : bool :=
  m r (i, s) (fun _ => true) ||
  match s with
  | EmptyString => false
  | String _ s' => search r (S i) s'
  end.

(** [regex.test(s)] for a regular expression without flags. *)
Definition test (r : re) (s : string) : bool := search r 0 s.

End RegExp.

(* ================================================================== *)
(** * The file system seen through Node's [fs] module *)

Module FS.

(** An entry that is neither a regular file nor a directory.  A broken
    symbolic link is listed by its directory but [stat], which follows
    links, fails on it. *)
Inductive special : Type := Fifo | Socket | Device | BrokenSymlink.

(** [removable] says whether removing the entry succeeds (it does not
    when permissions or a busy resource forbid it); [readable] whether
    the directory can be listed. *)
#[warnings="-register-all"]
Inductive node : Type :=
| File (removable : bool)
| Dir (readable removable : bool) (entries : list (string * node))
| Special (k : special).

(** The tree from the root directory and the process working directory. *)
Record t : Type := mk {
  root : node;
  cwd : list string
}.

(** [Dirent.isDirectory()] *)
Definition direntIsDirectory (n : node) : bool :=
  match n with Dir _ _ _ => true | _ => false end.

(** [fs.readdirSync(dir, { withFileTypes: true })] on the node of [dir]. *)
Definition readdirSync (n : node) : completion (list (string * node)) :=
  match n with
  | Dir true _ entries => Normal entries
  | _ => Throw SystemError
  end.

Fixpoint assoc (name : string) (es : list (string * node)) : option node :=
  match es with
  | [] => None
  | (n, c) :: es' => if String.eqb n name then Some c else assoc name es'
  end.

(** The node at the end of a path of segments. *)
Fixpoint lookup (n : node) (segs : list string) : option node :=
  match segs with
  | [] => Some n
  | seg :: segs' =>
      match n with
      | Dir _ _ es =>
          match assoc seg es with
          | Some c => lookup c segs'
          | None => None
          end
      | _ => None
      end
  end.

Inductive Stats : Type := StFile | StDirectory | StOther.

Definition isFile (s : Stats) : bool :=
  match s with StFile => true | _ => false end.

Definition isDirectory (s : Stats) : bool :=
  match s with StDirectory => true | _ => false end.

(** [stat] on an absolute path given by its segments. *)
Definition statAt (fs : t) (segs : list string) : completion Stats :=
  match lookup (root fs) segs with
  | Some (File _) => Normal StFile
  | Some (Dir _ _ _) => Normal StDirectory
  | Some (Special BrokenSymlink) => Throw SystemError
  | Some (Special _) => Normal StOther
  | None => Throw SystemError
  end.

(** The path resolution of a system call: one component at a time, and
    every component, [.], [..] and the empty component before a trailing
    slash included, is looked up in a directory.  [cur] holds the segments
    walked so far, the last one first.  The result is the absolute path
    reached, when every step was taken from a directory.  (The tree has no
    symbolic link to a directory, so [..] is the directory above.) *)
Fixpoint walk (n : node) (cur : list string) (segs : list string)
  : option (list string) :=
  match segs with
  | [] => Some (rev cur)
  | seg :: segs' =>
      match lookup n (rev cur) with
      | Some (Dir _ _ _) =>
          if String.eqb seg "" || String.eqb seg "." then walk n cur segs'
          else if String.eqb seg ".." then walk n (tl cur) segs'
          else walk n (seg :: cur) segs'
      | _ => None
      end
  end.

(** [fs.statSync(p)]: the string goes to the system as it is.  The empty
    path names nothing; an absolute path is walked from the root and a
    relative one from the working directory. *)
Definition statSync (fs : t) (p : string) : completion Stats :=
  match p with
  | EmptyString => Throw SystemError
  | String _ _ =>
      match walk (root fs)
                 (if Path.isAbsolute p then [] else rev (cwd fs))
                 (JSString.split "/" p) with
      | Some segs => statAt fs segs
      | None => Throw SystemError
      end
  end.

(** [process.cwd()]: the working directory, or an exception when it is
    gone (the process was started in, or left in, a directory that has
    since been removed). *)
Definition processCwd (fs : t) : completion (list string) :=
  match lookup (root fs) (cwd fs) with
  | Some (Dir _ _ _) => Normal (cwd fs)
  | _ => Throw SystemError
  end.

(** The message of that exception, as libuv words it. *)
Definition cwdError : string := "ENOENT: no such file or directory, uv_cwd".

Definition nodeRemovable (n : node) : bool :=
  match n with
  | File r => r
  | Dir _ r _ => r
  | Special _ => true
  end.

Fixpoint dropEntry (name : string) (es : list (string * node))
  : list (string * node) :=
  match es with
  | [] => []
  | (n, c) :: es' =>
      if String.eqb n name then es' else (n, c) :: dropEntry name es'
  end.

Fixpoint setEntry (name : string) (c' : node) (es : list (string * node))
  : list (string * node) :=
  match es with
  | [] => []
  | (n, c) :: es' =>
      if String.eqb n name then (n, c') :: es'
      else (n, c) :: setEntry name c' es'
  end.

(** The tree without the entry at [segs], when that entry exists and is
    removable. *)
Fixpoint remove (n : node) (segs : list string) : option node :=
  match segs with
  | [] => None
  | seg :: segs' =>
      match n with
      | Dir r w es =>
          match assoc seg es with
          | None => None
          | Some c =>
              match segs' with
              | [] => if nodeRemovable c then Some (Dir r w (dropEntry seg es))
                      else None
              | _ :: _ =>
                  match remove c segs' with
                  | Some c' => Some (Dir r w (setEntry seg c' es))
                  | None => None
                  end
              end
          end
      | _ => None
      end
  end.

(** [fs.rmSync(p, { recursive: true, force: true })] and
    [fs.unlinkSync(p)] on an absolute path given by its segments.  The flag
    [removable] of an entry says whether its removal, with all that is
    below it, succeeds; a removal that fails leaves the tree as it was. *)
Definition removeSync (fs : t) (segs : list string) : completion t :=
  match remove (root fs) segs with
  | Some r => Normal (mk r (cwd fs))
  | None => Throw SystemError
  end.

End FS.

(* ================================================================== *)
(** * Types ([types.ts]) *)

Inductive LogLevel : Type := INFO | WARNING | ERROR.

Inductive OutputFormat : Type := plain | json.

(** A JavaScript number as [parseInt] produces it. *)
Inductive number : Type :=
| NaN
| Int (z : Z).

Record Config : Type := mkConfig {
  dryRun : bool;
  interactive : bool;
  force : bool;
  preview : bool;
  logFile : option string;
  outputFormat : OutputFormat;
  maxDepth : option number;
  filesPattern : option string;
  foldersPattern : option string;
  typesPattern : option string;
  excludePatterns : list string
}.

Record DeletionResult : Type := mkResult {
  totalItems : nat;
  deleted : nat;
  failed : nat;
  resultDryRun : bool;
  failedItems : option (list string)
}.

(** The truth value of an optional string: [undefined] and the empty
    string are falsy. *)
Definition truthy (o : option string) : bool :=
  match o with
  | Some s => Path.nonEmpty s
  | None => false
  end.

(** [a > b] for an integer [a] and a number [b]; false against NaN. *)
Definition gt (a : Z) (b : number) : bool :=
  match b with
  | NaN => false
  | Int z => (z <? a)%Z
  end.

(* ================================================================== *)
(** * The world of a run *)

Inductive event : Type :=
| Log (message : string) (level : LogLevel)   (* Logger.log *)
| LogFileHeader                               (* Logger.initializeLogFile *)
| Console (line : string)                     (* console.log *)
| ConsoleItems (items : list string)          (* console.log of { items } *)
| ConsoleSummary (summary : DeletionResult)   (* console.log of { summary } *)
| ConsoleError (line : string)                (* console.error *)
| Help                                        (* program.help() *)
| Question (query : string)                   (* rl.question *)
| Rm (segs : list string)                     (* fs.rmSync *)
| Unlink (segs : list string).                (* fs.unlinkSync *)

(** The fields of a [DeletionEngine] and the world around it.  The
    operator types [answers n] in reply to the question number [n]. *)
Record Run : Type := mkRun {
  itemsToDelete : list string;
  deletedItems : list string;
  failedDeletions : list string;
  fs : FS.t;
  answers : nat -> string;
  asked : nat;
  trace : list event
}.

Definition M (A : Type) : Type := Run -> A * Run.

Definition ret {A : Type} (a : A) : M A := fun st => (a, st).

Definition bind {A B : Type} (c : M A) (k : A -> M B) : M B :=
  fun st => let '(a, st') := c st in k a st'.

Notation "x <- c ;; k" := (bind c (fun x => k))
  (at level 61, c at next level, right associativity).
Notation "c ;;; k" := (bind c (fun _ => k))
  (at level 61, right associativity).

Definition emit (e : event) : M unit :=
  fun st => (tt, mkRun (itemsToDelete st) (deletedItems st) (failedDeletions st)
                       (fs st) (answers st) (asked st) (trace st ++ [e])).

Definition getFs : M FS.t := fun st => (fs st, st).

Definition setFs (f : FS.t) : M unit :=
  fun st => (tt, mkRun (itemsToDelete st) (deletedItems st) (failedDeletions st)
                       f (answers st) (asked st) (trace st)).

Definition getItems : M (list string) := fun st => (itemsToDelete st, st).

Definition setItems (l : list string) : M unit :=
  fun st => (tt, mkRun l (deletedItems st) (failedDeletions st)
                       (fs st) (answers st) (asked st) (trace st)).

Definition pushDeleted (item : string) : M unit :=
  fun st => (tt, mkRun (itemsToDelete st) (deletedItems st ++ [item])
                       (failedDeletions st)
                       (fs st) (answers st) (asked st) (trace st)).

Definition pushFailed (item : string) : M unit :=
  fun st => (tt, mkRun (itemsToDelete st) (deletedItems st)
                       (failedDeletions st ++ [item])
                       (fs st) (answers st) (asked st) (trace st)).

(** [rl.question(query, cb)]: the query is written, the process waits, and
    the operator's next line is the answer.  (There is a next line: the end
    of standard input is not modelled.) *)
Definition question (query : string) : M string :=
  fun st => (answers st (asked st),
             mkRun (itemsToDelete st) (deletedItems st) (failedDeletions st)
                   (fs st) (answers st) (S (asked st))
                   (trace st ++ [Question query])).

(** [for (const x of l) await body(x)] *)
Fixpoint forEach {A : Type} (l : list A) (body : A -> M unit) : M unit :=
  match l with
  | [] => ret tt
  | x :: l' => body x ;;; forEach l' body
  end.

(** [logger.log(message, level)]: the call, as an event.  The line goes to
    the console and, when the Logger has a log file, to that file, which is
    not part of the tree. *)
Definition log (message : string) (level : LogLevel) : M unit :=
  emit (Log message level).

(* ================================================================== *)
(** * [Array.prototype.sort()] on strings

    Without a comparison function the elements are ordered by code unit;
    the result is the ordered permutation of the array, computed here by
    merge sort. *)

Module StringOrder <: TotalLeBool.
Definition t : Type := string.
Definition leb : string -> string -> bool := String.leb.
Definition leb_total : forall a b, leb a b = true \/ leb b a = true :=
  String.leb_total.
End StringOrder.

Module StringSort := Sort StringOrder.

(* ================================================================== *)
(** * The program *)

Section Cull.

(** ** Libraries the program calls and whose code is not its own *)

(** [glob(pattern, { cwd, absolute: false, nodir: true, maxDepth })] of
    the glob package: the paths it resolves to, relative to [cwd], or a
    rejection. *)
Variable glob : string -> option number -> FS.t -> completion (list string).

(** [new RegExp(source)] on a source outside the fragment of [RegExp]:
    a SyntaxError or the [test] function of the expression. *)
Variable hostRegExp : string -> completion (string -> bool).

(** [program.help()] of the commander package: [Some c] when the call
    ends the process with status [c], [None] when it returns. *)
Variable commanderHelp : option Z.

(** ** utils/fileUtils.ts *)

(** [shouldExclude(filePath, excludePatterns)] *)
Fixpoint shouldExclude (filePath : string) (excludePatterns : list string)
  : bool :=
  match excludePatterns with
  | [] => false
  | pattern :: rest =>
      if JSString.includes filePath pattern
         || String.eqb (Path.basename filePath) pattern
      then true
      else shouldExclude filePath rest
  end.

(** [new RegExp(source)] followed by [regex.test]: the compiled
    expression as its [test] function. *)
Definition newRegExp (source : string) : completion (string -> bool) :=
  if RegExp.inFragment source then
    match RegExp.parse source [] RegExp.emptyFrame with
    | Some r => Normal (RegExp.test r)
    | None => Throw SyntaxError
    end
  else hostRegExp source.

(** [matchesPattern(name, pattern)] *)
Definition matchesPattern (name pattern : string) : completion bool :=
  let regexPattern :=
    JSString.replaceAll "?" "." (JSString.replaceAll "*" ".*" pattern) in
  match newRegExp ("^" +:+ regexPattern +:+ "$") with
  | Normal regex => Normal (regex name)
  | Throw e => Throw e
  end.

(** [findFiles(pattern, maxDepth)] with [currentDir] the working
    directory: the function once its default parameter [process.cwd()] has
    been evaluated.  That evaluation, which throws when the working
    directory is gone, is [FS.processCwd] at the place where the engine is
    run, in [main]; the same holds for [findDirectories] and [findItems]
    below. *)
Definition findFiles (pattern : string) (maxDepth : option number)
           (fs : FS.t) : list string :=
  match glob pattern maxDepth fs with
  | Normal files =>
      map (fun file =>
             Path.relative (FS.cwd fs) (Path.resolve (FS.cwd fs) file))
          files
  | Throw _ => []
  end.

(** [maxDepth !== undefined && currentDepth > maxDepth] *)
Definition tooDeep (maxDepth : option number) (currentDepth : Z) : bool :=
  match maxDepth with
  | Some d => gt currentDepth d
  | None => false
  end.

(** [searchDir(dir, currentDepth)] of [findDirectories]: [n] is the node
    of [dir], [rel] its path relative to the working directory, and
    [directories] the array the closure pushes to.  An exception raised
    in the body ([readdirSync], or [new RegExp] in [matchesPattern]) is
    caught by the [try] of this call, which then returns. *)
Fixpoint searchDirectories (pattern : string) (maxDepth : option number)
         (n : FS.node) (rel : string) (currentDepth : Z)
         (directories : list string) {struct n} : list string :=
  if tooDeep maxDepth currentDepth then directories
  else
    match n with
    | FS.Dir true _ entries =>
        (fix loop (es : list (string * FS.node)) (directories : list string)
           {struct es} : list string :=
           match es with
           | [] => directories
           | (name, child) :: es' =>
               let relativePath := Path.relativeJoin rel name in
               if FS.direntIsDirectory child then
                 match matchesPattern name pattern with
                 | Throw _ => directories
                 | Normal b =>
                     loop es'
                       (searchDirectories pattern maxDepth child relativePath
                          (currentDepth + 1)
                          (if b then directories ++ [relativePath]
                           else directories))
                 end
               else loop es' directories
           end) entries directories
    | _ => directories
    end.

(** [findDirectories(pattern, maxDepth)] with [currentDir] the working
    directory; where there is no such directory there is nothing to
    list. *)
Definition findDirectories (pattern : string) (maxDepth : option number)
           (fs : FS.t) : list string :=
  match FS.lookup (FS.root fs) (FS.cwd fs) with
  | Some n => searchDirectories pattern maxDepth n "" 0 []
  | None => []
  end.

(** [searchDir(dir, currentDepth)] of [findItems]. *)
Fixpoint searchItems (pattern : string) (maxDepth : option number)
         (n : FS.node) (rel : string) (currentDepth : Z)
         (items : list string) {struct n} : list string :=
  if tooDeep maxDepth currentDepth then items
  else
    match n with
    | FS.Dir true _ entries =>
        (fix loop (es : list (string * FS.node)) (items : list string)
           {struct es} : list string :=
           match es with
           | [] => items
           | (name, child) :: es' =>
               let relativePath := Path.relativeJoin rel name in
               match matchesPattern name pattern with
               | Throw _ => items
               | Normal b =>
                   let items1 := if b then items ++ [relativePath]
                                 else items in
                   if FS.direntIsDirectory child then
                     loop es'
                       (searchItems pattern maxDepth child relativePath
                          (currentDepth + 1) items1)
                   else loop es' items1
               end
           end) entries items
    | _ => items
    end.

(** [findItems(pattern, maxDepth)] with [currentDir] the working
    directory. *)
Definition findItems (pattern : string) (maxDepth : option number)
           (fs : FS.t) : list string :=
  match FS.lookup (FS.root fs) (FS.cwd fs) with
  | Some n => searchItems pattern maxDepth n "" 0 []
  | None => []
  end.

(** [isFile(itemPath)] *)
Definition isFile (itemPath : string) : M bool :=
  fs <- getFs ;;
  match FS.statSync fs itemPath with
  | Normal stat => ret (FS.isFile stat)
  | Throw _ => ret false
  end.

(** [isDirectory(itemPath)] *)
Definition isDirectory (itemPath : string) : M bool :=
  fs <- getFs ;;
  match FS.statSync fs itemPath with
  | Normal stat => ret (FS.isDirectory stat)
  | Throw _ => ret false
  end.

(** [fs.rmSync(fullPath, { recursive: true, force: true })]: the call is
    recorded, then it removes the entry or throws. *)
Definition rmSync (fullPath : list string) : M (completion unit) :=
  emit (Rm fullPath) ;;;
  fs <- getFs ;;
  match FS.removeSync fs fullPath with
  | Normal fs' => setFs fs' ;;; ret (Normal tt)
  | Throw e => ret (Throw e)
  end.

(** [fs.unlinkSync(fullPath)] *)
Definition unlinkSync (fullPath : list string) : M (completion unit) :=
  emit (Unlink fullPath) ;;;
  fs <- getFs ;;
  match FS.removeSync fs fullPath with
  | Normal fs' => setFs fs' ;;; ret (Normal tt)
  | Throw e => ret (Throw e)
  end.

(** [deleteItem(itemPath)] of fileUtils: every exception is caught and
    answered by [false]. *)
Definition fileUtils_deleteItem (itemPath : string) : M bool :=
  fs <- getFs ;;
  let fullPath := Path.resolve (FS.cwd fs) itemPath in
  match FS.statAt fs fullPath with
  | Throw _ => ret false
  | Normal stat =>
      if FS.isDirectory stat then
        r <- rmSync fullPath ;;
        match r with Normal _ => ret true | Throw _ => ret false end
      else if FS.isFile stat then
        r <- unlinkSync fullPath ;;
        match r with Normal _ => ret true | Throw _ => ret false end
      else ret false
  end.

(** ** utils/prompts.ts *)

(** [response === 'y' || response === 'yes'] after
    [answer.trim().toLowerCase()] *)
Definition isYes (answer : string) : bool :=
  let response := JSString.toLowerCase (JSString.trim answer) in
  String.eqb response "y" || String.eqb response "yes".

(** [confirmDeletion(item, force)] *)
Definition confirmDeletion (item : string) (force : bool) : M bool :=
  if force then ret true
  else
    answer <- question ("Delete '" +:+ item +:+ "'? [y/N]: ") ;;
    ret (isYes answer).

(** [confirmProceed()] *)
Definition confirmProceed : M bool :=
  answer <- question "Proceed with deletion? [y/N]: " ;;
  ret (isYes answer).

(** ** core/deletionEngine.ts *)

(** [new DeletionEngine(config, logger)] in a world. *)
Definition newEngine (fs : FS.t) (answers : nat -> string) (asked : nat)
           (trace : list event) : Run :=
  mkRun [] [] [] fs answers asked trace.

(** [[...new Set(allItems)]]: the first occurrence of every element, in
    the order of insertion. *)
Fixpoint unique (seen : list string) (l : list string) : list string :=
  match l with
  | [] => []
  | x :: l' =>
      if existsb (String.eqb x) seen then unique seen l'
      else x :: unique (x :: seen) l'
  end.

Definition pushItem (item : string) : M unit :=
  items <- getItems ;;
  setItems (items ++ [item]).

(** [if (pattern) { allItems.push(...await find(pattern, maxDepth)) }] *)
Definition whenPattern (pattern : option string)
           (find : string -> list string) : list string :=
  match pattern with
  | Some p => if Path.nonEmpty p then find p else []
  | None => []
  end.

(** What [collectItemsToDelete] has in [allItems] before it filters. *)
Definition allItems (config : Config) (fs : FS.t) : list string :=
  whenPattern (filesPattern config)
              (fun p => findFiles p (maxDepth config) fs)
  ++ whenPattern (foldersPattern config)
                 (fun p => findDirectories p (maxDepth config) fs)
  ++ whenPattern (typesPattern config)
                 (fun p => findItems p (maxDepth config) fs).

(** [collectItemsToDelete()] *)
Definition collectItemsToDelete (config : Config) : M unit :=
  setItems [] ;;;
  fs <- getFs ;;
  let uniqueItems := unique [] (allItems config fs) in
  forEach uniqueItems (fun item =>
    if negb (shouldExclude item (excludePatterns config))
    then pushItem item
    else ret tt) ;;;
  items <- getItems ;;
  setItems (StringSort.sort items).

(** [displayPreview()] *)
Definition displayPreview (config : Config) : M unit :=
  items <- getItems ;;
  match items with
  | [] => log "No items found matching the specified patterns." INFO
  | _ :: _ =>
      log ("Preview: Items that will be deleted ("
           +:+ JSString.ofNat (List.length items) +:+ " items):") INFO ;;;
      match outputFormat config with
      | json => emit (ConsoleItems items)
      | plain => forEach items (fun item => emit (Console ("  - " +:+ item)))
      end
  end.

(** [deleteItem(item)] of the engine. *)
Definition deleteItem (config : Config) (item : string) : M unit :=
  if dryRun config then
    log ("Would delete: " +:+ item) INFO ;;;
    pushDeleted item
  else
    confirmed <- (if interactive config
                  then confirmDeletion item (force config)
                  else ret true) ;;
    if negb confirmed then log ("Skipped: " +:+ item) INFO
    else
      isDir <- isDirectory item ;;
      if isDir then
        ok <- fileUtils_deleteItem item ;;
        if ok then
          log ("Deleted directory: " +:+ item) INFO ;;;
          pushDeleted item
        else
          log ("Failed to delete directory: " +:+ item) ERROR ;;;
          pushFailed item
      else
        isF <- isFile item ;;
        if isF then
          ok <- fileUtils_deleteItem item ;;
          if ok then
            log ("Deleted file: " +:+ item) INFO ;;;
            pushDeleted item
          else
            log ("Failed to delete file: " +:+ item) ERROR ;;;
            pushFailed item
        else
          log ("Item not found or already deleted: " +:+ item) WARNING.

(** [processDeletions()] *)
Definition processDeletions (config : Config) : M unit :=
  items <- getItems ;;
  match items with
  | [] => log "No items to delete." INFO
  | _ :: _ =>
      proceed <-
        (if preview config then
           displayPreview config ;;;
           if negb (dryRun config) && negb (force config) then
             proceed <- confirmProceed ;;
             if negb proceed then
               log "Deletion cancelled by user." INFO ;;; ret false
             else ret true
           else ret true
         else ret true) ;;
      if proceed then forEach items (deleteItem config) else ret tt
  end.

(** [getSummary()] *)
Definition getSummary (config : Config) (st : Run) : DeletionResult :=
  mkResult (List.length (itemsToDelete st))
           (List.length (deletedItems st))
           (List.length (failedDeletions st))
           (dryRun config)
           (match failedDeletions st with
            | [] => None
            | l => Some l
            end).

(** [printSummary()] *)
Definition printSummary (config : Config) : M unit :=
  fun st =>
    let summary := getSummary config st in
    (match outputFormat config with
     | json => emit (ConsoleSummary summary)
     | plain =>
         log "=== Deletion Summary ===" INFO ;;;
         log ("Total items found: " +:+ JSString.ofNat (totalItems summary))
             INFO ;;;
         (if resultDryRun summary
          then log ("Items that would be deleted: "
                    +:+ JSString.ofNat (deleted summary)) INFO
          else log ("Items successfully deleted: "
                    +:+ JSString.ofNat (deleted summary)) INFO) ;;;
         match failedItems summary with
         | Some l =>
             if (0 <? failed summary)%nat then
               log ("Failed deletions: " +:+ JSString.ofNat (failed summary))
                   ERROR ;;;
               forEach l (fun item => log ("  - " +:+ item) ERROR)
             else ret tt
         | None => ret tt
         end
     end) st.

(** [getExitCode()] *)
Definition getExitCode (st : Run) : Z :=
  if (0 <? List.length (failedDeletions st))%nat then 1%Z else 0%Z.

(** ** bin/cli.ts *)

(** [program.opts()]: the options as commander hands them over, [depth]
    already through [parseInt]. *)
Record Options : Type := mkOptions {
  opt_files : option string;
  opt_folders : option string;
  opt_types : option string;
  opt_exclude : list string;
  opt_depth : option number;
  opt_dryRun : bool;
  opt_interactive : bool;
  opt_preview : bool;
  opt_force : bool;
  opt_log : option string;
  opt_format : string
}.

(** "Build configuration" *)
Definition buildConfig (options : Options) : Config :=
  mkConfig (opt_dryRun options) (opt_interactive options)
           (opt_force options) (opt_preview options)
           (opt_log options)
           (if String.eqb (opt_format options) "json" then json else plain)
           (opt_depth options)
           (opt_files options) (opt_folders options) (opt_types options)
           (opt_exclude options).

(** [isNaN(d) || d < 1] *)
Definition badDepth (d : number) : bool :=
  match d with
  | NaN => true
  | Int z => (z <? 1)%Z
  end.

(** [config.outputFormat !== 'plain' && config.outputFormat !== 'json'] *)
Definition badFormat (f : OutputFormat) : bool :=
  match f with
  | plain => false
  | json => false
  end.

(** [logger.initializeLogFile(...)]: with a log file, the call that writes
    the header, as an event; the file is not part of the tree. *)
Definition initializeLogFile (config : Config) : M unit :=
  if truthy (logFile config) then emit LogFileHeader else ret tt.

(** The fresh engine [new DeletionEngine(config, logger)]. *)
Definition createEngine : M unit :=
  fun st => (tt, newEngine (fs st) (answers st) (asked st) (trace st)).

(** [main()]: the status the process exits with.

    One exception can leave the [try] block.  The find functions take
    [currentDir = process.cwd()] as a default parameter, which is
    evaluated as the first thing of the call and outside their own [try];
    [collectItemsToDelete], here with a pattern given, starts with such a
    call.  So when the working directory is gone the first call rejects,
    nothing is collected or processed, and the [catch] of [main] logs the
    message and exits with status 1.  Every other exception is caught
    where it is thrown. *)
Definition main (options : Options) : M Z :=
  let config := buildConfig options in
  if negb (truthy (filesPattern config))
     && negb (truthy (foldersPattern config))
     && negb (truthy (typesPattern config))
  then
    emit (ConsoleError
      "Error: At least one of --files, --folders, or --types must be specified") ;;;
    emit Help ;;;
    match commanderHelp with
    | Some status => ret status
    | None => ret 1%Z
    end
  else if badFormat (outputFormat config) then
    emit (ConsoleError "Error: --format must be 'plain' or 'json'") ;;;
    ret 1%Z
  else if match maxDepth config with
          | Some d => badDepth d
          | None => false
          end
  then
    emit (ConsoleError "Error: --depth must be a positive number") ;;;
    ret 1%Z
  else
    initializeLogFile config ;;;
    log "Starting deletion operation..." INFO ;;;
    createEngine ;;;
    fs <- getFs ;;
    match FS.processCwd fs with
    | Throw _ =>
        log ("Error: " +:+ FS.cwdError) ERROR ;;;
        ret 1%Z
    | Normal _ =>
        collectItemsToDelete config ;;;
        processDeletions config ;;;
        printSummary config ;;;
        fun st => (getExitCode st, st)
    end.

(** ** Vocabulary of the properties *)

(** A call that changes the file system. *)
Definition mutates (e : event) : bool :=
  match e with
  | Rm _ | Unlink _ => true
  | _ => false
  end.

(** A question put to the operator. *)
Definition asks (e : event) : bool :=
  match e with
  | Question _ => true
  | _ => false
  end.

(** An event that only reports. *)
Definition quiet (e : event) : bool := negb (mutates e) && negb (asks e).

(** [st] with the events [evs] added to its trace. *)
Definition withTrace (st : Run) (evs : list event) : Run :=
  mkRun (itemsToDelete st) (deletedItems st) (failedDeletions st)
        (fs st) (answers st) (asked st) (trace st ++ evs).

(** A computation that only reports: it adds quiet events to the trace and
    leaves the rest of the state as it is. *)
Definition reports (c : M unit) : Prop :=
  forall st, exists evs,
    c st = (tt, withTrace st evs) /\ forallb quiet evs = true.

(** At [item] there is no entry, or one that is neither a regular file nor
    a directory. *)
Definition notFileNorDirectory (fs : FS.t) (item : string) : Prop :=
  let segs := Path.resolve (FS.cwd fs) item in
  FS.lookup (FS.root fs) segs = None
  \/ exists k, FS.lookup (FS.root fs) segs = Some (FS.Special k).

(** ** The match the specification describes *)

(** [f] holds of [s] or of one of its suffixes. *)
Fixpoint anySuffix (f : string -> bool) (s : string) : bool :=
  f s ||
  match s with
  | EmptyString => false
  | String _ s' => anySuffix f s'
  end.

(** The specification's [matches(name, pattern)]: the whole name against
    the whole pattern, [*] for any run of characters, [?] for exactly one
    character, any other character for itself. *)
Fixpoint specMatches (pattern name : string) : bool :=
  match pattern with
  | EmptyString =>
      match name with
      | EmptyString => true
      | String _ _ => false
      end
  | String c pattern' =>
      if Ascii.eqb c "*" then anySuffix (specMatches pattern') name
      else
        match name with
        | EmptyString => false
        | String a name' =>
            (Ascii.eqb c "?" || Ascii.eqb a c) && specMatches pattern' name'
        end
  end.

Fixpoint allChars (f : ascii -> bool) (s : string) : bool :=
  match s with
  | EmptyString => true
  | String a s' => f a && allChars f s'
  end.

(** The characters that a regular expression does not read as themselves
    (the wildcards [*] and [?] of a pattern apart). *)
Definition regexSyntax (c : ascii) : bool :=
  existsb (Ascii.eqb c)
          ["\"; "^"; "$"; "."; "|"; "+"; "("; ")"; "["; "{"]%char.

(** A pattern made of wildcards and of characters that a regular
    expression reads as themselves. *)
Definition plainPattern (pattern : string) : bool :=
  allChars (fun c => negb (regexSyntax c)) pattern.

Definition noLineTerminator (name : string) : bool :=
  allChars (fun a => negb (RegExp.isLineTerminator a)) name.

(** The terms [RegExp.parse] reads from the translation of a plain
    pattern, most recent first. *)
Fixpoint globTerms (pattern : string) (acc : list (RegExp.re * RegExp.tkind))
  : list (RegExp.re * RegExp.tkind) :=
  match pattern with
  | EmptyString => acc
  | String c pattern' =>
      globTerms pattern'
        ((if Ascii.eqb c "*" then (RegExp.Star RegExp.Dot, RegExp.KQuantified)
          else if Ascii.eqb c "?" then (RegExp.Dot, RegExp.KAtom)
          else (RegExp.Char c, RegExp.KAtom)) :: acc)
  end.

(** The expression of a plain pattern, followed by [rest]. *)
Fixpoint globRe (pattern : string) (rest : RegExp.re) : RegExp.re :=
  match pattern with
  | EmptyString => rest
  | String c pattern' =>
      RegExp.Seq (if Ascii.eqb c "*" then RegExp.Star RegExp.Dot
                  else if Ascii.eqb c "?" then RegExp.Dot
                  else RegExp.Char c)
                 (globRe pattern' rest)
  end.

(** ** Well-formed trees *)

(** A name a directory can hold: not empty and without a slash. *)
Definition validName (name : string) : bool :=
  Path.nonEmpty name && allChars (fun a => negb (Ascii.eqb a "/")) name.

(** Every entry below [n] has a valid name. *)
Fixpoint validNames (n : FS.node) : bool :=
  match n with
  | FS.Dir _ _ entries =>
      (fix all (es : list (string * FS.node)) : bool :=
         match es with
         | [] => true
         | (name, child) :: es' =>
             validName name && validNames child && all es'
         end) entries
  | _ => true
  end.

(** ** Sample inputs *)

(** The tree of the specification's depth scenario: [./cache/] and
    [./sub/cache/] under the working directory. *)
Definition cacheTree : FS.t :=
  FS.mk (FS.Dir true true
           [("cache", FS.Dir true true []);
            ("sub", FS.Dir true true [("cache", FS.Dir true true [])])])
        [].

(** A working directory [/work] with two files, one of them protected, a
    directory and a named pipe. *)
Definition workTree : FS.t :=
  FS.mk (FS.Dir true true
           [("work", FS.Dir true true
                       [("a.tmp", FS.File true);
                        ("b.tmp", FS.File false);
                        ("cache", FS.Dir true true [("c.tmp", FS.File true)]);
                        ("pipe", FS.Special FS.Fifo)])])
        ["work"].

(** The flags [dryRun], [interactive], [force], [preview] with no pattern:
    the executor does not read the patterns. *)
Definition flags (dryRun interactive force preview : bool) : Config :=
  mkConfig dryRun interactive force preview None plain None None None None [].

(** An engine over [workTree] with the worklist [items]; the operator
    answers [answer] to every question. *)
Definition engineWith (items : list string) (answer : string) : Run :=
  mkRun items [] [] workTree (fun _ => answer) 0 [].

(** [--folders cache --depth 1] *)
Definition depthOneOptions : Options :=
  mkOptions None (Some "cache") None [] (Some (Int 1)) false false false false
            None "plain".

(** [--folders cache --format xml] *)
Definition xmlOptions : Options :=
  mkOptions None (Some "cache") None [] None false false false false None
            "xml".

(** ** Further vocabulary *)

(** [config] with other exclusion patterns. *)
Definition withExclude (config : Config) (patterns : list string) : Config :=
  mkConfig (dryRun config) (interactive config) (force config)
           (preview config) (logFile config) (outputFormat config)
           (maxDepth config) (filesPattern config) (foldersPattern config)
           (typesPattern config) patterns.

(** A pattern without [*] and [?]. *)
Definition noWildcard (pattern : string) : bool :=
  allChars (fun c => negb (Ascii.eqb c "*") && negb (Ascii.eqb c "?")) pattern.

(** The depth limit [lo] stops the search wherever [hi] does. *)
Definition noDeeper (lo hi : option number) : Prop :=
  forall d, tooDeep hi d = true -> tooDeep lo d = true.

(** From [st] to [st'] the trace has grown by events that satisfy [ok]. *)
Definition grownBy (ok : event -> bool) (st st' : Run) : Prop :=
  exists evs, trace st' = trace st ++ evs /\ forallb ok evs = true.

(** In every directory below [n] the names are pairwise distinct. *)
Fixpoint uniqueNames (n : FS.node) : bool :=
  match n with
  | FS.Dir _ _ entries =>
      (fix all (es : list (string * FS.node)) : bool :=
         match es with
         | [] => true
         | (name, child) :: es' =>
             negb (existsb (fun e => String.eqb (fst e) name) es')
             && uniqueNames child && all es'
         end) entries
  | _ => true
  end.

(** [config] without the [--folders] pattern. *)
Definition withoutFolders (config : Config) : Config :=
  mkConfig (dryRun config) (interactive config) (force config)
           (preview config) (logFile config) (outputFormat config)
           (maxDepth config) (filesPattern config) None
           (typesPattern config) (excludePatterns config).

(** The preview block of [processDeletions]: whether the batch goes on. *)
Definition previewStep (config : Config) : M bool :=
  if preview config then
    displayPreview config ;;;
    if negb (dryRun config) && negb (force config) then
      proceed <- confirmProceed ;;
      if negb proceed then
        log "Deletion cancelled by user." INFO ;;; ret false
      else ret true
    else ret true
  else ret true.

(** A name an entry can have: valid, and neither [.] nor [..]. *)
Definition properName (name : string) : bool :=
  validName name && negb (String.eqb name ".") && negb (String.eqb name "..").

(** Every entry below [n] has a proper name. *)
Fixpoint properNames (n : FS.node) : bool :=
  match n with
  | FS.Dir _ _ entries =>
      (fix all (es : list (string * FS.node)) : bool :=
         match es with
         | [] => true
         | (name, child) :: es' =>
             properName name && properNames child && all es'
         end) entries
  | _ => true
  end.

(** A glob that resolves to nothing and a host that knows no expression
    outside the fragment, for the sample runs. *)
Definition emptyGlob (_ : string) (_ : option number) (_ : FS.t)
  : completion (list string) := Normal [].

Definition strictHost (_ : string) : completion (string -> bool) :=
  Throw SyntaxError.

(** [--types "*.tmp" --exclude cache] and the like over [workTree]. *)
Definition typesConfig (pattern : string) (exclude : list string)
           (depth : option number) : Config :=
  mkConfig false false false false None plain depth None None (Some pattern)
           exclude.

(** [--types "*.tmp" --dry-run --interactive --preview] *)
Definition dryOptions : Options :=
  mkOptions None None (Some "*.tmp") [] None true true true false None
            "plain".

(** [--types "*.tmp" --depth 0] *)
Definition depthZeroOptions : Options :=
  mkOptions None None (Some "*.tmp") [] (Some (Int 0)) false false false false
            None "plain".

(** A process whose working directory [/gone] has been removed. *)
Definition goneTree : FS.t :=
  FS.mk (FS.Dir true true
           [("work", FS.Dir true true [("a.tmp", FS.File true)])])
        ["gone"].

(** [--types "*tmp"]: neither interactive nor forced, no preview. *)
Definition tmpOptions : Options :=
  mkOptions None None (Some "*tmp") [] None false false false false None
            "plain".

(** The node that the segments [segs] lead to from [n], through
    directories that can be listed. *)
Fixpoint listed (n : FS.node) (segs : list string) : option FS.node :=
  match segs with
  | [] => Some n
  | seg :: segs' =>
      match n with
      | FS.Dir true _ es =>
          match FS.assoc seg es with
          | Some c => listed c segs'
          | None => None
          end
      | _ => None
      end
  end.

(** The relative path that [searchDir] builds for the entry that [segs]
    lead to from the directory at [rel]. *)
Definition pathOf (rel : string) (segs : list string) : string :=
  fold_left Path.relativeJoin segs rel.

(** A relative path in normal form: the segments of a path below the
    working directory, joined as [searchDir] and [glob] write them. *)
Definition normalRelative (p : string) : Prop :=
  exists segs, forallb properName segs = true /\ p = pathOf "" segs.

(** A glob that resolves every pattern to the two [.tmp] files that can be
    removed from [workTree]. *)
Definition tmpGlob (_ : string) (_ : option number) (_ : FS.t)
  : completion (list string) := Normal ["a.tmp"; "cache/c.tmp"].

(* ================================================================== *)
(** * Properties *)

(** ** Strings *)

Lemma append_assoc (a b c : string) : (a +:+ b) +:+ c = a +:+ b +:+ c.
Proof.
  induction a as [|x a IH]; simpl; [reflexivity | now rewrite IH].
Qed.

Lemma startsWith_spec (p s : string) :
  JSString.startsWith p s = true <-> exists suf, s = p +:+ suf.
Proof.
  revert s; induction p as [|a p IH]; intros s; simpl.
  - split; [intros _; now exists s | reflexivity].
  - destruct s as [|b s].
    + split; [discriminate | intros [suf H]; discriminate].
    + rewrite andb_true_iff, Ascii.eqb_eq, IH. split.
      * intros [-> [suf ->]]. now exists suf.
      * intros [suf H]. injection H as -> ->. split; [reflexivity | now exists suf].
Qed.

Lemma includes_spec (s p : string) :
  JSString.includes s p = true <-> exists pre suf, s = pre +:+ p +:+ suf.
Proof.
  induction s as [|a s IH]; simpl.
  - rewrite orb_false_r, startsWith_spec. split.
    + intros [suf H]. now exists "", suf.
    + intros [[|b pre] [suf H]]; [now exists suf | discriminate].
  - rewrite orb_true_iff, startsWith_spec, IH. split.
    + intros [[suf H] | [pre [suf H]]].
      * now exists "", suf.
      * exists (String a pre), suf. simpl. now rewrite H.
    + intros [[|b pre] [suf H]].
      * left. now exists suf.
      * right. simpl in H. injection H as _ H. now exists pre, suf.
Qed.

(** ** matchesPattern on plain patterns *)

Lemma allChars_app (f : ascii -> bool) (a b : string) :
  allChars f (a +:+ b) = allChars f a && allChars f b.
Proof.
  induction a as [|x a IH]; simpl; [reflexivity |].
  now rewrite IH, andb_assoc.
Qed.

(** A text whose first character does not occur in [s] does not occur in
    [s]. *)
Lemma includes_absent (c : ascii) (q s : string) :
  allChars (fun a => negb (Ascii.eqb a c)) s = true ->
  JSString.includes s (String c q) = false.
Proof.
  induction s as [|a s IH]; simpl; [reflexivity |].
  rewrite andb_true_iff, negb_true_iff. intros [Ha Hs].
  rewrite (Ascii.eqb_sym c a), Ha. simpl. now apply IH.
Qed.

(** The translation of a pattern, character by character. *)
Lemma translate_cons (c : ascii) (pattern : string) :
  JSString.replaceAll "?" "." (JSString.replaceAll "*" ".*" (String c pattern))
  = (if Ascii.eqb c "*" then ".*"
     else if Ascii.eqb c "?" then "."
     else String c "")
    +:+ JSString.replaceAll "?" "." (JSString.replaceAll "*" ".*" pattern).
Proof.
  simpl. destruct (Ascii.eqb c "*") eqn:Estar.
  - reflexivity.
  - simpl. now destruct (Ascii.eqb c "?").
Qed.

Lemma regexSyntax_neq (c x : ascii) :
  regexSyntax c = false -> regexSyntax x = true -> Ascii.eqb c x = false.
Proof.
  intros Hc Hx. destruct (Ascii.eqb_spec c x) as [-> | Hne]; [| reflexivity].
  congruence.
Qed.

(** A syntax character other than the dot does not occur in the
    translation of a plain pattern. *)
Lemma translate_avoids (x : ascii) (pattern : string) :
  regexSyntax x = true -> Ascii.eqb "." x = false ->
  plainPattern pattern = true ->
  allChars (fun a => negb (Ascii.eqb a x))
    (JSString.replaceAll "?" "." (JSString.replaceAll "*" ".*" pattern))
  = true.
Proof.
  intros Hx Hdot. unfold plainPattern.
  induction pattern as [|c pattern IH]; [reflexivity |].
  cbn [allChars]. rewrite andb_true_iff, negb_true_iff. intros [Hc Hp].
  rewrite translate_cons, allChars_app, (IH Hp), andb_true_r.
  assert (Hstar : Ascii.eqb "*" x = false) by now apply regexSyntax_neq.
  destruct (Ascii.eqb c "*"); [cbn [allChars]; now rewrite Hdot, Hstar |].
  destruct (Ascii.eqb c "?"); [cbn [allChars]; now rewrite Hdot |].
  cbn [allChars]. now rewrite (regexSyntax_neq c x Hc Hx).
Qed.

(** The source built from a plain pattern is in the fragment of [RegExp]. *)
Lemma translate_inFragment (pattern : string) :
  plainPattern pattern = true ->
  RegExp.inFragment
    ("^" +:+ JSString.replaceAll "?" "." (JSString.replaceAll "*" ".*" pattern)
         +:+ "$") = true.
Proof.
  intros Hp. unfold RegExp.inFragment.
  rewrite !includes_absent; [reflexivity | | | |];
    cbn [String.append allChars]; rewrite allChars_app;
    rewrite translate_avoids by (exact Hp || reflexivity); reflexivity.
Qed.

(** The parser on the translation of a plain pattern. *)
Lemma parse_translate (pattern rest : string) (stack : list RegExp.frame)
      (cur : RegExp.frame) :
  plainPattern pattern = true ->
  RegExp.parse
    (JSString.replaceAll "?" "." (JSString.replaceAll "*" ".*" pattern)
     +:+ rest) stack cur
  = RegExp.parse rest stack
      (RegExp.mkFrame (RegExp.alts cur)
                      (globTerms pattern (RegExp.terms cur))).
Proof.
  unfold plainPattern. revert cur.
  induction pattern as [|c pattern IH]; intros cur.
  - intros _. simpl. now destruct cur.
  - cbn [allChars]. rewrite andb_true_iff, negb_true_iff. intros [Hc Hp].
    rewrite translate_cons, append_assoc. cbn [globTerms].
    destruct (Ascii.eqb c "*") eqn:Estar.
    + cbn -[JSString.replaceAll]. rewrite (IH _ Hp). reflexivity.
    + destruct (Ascii.eqb c "?") eqn:Eq.
      * cbn -[JSString.replaceAll]. rewrite (IH _ Hp). reflexivity.
      * cbn [String.append RegExp.parse].
        rewrite (regexSyntax_neq c "(" Hc eq_refl),
                (regexSyntax_neq c ")" Hc eq_refl),
                (regexSyntax_neq c "|" Hc eq_refl),
                (regexSyntax_neq c "+" Hc eq_refl),
                (regexSyntax_neq c "^" Hc eq_refl),
                (regexSyntax_neq c "$" Hc eq_refl),
                (regexSyntax_neq c "." Hc eq_refl), Estar, Eq.
        cbn [orb]. rewrite (IH _ Hp). reflexivity.
Qed.

Lemma seqOf_globTerms (pattern : string)
      (acc : list (RegExp.re * RegExp.tkind)) (rest : RegExp.re) :
  RegExp.seqOf (globTerms pattern acc) rest
  = RegExp.seqOf acc (globRe pattern rest).
Proof.
  revert acc rest. induction pattern as [|c pattern IH]; intros acc rest.
  - reflexivity.
  - cbn [globTerms globRe]. rewrite IH.
    now destruct (Ascii.eqb c "*"); [| destruct (Ascii.eqb c "?")].
Qed.

(** The expression [new RegExp] compiles for a plain pattern. *)
Lemma newRegExp_plain (pattern : string) :
  plainPattern pattern = true ->
  newRegExp
    ("^" +:+ JSString.replaceAll "?" "." (JSString.replaceAll "*" ".*" pattern)
         +:+ "$")
  = Normal (RegExp.test (RegExp.Seq RegExp.Bol (globRe pattern RegExp.Eol))).
Proof.
  intros Hp. unfold newRegExp. rewrite (translate_inFragment pattern Hp).
  cbn [String.append RegExp.parse Ascii.eqb Bool.eqb orb].
  cbn -[JSString.replaceAll RegExp.parse].
  rewrite (parse_translate pattern "$" [] _ Hp).
  cbn [RegExp.parse Ascii.eqb Bool.eqb orb RegExp.pushTerm RegExp.close
       RegExp.alts RegExp.terms RegExp.altOf RegExp.alternative
       RegExp.emptyFrame].
  cbn. rewrite seqOf_globTerms. reflexivity.
Qed.

Lemma repeat_dot (f : string -> bool) (k : RegExp.pos -> bool) (n : nat) :
  (forall j t, noLineTerminator t = true -> k (j, t) = f t) ->
  forall (s : string) (i : nat),
    String.length s <= n ->
    noLineTerminator s = true ->
    RegExp.repeat (RegExp.m RegExp.Dot) n (i, s) k = anySuffix f s.
Proof.
  intros Hk. induction n as [|n IH]; intros s i Hlen Hs.
  - destruct s; [| simpl in Hlen; lia].
    cbn [RegExp.repeat anySuffix]. now rewrite Hk.
  - cbn [RegExp.repeat]. rewrite (Hk i s Hs).
    destruct s as [|a s]; [reflexivity |].
    cbn [anySuffix RegExp.m snd fst]. f_equal.
    unfold noLineTerminator in Hs. cbn [allChars] in Hs.
    apply andb_true_iff in Hs. destruct Hs as [Ha Hs]. rewrite Ha.
    cbn [andb snd String.length].
    replace (String.length s <? S (String.length s))%nat with true
      by (symmetry; apply Nat.ltb_lt; lia).
    cbn [andb]. apply IH; [simpl in Hlen; lia | exact Hs].
Qed.

(** The expression of a plain pattern against a name without line
    terminator, from any index. *)
Lemma m_globRe (pattern : string) :
  forall (s : string) (i : nat),
    noLineTerminator s = true ->
    RegExp.m (globRe pattern RegExp.Eol) (i, s) (fun _ => true)
    = specMatches pattern s.
Proof.
  induction pattern as [|c pattern IH]; intros s i Hs.
  - now destruct s.
  - cbn [globRe specMatches RegExp.m].
    destruct (Ascii.eqb c "*") eqn:Estar.
    + cbn [RegExp.m snd].
      apply repeat_dot; [| lia | exact Hs].
      intros j t Ht. now apply IH.
    + destruct s as [|a s]; [now destruct (Ascii.eqb c "?") |].
      unfold noLineTerminator in Hs. cbn [allChars] in Hs.
      apply andb_true_iff in Hs. destruct Hs as [Ha Hs].
      destruct (Ascii.eqb c "?") eqn:Eq; cbn [RegExp.m snd fst orb].
      * rewrite Ha. cbn [andb]. now apply IH.
      * f_equal. now apply IH.
Qed.

(** An expression that begins with [^] matches from the start only. *)
Lemma test_anchored (r : RegExp.re) (s : string) :
  RegExp.test (RegExp.Seq RegExp.Bol r) s = RegExp.m r (0, s) (fun _ => true).
Proof.
  assert (Hlater : forall t i,
             RegExp.search (RegExp.Seq RegExp.Bol r) (S i) t = false).
  { induction t as [|a t IHt]; intros i; cbn [RegExp.search RegExp.m fst];
      cbn [Nat.eqb andb orb]; [reflexivity | apply IHt]. }
  unfold RegExp.test. destruct s as [|a s];
    cbn [RegExp.search RegExp.m fst Nat.eqb andb].
  - now rewrite orb_false_r.
  - now rewrite Hlater, orb_false_r.
Qed.

(** X5. On a pattern made of wildcards and of characters that are no
    regular-expression syntax, and a name without line terminator,
    [matchesPattern] returns, and returns the match the specification
    describes: anchored at both ends, [*] for any run of characters, [?]
    for exactly one, any other character for itself. *)
Theorem matchesPattern_plain (name pattern : string) :
  plainPattern pattern = true ->
  noLineTerminator name = true ->
  matchesPattern name pattern = Normal (specMatches pattern name).
Proof.
  intros Hp Hn. unfold matchesPattern.
  rewrite (newRegExp_plain pattern Hp), test_anchored.
  now rewrite m_globRe.
Qed.

(** ** matchesPattern on other patterns *)

(** C4. The characters of the pattern go into the regular expression as
    they are: a dot matches any character, so a pattern without wildcard
    matches names other than itself and ["*.tmp"] matches a name without a
    dot; with a [|] the match is not anchored at both ends; a parenthesis
    groups and does not match itself; [?] does not match a line feed. *)
Theorem pattern_characters_are_not_literal :
  matchesPattern "cache" "cache" = Normal true
  /\ matchesPattern "cache2" "cache" = Normal false
  /\ matchesPattern "axb" "a.b" = Normal true
  /\ matchesPattern "notes_tmp" "*.tmp" = Normal true
  /\ matchesPattern "cache2" "cache|x" = Normal true
  /\ matchesPattern "report(1).txt" "report(1).txt" = Normal false
  /\ matchesPattern (String "a" (String "010" "b")) "a?b" = Normal false.
Proof.
  repeat split; reflexivity.
Qed.

(** C5. On a pattern that is not a regular expression once translated,
    [matchesPattern] throws the SyntaxError of [new RegExp], whatever the
    name; in [findItems] the exception is caught by the [try] around the
    listing and the search ends with what it had. *)
Theorem matchesPattern_throws_on_malformed_pattern (name : string) :
  matchesPattern name "(" = Throw SyntaxError
  /\ matchesPattern name "c++" = Throw SyntaxError
  /\ matchesPattern name "a)" = Throw SyntaxError
  /\ findItems "(" None workTree = [].
Proof.
  repeat split; reflexivity.
Qed.

(** ** shouldExclude *)

Lemma shouldExclude_true_iff (filePath : string) (excludePatterns : list string) :
  shouldExclude filePath excludePatterns = true <->
  exists pattern, In pattern excludePatterns /\
    (JSString.includes filePath pattern = true
     \/ Path.basename filePath = pattern).
Proof.
  induction excludePatterns as [|q rest IH]; simpl.
  - split; [discriminate | intros [x [[] _]]].
  - destruct (JSString.includes filePath q || (Path.basename filePath =? q)%string)
      eqn:E.
    + split; [intros _ | reflexivity].
      exists q. split; [now left |].
      apply orb_true_iff in E. destruct E as [E | E]; [now left |].
      right. now apply String.eqb_eq.
    + rewrite IH. apply orb_false_iff in E. destruct E as [E1 E2].
      apply String.eqb_neq in E2.
      split.
      * intros [x [Hin Hx]]. exists x. split; [now right | exact Hx].
      * intros [x [[-> | Hin] Hx]].
        -- destruct Hx as [Hx | Hx]; [congruence | contradiction].
        -- now exists x.
Qed.

(** ** The depth bound of the search *)

Lemma node_induction (P : FS.node -> Prop) :
  (forall r, P (FS.File r)) ->
  (forall k, P (FS.Special k)) ->
  (forall r w es, Forall (fun e => P (snd e)) es -> P (FS.Dir r w es)) ->
  forall n, P n.
Proof.
  intros Hfile Hspecial Hdir. fix IH 1. intros [r | r w es | k].
  - apply Hfile.
  - apply Hdir. induction es as [|[name c] es IHes]; constructor.
    + apply IH.
    + exact IHes.
  - apply Hspecial.
Qed.

Lemma split_nonempty (sep : ascii) (s : string) : JSString.split sep s <> [].
Proof.
  destruct s as [|a s]; simpl; [discriminate |].
  destruct (Ascii.eqb a sep); [discriminate |].
  destruct (JSString.split sep s); discriminate.
Qed.

Lemma split_app (sep : ascii) (a b : string) :
  JSString.split sep (a +:+ String sep b)
  = JSString.split sep a ++ JSString.split sep b.
Proof.
  induction a as [|x a IH]; simpl.
  - now rewrite Ascii.eqb_refl.
  - destruct (Ascii.eqb x sep); [now rewrite IH |].
    rewrite IH. destruct (JSString.split sep a) as [|seg segs] eqn:E.
    + now destruct (split_nonempty sep a).
    + reflexivity.
Qed.

Lemma split_validName (name : string) :
  allChars (fun a => negb (Ascii.eqb a "/")) name = true ->
  JSString.split "/" name = [name].
Proof.
  induction name as [|a name IH]; simpl; [reflexivity |].
  rewrite andb_true_iff, negb_true_iff. intros [Ha Hn].
  now rewrite Ha, (IH Hn).
Qed.

(** An entry is one level below its directory. *)
Lemma depth_relativeJoin (rel name : string) :
  validName name = true ->
  Path.depth (Path.relativeJoin rel name) = (Path.depth rel + 1)%Z.
Proof.
  unfold validName. rewrite andb_true_iff. intros [Hne Hslash].
  unfold Path.depth, Path.relativeJoin. destruct rel as [|x rel].
  - rewrite (split_validName name Hslash). simpl. now rewrite Hne.
  - change ((String x rel +:+ "/" +:+ name))
      with (String x rel +:+ String "/" name).
    rewrite split_app, (split_validName name Hslash), filter_app, length_app.
    simpl (filter Path.nonEmpty [name]). rewrite Hne. simpl List.length. lia.
Qed.

(** What [searchDir] of [findDirectories] adds to [directories] below a
    directory at depth [d]: entries between depth [d + 1] and depth
    [maxDepth + 1]. *)
Lemma searchDirectories_depth (pattern : string) (md : Z) (n : FS.node) :
  forall (rel : string) (d : Z) (acc : list string) (p : string),
    validNames n = true ->
    Path.depth rel = d ->
    In p (searchDirectories pattern (Some (Int md)) n rel d acc) ->
    In p acc \/ (d + 1 <= Path.depth p <= md + 1)%Z.
Proof.
  induction n as [r | k | r w es IH] using node_induction;
    intros rel d acc p Hvalid Hrel Hin.
  - left. cbn in Hin. now destruct (md <? d)%Z.
  - left. cbn in Hin. now destruct (md <? d)%Z.
  - cbn [searchDirectories tooDeep gt] in Hin.
    destruct (md <? d)%Z eqn:Hdeep; [now left |].
    apply Z.ltb_ge in Hdeep.
    destruct r; [| now left].
    cbn [validNames] in Hvalid.
    revert acc Hin. induction es as [|[name child] es IHes]; intros acc Hin.
    + now left.
    + apply andb_true_iff in Hvalid. destruct Hvalid as [Hvalid Hes].
      apply andb_true_iff in Hvalid. destruct Hvalid as [Hname Hchild].
      inversion IH as [|? ? IHchild IHrest]; subst.
      specialize (IHes IHrest Hes).
      cbn [snd] in IHchild.
      assert (Hdepth := depth_relativeJoin rel name Hname).
      destruct (FS.direntIsDirectory child);
        [| now apply IHes].
      destruct (matchesPattern name pattern) as [b | e]; [| now left].
      apply IHes in Hin. destruct Hin as [Hin | Hin]; [| now right].
      apply (IHchild _ (Path.depth rel + 1)%Z) in Hin;
        [| exact Hchild | exact Hdepth].
      destruct Hin as [Hin | Hin]; [| right; lia].
      destruct b; [| now left].
      apply in_app_or in Hin. destruct Hin as [Hin | [<- | []]];
        [now left | right; lia].
Qed.

(** The same for [searchDir] of [findItems]. *)
Lemma searchItems_depth (pattern : string) (md : Z) (n : FS.node) :
  forall (rel : string) (d : Z) (acc : list string) (p : string),
    validNames n = true ->
    Path.depth rel = d ->
    In p (searchItems pattern (Some (Int md)) n rel d acc) ->
    In p acc \/ (d + 1 <= Path.depth p <= md + 1)%Z.
Proof.
  induction n as [r | k | r w es IH] using node_induction;
    intros rel d acc p Hvalid Hrel Hin.
  - left. cbn in Hin. now destruct (md <? d)%Z.
  - left. cbn in Hin. now destruct (md <? d)%Z.
  - cbn [searchItems tooDeep gt] in Hin.
    destruct (md <? d)%Z eqn:Hdeep; [now left |].
    apply Z.ltb_ge in Hdeep.
    destruct r; [| now left].
    cbn [validNames] in Hvalid.
    revert acc Hin. induction es as [|[name child] es IHes]; intros acc Hin.
    + now left.
    + apply andb_true_iff in Hvalid. destruct Hvalid as [Hvalid Hes].
      apply andb_true_iff in Hvalid. destruct Hvalid as [Hname Hchild].
      inversion IH as [|? ? IHchild IHrest]; subst.
      specialize (IHes IHrest Hes).
      cbn [snd] in IHchild.
      assert (Hdepth := depth_relativeJoin rel name Hname).
      destruct (matchesPattern name pattern) as [b | e]; [| now left].
      assert (Hacc1 : In p (if b then acc ++ [Path.relativeJoin rel name]
                             else acc) ->
                      In p acc
                      \/ (Path.depth rel + 1 <= Path.depth p <= md + 1)%Z).
      { destruct b; [| now left]. intros H. apply in_app_or in H.
        destruct H as [H | [<- | []]]; [now left | right; lia]. }
      destruct (FS.direntIsDirectory child).
      * apply IHes in Hin. destruct Hin as [Hin | Hin]; [| now right].
        apply (IHchild _ (Path.depth rel + 1)%Z) in Hin;
          [| exact Hchild | exact Hdepth].
        destruct Hin as [Hin | Hin]; [now apply Hacc1 | right; lia].
      * apply IHes in Hin. destruct Hin as [Hin | Hin]; [| now right].
        now apply Hacc1.
Qed.

(** X10. The bound the code keeps: with [maxDepth] set, on a tree whose names
    are valid, every path that [findDirectories] and [findItems] return is
    at a depth between 1 and [maxDepth + 1]. *)
Theorem find_depth_bound (pattern : string) (md : Z) (fs : FS.t) (p : string) :
  match FS.lookup (FS.root fs) (FS.cwd fs) with
  | Some n => validNames n = true
  | None => True
  end ->
  In p (findDirectories pattern (Some (Int md)) fs)
  \/ In p (findItems pattern (Some (Int md)) fs) ->
  (1 <= Path.depth p <= md + 1)%Z.
Proof.
  unfold findDirectories, findItems.
  destruct (FS.lookup (FS.root fs) (FS.cwd fs)) as [n |];
    intros Hvalid [Hin | Hin]; try contradiction.
  - apply (searchDirectories_depth pattern md n "" 0%Z [] p Hvalid eq_refl)
      in Hin.
    destruct Hin as [[] | Hin]. lia.
  - apply (searchItems_depth pattern md n "" 0%Z [] p Hvalid eq_refl) in Hin.
    destruct Hin as [[] | Hin]. lia.
Qed.

(** C1. With [maxDepth = 1] on the tree [./cache/], [./sub/cache/],
    [findDirectories] and [findItems] return [sub/cache] as well, an entry
    at depth 2: [searchDir] compares the depth of the directory it lists,
    not the depth of the entries it finds there, with [maxDepth].  So
    [--folders cache --depth 1] has [sub/cache] in its worklist. *)
Theorem depth_bound_is_off_by_one :
  findDirectories "cache" (Some (Int 1)) cacheTree = ["cache"; "sub/cache"]
  /\ findItems "cache" (Some (Int 1)) cacheTree = ["cache"; "sub/cache"]
  /\ Path.depth "cache" = 1%Z
  /\ Path.depth "sub/cache" = 2%Z
  /\ itemsToDelete
       (snd (collectItemsToDelete (buildConfig depthOneOptions)
                                  (mkRun [] [] [] cacheTree (fun _ => "") 0 [])))
     = ["cache"; "sub/cache"].
Proof.
  repeat split; reflexivity.
Qed.

(** ** The order of [sort()] *)

Lemma string_compare_lt_trans (a b c : string) :
  String.compare a b = Lt -> String.compare b c = Lt -> String.compare a c = Lt.
Proof.
  revert b c; induction a as [|x a IH]; intros [|y b] [|z c]; simpl;
    try easy.
  unfold Ascii.compare.
  destruct (N.compare_spec (N_of_ascii x) (N_of_ascii y));
    destruct (N.compare_spec (N_of_ascii y) (N_of_ascii z));
    destruct (N.compare_spec (N_of_ascii x) (N_of_ascii z));
    try easy; try lia; eauto.
Qed.

Lemma string_leb_trans (a b c : string) :
  String.leb a b = true -> String.leb b c = true -> String.leb a c = true.
Proof.
  unfold String.leb.
  destruct (String.compare a b) eqn:Eab; [| | discriminate]; intros _.
  - apply String.compare_eq_iff in Eab. now subst.
  - destruct (String.compare b c) eqn:Ebc; [| | discriminate]; intros _.
    + apply String.compare_eq_iff in Ebc. subst. now rewrite Eab.
    + now rewrite (string_compare_lt_trans a b c Eab Ebc).
Qed.

Lemma sort_StronglySorted (l : list string) :
  StronglySorted (fun a b => String.leb a b = true) (StringSort.sort l).
Proof.
  apply Sorted_StronglySorted.
  - intros a b c. apply string_leb_trans.
  - exact (StringSort.Sorted_sort l).
Qed.

Lemma sort_In (l : list string) (x : string) :
  In x (StringSort.sort l) <-> In x l.
Proof.
  split; apply Permutation_in;
    [apply Permutation_sym |]; apply StringSort.Permuted_sort.
Qed.

Lemma sort_NoDup (l : list string) : NoDup l -> NoDup (StringSort.sort l).
Proof.
  apply Permutation_NoDup, StringSort.Permuted_sort.
Qed.

(** ** [new Set] *)

Lemma existsb_eqb_In (x : string) (seen : list string) :
  existsb (String.eqb x) seen = true <-> In x seen.
Proof.
  rewrite existsb_exists. split.
  - intros [y [Hin Heq]]. apply String.eqb_eq in Heq. now subst.
  - intros Hin. exists x. split; [exact Hin | apply String.eqb_refl].
Qed.

Lemma unique_In (seen l : list string) (x : string) :
  In x (unique seen l) <-> In x l /\ ~ In x seen.
Proof.
  revert seen; induction l as [|y l IH]; intros seen; simpl.
  - tauto.
  - destruct (existsb (String.eqb y) seen) eqn:E.
    + apply existsb_eqb_In in E. rewrite IH. split.
      * intros [H1 H2]. tauto.
      * intros [[-> | H1] H2]; [contradiction | tauto].
    + assert (Hy : ~ In y seen).
      { intros H. apply existsb_eqb_In in H. congruence. }
      simpl. rewrite IH. simpl. split.
      * intros [-> | [H1 H2]]; [tauto |]. split; [tauto |].
        intros H. apply H2. now right.
      * intros [[-> | H1] H2]; [now left |].
        destruct (string_dec y x) as [-> | Hne]; [now left |].
        right. split; [exact H1 |]. intros [H | H]; [congruence | contradiction].
Qed.

Lemma unique_NoDup (seen l : list string) : NoDup (unique seen l).
Proof.
  revert seen; induction l as [|y l IH]; intros seen; simpl.
  - constructor.
  - destruct (existsb (String.eqb y) seen); [apply IH |].
    constructor; [| apply IH].
    rewrite unique_In. intros [_ H]. apply H. now left.
Qed.

(** ** collectItemsToDelete *)

Lemma forEach_push (f : string -> bool) (l : list string) (st : Run) :
  forEach l (fun item => if f item then pushItem item else ret tt) st =
  (tt, mkRun (itemsToDelete st ++ filter f l) (deletedItems st)
             (failedDeletions st) (fs st) (answers st) (asked st) (trace st)).
Proof.
  revert st; induction l as [|x l IH]; intros st; simpl.
  - rewrite app_nil_r. now destruct st.
  - unfold bind at 1. destruct (f x).
    + unfold pushItem, bind, getItems, setItems. rewrite IH. simpl.
      now rewrite <- app_assoc.
    + unfold ret. now rewrite IH.
Qed.

(** The worklist [collectItemsToDelete] leaves in [this.itemsToDelete]: the
    candidates without repeats, without the excluded ones, in order. *)
Lemma collectItemsToDelete_eq (config : Config) (st : Run) :
  collectItemsToDelete config st =
  (tt, mkRun (StringSort.sort
                (filter (fun item =>
                           negb (shouldExclude item (excludePatterns config)))
                        (unique [] (allItems config (fs st)))))
             (deletedItems st) (failedDeletions st) (fs st) (answers st)
             (asked st) (trace st)).
Proof.
  unfold collectItemsToDelete, bind, setItems, getFs, getItems. simpl.
  now rewrite forEach_push.
Qed.

(** ** The worklist *)

Lemma worklist_In (config : Config) (st : Run) (p : string) :
  In p (itemsToDelete (snd (collectItemsToDelete config st))) <->
  In p (allItems config (fs st))
  /\ shouldExclude p (excludePatterns config) = false.
Proof.
  rewrite collectItemsToDelete_eq. simpl.
  rewrite sort_In, filter_In, unique_In, negb_true_iff. simpl. tauto.
Qed.

Lemma worklist_NoDup (config : Config) (st : Run) :
  NoDup (itemsToDelete (snd (collectItemsToDelete config st))).
Proof.
  rewrite collectItemsToDelete_eq. simpl.
  apply sort_NoDup, NoDup_filter, unique_NoDup.
Qed.

(** C6. A path is excluded exactly when it contains one of the exclusion
    patterns as a run of characters or its basename is one of them (string
    comparison, no wildcard), and a candidate is in the worklist of
    [collectItemsToDelete] exactly when it is not excluded: an excluded
    path is never in the worklist, whatever selection pattern found it. *)
Theorem exclusion_by_substring_or_basename
        (config : Config) (st : Run) (filePath : string) :
  (shouldExclude filePath (excludePatterns config) = true <->
   exists pattern, In pattern (excludePatterns config) /\
     ((exists pre suf, filePath = pre +:+ pattern +:+ suf)
      \/ Path.basename filePath = pattern))
  /\ (In filePath (itemsToDelete (snd (collectItemsToDelete config st))) <->
      In filePath (allItems config (fs st))
      /\ shouldExclude filePath (excludePatterns config) = false)
  /\ (shouldExclude filePath (excludePatterns config) = true ->
      ~ In filePath (itemsToDelete (snd (collectItemsToDelete config st)))).
Proof.
  split; [| split].
  - rewrite shouldExclude_true_iff.
    split; intros [pattern [Hin H]]; exists pattern; (split; [exact Hin |]);
      destruct H as [H | H]; try (now right); left; now apply includes_spec.
  - apply worklist_In.
  - intros Hex Hin. apply worklist_In in Hin. destruct Hin as [_ Hin].
    congruence.
Qed.

(** C7. The worklist of [collectItemsToDelete] has no path twice and is in
    ascending order of the path strings.  Every path found, by one pattern
    class or by several, and not excluded is there exactly once; every
    other path is not there at all. *)
Theorem worklist_sorted_without_repeats (config : Config) (st : Run) :
  let items := itemsToDelete (snd (collectItemsToDelete config st)) in
  NoDup items
  /\ (forall p, In p items -> count_occ string_dec items p = 1)
  /\ StronglySorted (fun a b => String.leb a b = true) items
  /\ (forall p,
        In p (allItems config (fs st)) ->
        shouldExclude p (excludePatterns config) = false ->
        count_occ string_dec items p = 1)
  /\ (forall p,
        In p (whenPattern (filesPattern config)
                (fun q => findFiles q (maxDepth config) (fs st)))
        \/ In p (whenPattern (foldersPattern config)
                   (fun q => findDirectories q (maxDepth config) (fs st)))
        \/ In p (whenPattern (typesPattern config)
                   (fun q => findItems q (maxDepth config) (fs st))) ->
        shouldExclude p (excludePatterns config) = false ->
        count_occ string_dec items p = 1)
  /\ (forall p,
        ~ In p (allItems config (fs st))
        \/ shouldExclude p (excludePatterns config) = true ->
        count_occ string_dec items p = 0).
Proof.
  cbv zeta.
  assert (Hpresent : forall p,
             In p (allItems config (fs st)) ->
             shouldExclude p (excludePatterns config) = false ->
             count_occ string_dec
               (itemsToDelete (snd (collectItemsToDelete config st))) p = 1).
  { intros p Hin Hex. apply NoDup_count_occ'; [apply worklist_NoDup |].
    apply worklist_In. now split. }
  split; [| split; [| split; [| split; [| split]]]].
  - apply worklist_NoDup.
  - intros p Hin. apply NoDup_count_occ'; [apply worklist_NoDup | exact Hin].
  - rewrite collectItemsToDelete_eq. simpl. apply sort_StronglySorted.
  - exact Hpresent.
  - intros p Hin. apply Hpresent. unfold allItems.
    rewrite !in_app_iff. tauto.
  - intros p Hout. apply count_occ_not_In. intros Hin.
    apply worklist_In in Hin. destruct Hin as [Hin Hex].
    destruct Hout as [Hout | Hout]; [now apply Hout | congruence].
Qed.

(** An ordered list without repeats is determined by its elements. *)
Lemma sorted_NoDup_ext (l1 l2 : list string) :
  StronglySorted (fun a b => String.leb a b = true) l1 ->
  StronglySorted (fun a b => String.leb a b = true) l2 ->
  NoDup l1 -> NoDup l2 ->
  (forall x, In x l1 <-> In x l2) ->
  l1 = l2.
Proof.
  revert l2; induction l1 as [|a l1 IH]; intros [|b l2] S1 S2 N1 N2 H.
  - reflexivity.
  - exfalso. apply (proj2 (H b)). now left.
  - exfalso. apply (proj1 (H a)). now left.
  - inversion S1 as [|? ? S1' F1]; inversion S2 as [|? ? S2' F2]; subst.
    inversion N1 as [|? ? Na N1']; inversion N2 as [|? ? Nb N2']; subst.
    rewrite Forall_forall in F1, F2.
    assert (Hab : a = b).
    { destruct (proj1 (H a) (or_introl eq_refl)) as [E | Ha]; [now subst |].
      destruct (proj2 (H b) (or_introl eq_refl)) as [E | Hb]; [now subst |].
      apply String.leb_antisym; [now apply F1 | now apply F2]. }
    subst b. f_equal. apply IH; try assumption.
    intros x. split; intros Hx.
    + destruct (proj1 (H x) (or_intror Hx)) as [E | Hx']; [| exact Hx'].
      subst x. contradiction.
    + destruct (proj2 (H x) (or_intror Hx)) as [E | Hx']; [| exact Hx'].
      subst x. contradiction.
Qed.

(** C8. [collectItemsToDelete] reads the configuration and the file system
    and nothing else: it leaves the file system as it was, a second call
    right after the first yields the same worklist, and so does a call on
    any other engine over the same file system.  The worklist depends on
    the set of candidates only, not on the order in which the directories
    were listed. *)
Theorem selection_deterministic (config : Config) (st : Run)
        (items' deleted' failed' : list string) (answers' : nat -> string)
        (asked' : nat) (trace' : list event) :
  let st1 := snd (collectItemsToDelete config st) in
  let st2 := snd (collectItemsToDelete config st1) in
  let other := mkRun items' deleted' failed' (fs st) answers' asked' trace' in
  fs st1 = fs st
  /\ itemsToDelete st2 = itemsToDelete st1
  /\ itemsToDelete (snd (collectItemsToDelete config other)) = itemsToDelete st1
  /\ (forall st',
        (forall p, In p (allItems config (fs st')) <->
                   In p (allItems config (fs st))) ->
        itemsToDelete (snd (collectItemsToDelete config st')) =
        itemsToDelete st1).
Proof.
  cbv zeta. split; [| split; [| split]].
  - now rewrite collectItemsToDelete_eq.
  - now rewrite !collectItemsToDelete_eq.
  - now rewrite !collectItemsToDelete_eq.
  - intros st' H. apply sorted_NoDup_ext.
    + rewrite collectItemsToDelete_eq. apply sort_StronglySorted.
    + rewrite collectItemsToDelete_eq. apply sort_StronglySorted.
    + apply worklist_NoDup.
    + apply worklist_NoDup.
    + intros x. rewrite !worklist_In, H. tauto.
Qed.

(** ** Computations that only report *)

Lemma withTrace_nil (st : Run) : withTrace st [] = st.
Proof.
  unfold withTrace. rewrite app_nil_r. now destruct st.
Qed.

Lemma withTrace_app (st : Run) (e1 e2 : list event) :
  withTrace (withTrace st e1) e2 = withTrace st (e1 ++ e2).
Proof.
  unfold withTrace. simpl. now rewrite app_assoc.
Qed.

Lemma reports_ret : reports (ret tt).
Proof.
  intros st. exists []. now rewrite withTrace_nil.
Qed.

Lemma reports_emit (e : event) : quiet e = true -> reports (emit e).
Proof.
  intros He st. exists [e]. split; [reflexivity | simpl; now rewrite He].
Qed.

Lemma reports_log (message : string) (level : LogLevel) :
  reports (log message level).
Proof.
  now apply reports_emit.
Qed.

Lemma reports_seq (c1 c2 : M unit) :
  reports c1 -> reports c2 -> reports (c1 ;;; c2).
Proof.
  intros H1 H2 st.
  destruct (H1 st) as [e1 [E1 Q1]].
  destruct (H2 (withTrace st e1)) as [e2 [E2 Q2]].
  exists (e1 ++ e2). unfold bind. rewrite E1, E2, withTrace_app.
  split; [reflexivity |]. rewrite forallb_app. now rewrite Q1, Q2.
Qed.

Lemma reports_forEach {A : Type} (l : list A) (body : A -> M unit) :
  (forall x, reports (body x)) -> reports (forEach l body).
Proof.
  intros Hb. induction l as [|x l IH]; simpl.
  - apply reports_ret.
  - now apply reports_seq.
Qed.

Lemma reports_displayPreview (config : Config) : reports (displayPreview config).
Proof.
  intros st. unfold displayPreview, bind at 1, getItems.
  destruct (itemsToDelete st) as [|i items] eqn:E.
  - apply reports_log.
  - apply reports_seq; [apply reports_log |].
    destruct (outputFormat config).
    + apply reports_forEach. intros x. now apply reports_emit.
    + now apply reports_emit.
Qed.

(** ** Dry run *)

Lemma deleteItem_dryRun (config : Config) (item : string) (st : Run) :
  dryRun config = true ->
  deleteItem config item st =
  (tt, mkRun (itemsToDelete st) (deletedItems st ++ [item])
             (failedDeletions st) (fs st) (answers st) (asked st)
             (trace st ++ [Log ("Would delete: " +:+ item) INFO])).
Proof.
  intros H. unfold deleteItem. now rewrite H.
Qed.

Lemma forEach_deleteItem_dryRun (config : Config) (items : list string)
      (st : Run) :
  dryRun config = true ->
  forEach items (deleteItem config) st =
  (tt, mkRun (itemsToDelete st) (deletedItems st ++ items)
             (failedDeletions st) (fs st) (answers st) (asked st)
             (trace st ++
              map (fun item => Log ("Would delete: " +:+ item) INFO) items)).
Proof.
  intros H. revert st. induction items as [|x items IH]; intros st; simpl.
  - rewrite !app_nil_r. now destruct st.
  - unfold bind. rewrite (deleteItem_dryRun config x st H), IH. simpl.
    now rewrite <- !app_assoc.
Qed.

(** The state after the preview step of [processDeletions] in a dry run:
    quiet events only, and the batch goes on. *)
Lemma preview_step_dryRun (config : Config) (st : Run) :
  dryRun config = true ->
  exists evs,
    (if preview config then
       displayPreview config ;;;
       if negb (dryRun config) && negb (force config) then
         proceed <- confirmProceed ;;
         if negb proceed then
           log "Deletion cancelled by user." INFO ;;; ret false
         else ret true
       else ret true
     else ret true) st = (true, withTrace st evs)
    /\ forallb quiet evs = true.
Proof.
  intros H. rewrite H. simpl. destruct (preview config).
  - destruct (reports_displayPreview config st) as [evs [E Q]].
    exists evs. unfold bind. now rewrite E.
  - exists []. now rewrite withTrace_nil.
Qed.

(** What [processDeletions] does in a dry run. *)
Lemma processDeletions_dryRun (config : Config) (st : Run) :
  dryRun config = true ->
  exists evs,
    processDeletions config st =
    (tt, mkRun (itemsToDelete st) (deletedItems st ++ itemsToDelete st)
               (failedDeletions st) (fs st) (answers st) (asked st)
               (trace st ++ evs))
    /\ forallb quiet evs = true
    /\ (forall item, In item (itemsToDelete st) ->
          In (Log ("Would delete: " +:+ item) INFO) evs).
Proof.
  intros Hdry. unfold processDeletions, bind at 1, getItems.
  destruct (itemsToDelete st) as [|i items] eqn:Eitems.
  - exists [Log "No items to delete." INFO]. rewrite app_nil_r.
    split; [unfold log, emit; now rewrite Eitems |].
    split; [reflexivity | intros item []].
  - unfold bind at 1.
    destruct (preview_step_dryRun config st Hdry) as [evs [E Q]].
    rewrite E. rewrite (forEach_deleteItem_dryRun config _ _ Hdry).
    exists (evs ++ map (fun item => Log ("Would delete: " +:+ item) INFO)
                      (i :: items)).
    split; [| split].
    + simpl. now rewrite Eitems, <- app_assoc.
    + rewrite forallb_app, Q. simpl.
      apply forallb_forall. intros e He. apply in_map_iff in He.
      now destruct He as [x [<- _]].
    + intros item Hin. apply in_or_app. right.
      now apply (in_map (fun item => Log ("Would delete: " +:+ item) INFO)).
Qed.

(** C2. In a dry run [processDeletions] changes nothing in the file
    system, calls no removal and asks no question, whatever the
    interactive, force and preview flags are; it logs "Would delete" for
    every item of the worklist and records each as deleted, so that the
    summary has [deleted = totalItems]. *)
Theorem dryRun_mutates_nothing (config : Config) (st : Run) :
  dryRun config = true ->
  deletedItems st = [] ->
  let st' := snd (processDeletions config st) in
  fs st' = fs st
  /\ asked st' = asked st
  /\ (exists evs, trace st' = trace st ++ evs /\ forallb quiet evs = true)
  /\ itemsToDelete st' = itemsToDelete st
  /\ failedDeletions st' = failedDeletions st
  /\ deletedItems st' = itemsToDelete st
  /\ (forall item, In item (itemsToDelete st) ->
        In (Log ("Would delete: " +:+ item) INFO) (trace st'))
  /\ deleted (getSummary config st') = totalItems (getSummary config st').
Proof.
  intros Hdry Hfresh.
  destruct (processDeletions_dryRun config st Hdry) as [evs [E [Q Hlog]]].
  rewrite E, Hfresh. simpl.
  split; [reflexivity |]. split; [reflexivity |].
  split; [now exists evs |]. split; [reflexivity |].
  split; [reflexivity |]. split; [reflexivity |].
  split; [| reflexivity].
  intros item Hin. apply in_or_app. right. now apply Hlog.
Qed.

(** ** The preview gate *)

Lemma forEach_emit {A : Type} (f : A -> event) (l : list A) (st : Run) :
  forEach l (fun x => emit (f x)) st = (tt, withTrace st (map f l)).
Proof.
  revert st; induction l as [|x l IH]; intros st; simpl.
  - now rewrite withTrace_nil.
  - unfold bind. simpl. rewrite IH. unfold withTrace. simpl.
    now rewrite <- app_assoc.
Qed.

(** What [displayPreview] writes for a worklist that is not empty: the
    heading and every item. *)
Lemma displayPreview_shows_all (config : Config) (st : Run) :
  itemsToDelete st <> [] ->
  displayPreview config st =
  (tt, withTrace st
         (Log ("Preview: Items that will be deleted ("
               +:+ JSString.ofNat (List.length (itemsToDelete st))
               +:+ " items):") INFO
          :: match outputFormat config with
             | json => [ConsoleItems (itemsToDelete st)]
             | plain => map (fun item => Console ("  - " +:+ item))
                            (itemsToDelete st)
             end)).
Proof.
  intros Hne. unfold displayPreview, bind at 1, getItems.
  destruct (itemsToDelete st) as [|i items] eqn:E; [contradiction |].
  unfold bind at 1. unfold log at 1. unfold emit at 1.
  destruct (outputFormat config).
  - rewrite (forEach_emit (fun item => Console ("  - " +:+ item))).
    unfold withTrace. simpl. now rewrite <- app_assoc.
  - unfold emit, withTrace. simpl. now rewrite <- app_assoc.
Qed.

(** [processDeletions] with the preview gate armed, on a worklist that is
    not empty: the preview, one question, and then either the whole batch
    or nothing. *)
Lemma processDeletions_gate (config : Config) (st : Run) :
  preview config = true -> dryRun config = false -> force config = false ->
  itemsToDelete st <> [] ->
  let shown := snd (displayPreview config st) in
  let queried :=
    mkRun (itemsToDelete shown) (deletedItems shown) (failedDeletions shown)
          (fs shown) (answers shown) (S (asked shown))
          (trace shown ++ [Question "Proceed with deletion? [y/N]: "]) in
  processDeletions config st =
  if isYes (answers st (asked st))
  then forEach (itemsToDelete st) (deleteItem config) queried
  else (tt, withTrace queried [Log "Deletion cancelled by user." INFO]).
Proof.
  intros Hp Hd Hf Hne. cbv zeta.
  destruct (reports_displayPreview config st) as [evs [E _]].
  unfold processDeletions, bind at 1, getItems.
  destruct (itemsToDelete st) as [|i items] eqn:Ei; [contradiction |].
  rewrite Hp, Hd, Hf. cbn [negb andb].
  unfold bind at 1. unfold bind at 1. rewrite E.
  unfold confirmProceed, question, bind, ret, log, emit, withTrace.
  cbn [snd fst itemsToDelete deletedItems failedDeletions fs answers asked
       trace].
  rewrite Ei.
  destruct (isYes (answers st (asked st))); reflexivity.
Qed.

(** C9 (amended). With [preview] set, [dryRun] and [force] unset and a
    worklist that is not empty, [processDeletions] shows the heading and
    every item of the worklist, asks "Proceed with deletion?" once, and
    only then either runs the batch or, when the answer is not yes, logs
    the cancellation and stops: nothing is removed, no item is recorded as
    deleted or failed, and the exit code is the one of before (0 for a
    fresh engine). *)
Theorem preview_gate (config : Config) (st : Run) :
  preview config = true -> dryRun config = false -> force config = false ->
  itemsToDelete st <> [] ->
  let shown :=
    Log ("Preview: Items that will be deleted ("
         +:+ JSString.ofNat (List.length (itemsToDelete st))
         +:+ " items):") INFO
    :: match outputFormat config with
       | json => [ConsoleItems (itemsToDelete st)]
       | plain => map (fun item => Console ("  - " +:+ item))
                      (itemsToDelete st)
       end in
  let query := Question "Proceed with deletion? [y/N]: " in
  let queried :=
    mkRun (itemsToDelete st) (deletedItems st) (failedDeletions st) (fs st)
          (answers st) (S (asked st)) (trace st ++ shown ++ [query]) in
  let st' := snd (processDeletions config st) in
  (isYes (answers st (asked st)) = true ->
   processDeletions config st =
   forEach (itemsToDelete st) (deleteItem config) queried)
  /\ (isYes (answers st (asked st)) = false ->
      trace st' =
      trace st ++ shown ++ [query; Log "Deletion cancelled by user." INFO]
      /\ asked st' = S (asked st)
      /\ fs st' = fs st
      /\ itemsToDelete st' = itemsToDelete st
      /\ deletedItems st' = deletedItems st
      /\ failedDeletions st' = failedDeletions st
      /\ getExitCode st' = getExitCode st
      /\ (failedDeletions st = [] -> getExitCode st' = 0%Z)).
Proof.
  intros Hp Hd Hf Hne. cbv zeta.
  rewrite (processDeletions_gate config st Hp Hd Hf Hne).
  rewrite (displayPreview_shows_all config st Hne).
  unfold withTrace.
  cbn [snd fst itemsToDelete deletedItems failedDeletions fs answers asked
       trace].
  split; intros Hans; rewrite Hans.
  - now rewrite <- app_assoc.
  - cbn [snd fst itemsToDelete deletedItems failedDeletions fs answers asked
         trace].
    split; [now rewrite <- !app_assoc |].
    unfold getExitCode.
    cbn [snd fst itemsToDelete deletedItems failedDeletions fs answers asked
         trace].
    repeat (split; [reflexivity |]).
    intros ->. reflexivity.
Qed.

(** ** Items that are gone *)

(** Where the walk of a system call arrives, [path.resolve] arrives. *)
Lemma walk_normalize (n : FS.node) (segs : list string) :
  forall (cur r : list string),
    FS.walk n cur segs = Some r -> r = Path.normalize cur segs.
Proof.
  induction segs as [|seg segs IH]; intros cur r; cbn [FS.walk Path.normalize].
  - now intros [= <-].
  - destruct (FS.lookup n (rev cur)) as [[x | x w es | k] |];
      try discriminate.
    destruct (String.eqb seg "" || String.eqb seg "."); [apply IH |].
    destruct (String.eqb seg ".."); apply IH.
Qed.

(** [statSync] finds what is at the resolved path, or nothing. *)
Lemma statSync_resolve (fs : FS.t) (p : string) :
  FS.statSync fs p = FS.statAt fs (Path.resolve (FS.cwd fs) p)
  \/ FS.statSync fs p = Throw SystemError.
Proof.
  destruct p as [|a p]; [now right |].
  unfold FS.statSync, Path.resolve.
  destruct (FS.walk (FS.root fs)
              (if Path.isAbsolute (String a p) then [] else rev (FS.cwd fs))
              (JSString.split "/" (String a p))) as [r |] eqn:E;
    [| now right].
  left. apply walk_normalize in E. subst r.
  now destruct (Path.isAbsolute (String a p)).
Qed.

Lemma statSync_notFileNorDirectory (fs : FS.t) (item : string) :
  notFileNorDirectory fs item ->
  FS.statSync fs item = Throw SystemError
  \/ FS.statSync fs item = Normal FS.StOther.
Proof.
  intros H. destruct (statSync_resolve fs item) as [-> | ->]; [| now left].
  revert H. unfold notFileNorDirectory, FS.statAt.
  intros [-> | [k ->]]; [now left |].
  destruct k; (now left) || (now right).
Qed.

Lemma isDirectory_notFileNorDirectory (item : string) (st : Run) :
  notFileNorDirectory (fs st) item -> isDirectory item st = (false, st).
Proof.
  intros H. unfold isDirectory, bind, getFs.
  now destruct (statSync_notFileNorDirectory _ _ H) as [-> | ->].
Qed.

Lemma isFile_notFileNorDirectory (item : string) (st : Run) :
  notFileNorDirectory (fs st) item -> isFile item st = (false, st).
Proof.
  intros H. unfold isFile, bind, getFs.
  now destruct (statSync_notFileNorDirectory _ _ H) as [-> | ->].
Qed.

(** The removal step of the engine's [deleteItem] on such an item. *)
Lemma removal_step_gone (item : string) (s : Run) :
  notFileNorDirectory (fs s) item ->
  (isDir <- isDirectory item ;;
   if isDir then
     ok <- fileUtils_deleteItem item ;;
     if ok then
       log ("Deleted directory: " +:+ item) INFO ;;;
       pushDeleted item
     else
       log ("Failed to delete directory: " +:+ item) ERROR ;;;
       pushFailed item
   else
     isF <- isFile item ;;
     if isF then
       ok <- fileUtils_deleteItem item ;;
       if ok then
         log ("Deleted file: " +:+ item) INFO ;;;
         pushDeleted item
       else
         log ("Failed to delete file: " +:+ item) ERROR ;;;
         pushFailed item
     else
       log ("Item not found or already deleted: " +:+ item) WARNING) s =
  (tt, withTrace s
         [Log ("Item not found or already deleted: " +:+ item) WARNING]).
Proof.
  intros H. unfold bind at 1.
  rewrite isDirectory_notFileNorDirectory by exact H.
  unfold bind at 1.
  rewrite isFile_notFileNorDirectory by exact H.
  reflexivity.
Qed.

(** The engine's [deleteItem] on such an item, outside a dry run. *)
Lemma deleteItem_gone (config : Config) (item : string) (st : Run) :
  dryRun config = false ->
  notFileNorDirectory (fs st) item ->
  deleteItem config item st =
  (tt, mkRun (itemsToDelete st) (deletedItems st) (failedDeletions st) (fs st)
             (answers st)
             (if interactive config && negb (force config)
              then S (asked st) else asked st)
             (trace st ++
              if interactive config && negb (force config)
              then if isYes (answers st (asked st))
                   then [Question ("Delete '" +:+ item +:+ "'? [y/N]: ");
                         Log ("Item not found or already deleted: " +:+ item)
                             WARNING]
                   else [Question ("Delete '" +:+ item +:+ "'? [y/N]: ");
                         Log ("Skipped: " +:+ item) INFO]
              else [Log ("Item not found or already deleted: " +:+ item)
                        WARNING])).
Proof.
  intros Hd Hgone. unfold deleteItem. rewrite Hd. unfold bind at 1.
  destruct (interactive config); cbn [andb].
  - unfold confirmDeletion. destruct (force config); cbn [negb].
    + unfold ret at 1. cbn [negb]. now rewrite removal_step_gone.
    + unfold bind at 1, question, ret at 1.
      destruct (isYes (answers st (asked st))); cbn [negb].
      * rewrite removal_step_gone by exact Hgone.
        unfold withTrace. cbn [itemsToDelete deletedItems failedDeletions fs
                                answers asked trace].
        now rewrite <- app_assoc.
      * unfold log, emit.
        cbn [itemsToDelete deletedItems failedDeletions fs answers asked
             trace].
        now rewrite <- app_assoc.
  - unfold ret at 1. cbn [negb]. now rewrite removal_step_gone.
Qed.

(** C10. Outside a dry run, for an item at whose path there is nothing
    left, or something that is neither a regular file nor a directory, the
    engine's [deleteItem] calls no removal: after the confirmation (when
    one is due) it logs the warning "Item not found or already deleted",
    or "Skipped" when the operator declined; the file system, the deleted
    list, the failed list and hence the exit code stay as they were, and
    the batch goes on with the next item. *)
Theorem vanished_item_is_skipped (config : Config) (item : string) (st : Run) :
  dryRun config = false ->
  notFileNorDirectory (fs st) item ->
  let st' := snd (deleteItem config item st) in
  let query := Question ("Delete '" +:+ item +:+ "'? [y/N]: ") in
  let warning := Log ("Item not found or already deleted: " +:+ item) WARNING in
  (exists evs,
     trace st' = trace st ++ evs
     /\ forallb (fun e => negb (mutates e)) evs = true
     /\ evs = if interactive config && negb (force config)
              then if isYes (answers st (asked st))
                   then [query; warning]
                   else [query; Log ("Skipped: " +:+ item) INFO]
              else [warning])
  /\ fs st' = fs st
  /\ itemsToDelete st' = itemsToDelete st
  /\ deletedItems st' = deletedItems st
  /\ failedDeletions st' = failedDeletions st
  /\ getExitCode st' = getExitCode st
  /\ (forall rest,
        forEach (item :: rest) (deleteItem config) st =
        forEach rest (deleteItem config) st').
Proof.
  intros Hd Hgone. cbv zeta.
  assert (Hnext : forall rest,
             forEach (item :: rest) (deleteItem config) st =
             forEach rest (deleteItem config)
                     (snd (deleteItem config item st))).
  { intros rest. simpl. unfold bind.
    now destruct (deleteItem config item st) as [[] st1]. }
  split; [| repeat (split; [| try exact Hnext])];
    try (rewrite (deleteItem_gone config item st Hd Hgone); reflexivity).
  rewrite (deleteItem_gone config item st Hd Hgone).
  eexists. split; [reflexivity |]. split; [| reflexivity].
  destruct (interactive config && negb (force config));
    [destruct (isYes (answers st (asked st))) |]; reflexivity.
Qed.

(** ** The exit code *)

Lemma getExitCode_one_iff (st : Run) :
  getExitCode st = 1%Z <-> failedDeletions st <> [].
Proof.
  unfold getExitCode. destruct (failedDeletions st); simpl.
  - split; [discriminate | intros H; now contradiction H].
  - split; [discriminate | reflexivity].
Qed.

Lemma getExitCode_zero_iff (st : Run) :
  getExitCode st = 0%Z <-> failedDeletions st = [].
Proof.
  unfold getExitCode. destruct (failedDeletions st); simpl.
  - split; reflexivity.
  - split; discriminate.
Qed.

(** A depth that is not a positive number is refused before anything is
    read or removed. *)
Lemma main_rejects_bad_depth (options : Options) (d : number) (st : Run) :
  let config := buildConfig options in
  truthy (filesPattern config) || truthy (foldersPattern config)
    || truthy (typesPattern config) = true ->
  opt_depth options = Some d ->
  badDepth d = true ->
  main options st =
  (1%Z, withTrace st [ConsoleError "Error: --depth must be a positive number"]).
Proof.
  cbv zeta. intros Hpat Hd Hbad. unfold main.
  destruct (truthy (filesPattern (buildConfig options)));
    destruct (truthy (foldersPattern (buildConfig options)));
    destruct (truthy (typesPattern (buildConfig options)));
    try discriminate Hpat; cbn [negb andb].
  all: replace (badFormat (outputFormat (buildConfig options))) with false
    by now destruct (outputFormat (buildConfig options)).
  all: unfold buildConfig; cbn [maxDepth]; rewrite Hd, Hbad; reflexivity.
Qed.

(** Without a pattern nothing is read or removed; the status is 1 unless
    commander's [help()] ends the process with a status of its own. *)
Lemma main_rejects_no_pattern (options : Options) (st : Run) :
  let config := buildConfig options in
  truthy (filesPattern config) = false ->
  truthy (foldersPattern config) = false ->
  truthy (typesPattern config) = false ->
  main options st =
  (match commanderHelp with Some status => status | None => 1%Z end,
   withTrace st
     [ConsoleError
        "Error: At least one of --files, --folders, or --types must be specified";
      Help]).
Proof.
  cbv zeta. intros H1 H2 H3. unfold main. rewrite H1, H2, H3. cbn [negb andb].
  unfold bind, emit, withTrace. cbn [trace]. rewrite <- app_assoc.
  now destruct commanderHelp.
Qed.

(** Every format value builds a valid configuration: the one that is not
    [json] is read as [plain]. *)
Lemma badFormat_never (options : Options) :
  badFormat (outputFormat (buildConfig options)) = false.
Proof.
  now destruct (outputFormat (buildConfig options)).
Qed.

(** X18. A decline in interactive mode skips the item: nothing is removed
    and nothing is recorded as failed. *)
Lemma declined_item_is_skipped (config : Config) (item : string) (st : Run) :
  dryRun config = false -> interactive config = true -> force config = false ->
  isYes (answers st (asked st)) = false ->
  deleteItem config item st =
  (tt, mkRun (itemsToDelete st) (deletedItems st) (failedDeletions st) (fs st)
             (answers st) (S (asked st))
             (trace st ++ [Question ("Delete '" +:+ item +:+ "'? [y/N]: ");
                           Log ("Skipped: " +:+ item) INFO])).
Proof.
  intros Hd Hi Hf Hno. unfold deleteItem. rewrite Hd, Hi, Hf.
  unfold confirmDeletion, bind at 1, bind at 1, question, ret at 1.
  rewrite Hno. cbn [negb]. unfold log, emit.
  cbn [itemsToDelete deletedItems failedDeletions fs answers asked trace].
  now rewrite <- app_assoc.
Qed.

(** The specification's scenario: interactive mode, the operator answers
    "n" and then "y" for two items; one is skipped, one deleted, none
    failed, and the exit code is 0. *)
Example scenario_interactive_no_then_yes :
  let st := snd (processDeletions (flags false true false false)
                   (mkRun ["a.tmp"; "cache"] [] [] workTree
                          (fun n => match n with O => "n" | _ => "y" end)
                          0 [])) in
  deletedItems st = ["cache"]
  /\ failedDeletions st = []
  /\ getExitCode st = 0%Z
  /\ trace st =
     [Question "Delete 'a.tmp'? [y/N]: "; Log "Skipped: a.tmp" INFO;
      Question "Delete 'cache'? [y/N]: "; Rm ["work"; "cache"];
      Log "Deleted directory: cache" INFO].
Proof.
  repeat split; reflexivity.
Qed.

(** The specification's scenario: force with interactive mode; no question
    is asked and both items are deleted. *)
Example scenario_force_with_interactive :
  let st := snd (processDeletions (flags false true true false)
                   (engineWith ["a.tmp"; "cache"] "n")) in
  deletedItems st = ["a.tmp"; "cache"]
  /\ asked st = 0
  /\ trace st =
     [Unlink ["work"; "a.tmp"]; Log "Deleted file: a.tmp" INFO;
      Rm ["work"; "cache"]; Log "Deleted directory: cache" INFO].
Proof.
  repeat split; reflexivity.
Qed.

(** ** The validation of the output format *)

(** C3. [--folders cache --format xml]: the value [xml] is read as
    [plain], the check of the format never fires, and [main] goes on to
    search and remove and exits with status 0. *)
Theorem unrecognized_format_is_accepted :
  outputFormat (buildConfig xmlOptions) = plain
  /\ main xmlOptions (mkRun [] [] [] cacheTree (fun _ => "") 0 []) =
     (0%Z,
      mkRun ["cache"; "sub/cache"] ["cache"; "sub/cache"] []
            (FS.mk (FS.Dir true true [("sub", FS.Dir true true [])]) [])
            (fun _ => "") 0
            [Log "Starting deletion operation..." INFO;
             Rm ["cache"]; Log "Deleted directory: cache" INFO;
             Rm ["sub"; "cache"]; Log "Deleted directory: sub/cache" INFO;
             Log "=== Deletion Summary ===" INFO;
             Log "Total items found: 2" INFO;
             Log "Items successfully deleted: 2" INFO]).
Proof.
  split; reflexivity.
Qed.

(* ================================================================== *)
(** * Further properties *)

(** ** Exclusion *)

Lemma split_head_prefix (sep : ascii) (s seg : string) (segs : list string) :
  JSString.split sep s = seg :: segs -> exists suf, s = seg +:+ suf.
Proof.
  revert seg segs. induction s as [|a s IH]; intros seg segs; simpl.
  - intros H. injection H as <- _. now exists "".
  - destruct (Ascii.eqb a sep).
    + intros H. injection H as <- _. now exists (String a s).
    + destruct (JSString.split sep s) as [|seg0 segs0] eqn:E.
      * intros H. injection H as <- _. exists s. reflexivity.
      * intros H. injection H as <- _.
        destruct (IH seg0 segs0 eq_refl) as [suf ->]. now exists suf.
Qed.

Lemma split_In_includes (sep : ascii) (s seg : string) :
  In seg (JSString.split sep s) -> JSString.includes s seg = true.
Proof.
  rewrite includes_spec. revert seg. induction s as [|a s IH]; intros seg.
  - simpl. intros [<- | []]. now exists "", "".
  - simpl. destruct (Ascii.eqb a sep).
    + intros [<- | Hin].
      * now exists "", (String a s).
      * destruct (IH seg Hin) as [pre [suf ->]]. now exists (String a pre), suf.
    + destruct (JSString.split sep s) as [|seg0 segs0] eqn:E.
      * intros [<- | []]. exists "", s. reflexivity.
      * intros [<- | Hin].
        -- destruct (split_head_prefix sep s seg0 segs0 E) as [suf ->].
           now exists "", suf.
        -- destruct (IH seg (or_intror Hin)) as [pre [suf ->]].
           now exists (String a pre), suf.
Qed.

Lemma lastOr_In (d : string) (l : list string) :
  Path.lastOr d l = d \/ In (Path.lastOr d l) l.
Proof.
  revert d. induction l as [|x l IH]; intros d; simpl; [now left |].
  destruct (IH x) as [-> | H]; right; [now left | now right].
Qed.

(** The basename of a path occurs in the path. *)
Lemma includes_basename (p : string) :
  JSString.includes p (Path.basename p) = true.
Proof.
  unfold Path.basename.
  destruct (lastOr_In "" (filter Path.nonEmpty (JSString.split "/" p)))
    as [-> | Hin].
  - apply includes_spec. now exists "", p.
  - apply filter_In in Hin. now apply (split_In_includes "/").
Qed.

(** X1. The basename test of [shouldExclude] never decides: a path is
    excluded exactly when one of the patterns occurs in it. *)
Theorem shouldExclude_is_substring_test (filePath : string)
        (excludePatterns : list string) :
  shouldExclude filePath excludePatterns
  = existsb (JSString.includes filePath) excludePatterns.
Proof.
  induction excludePatterns as [|pattern rest IH]; simpl; [reflexivity |].
  rewrite IH.
  destruct (JSString.includes filePath pattern) eqn:E; [reflexivity |].
  destruct (String.eqb_spec (Path.basename filePath) pattern) as [<- | _];
    [| reflexivity].
  now rewrite includes_basename in E.
Qed.

Lemma shouldExclude_existsb (filePath : string) (patterns : list string) :
  shouldExclude filePath patterns
  = existsb (JSString.includes filePath) patterns.
Proof.
  induction patterns as [|pattern rest IH]; simpl; [reflexivity |].
  rewrite IH.
  destruct (JSString.includes filePath pattern) eqn:E; [reflexivity |].
  destruct (String.eqb_spec (Path.basename filePath) pattern) as [<- | _];
    [| reflexivity].
  now rewrite includes_basename in E.
Qed.

Lemma includes_extend (p pattern pre suf : string) :
  JSString.includes p pattern = true ->
  JSString.includes (pre +:+ p +:+ suf) pattern = true.
Proof.
  rewrite !includes_spec. intros [a [b ->]].
  exists (pre +:+ a), (b +:+ suf). now rewrite !append_assoc.
Qed.

Lemma shouldExclude_extend (p pre suf : string) (patterns : list string) :
  shouldExclude p patterns = true ->
  shouldExclude (pre +:+ p +:+ suf) patterns = true.
Proof.
  rewrite !shouldExclude_existsb, !existsb_exists.
  intros [pattern [Hin H]]. exists pattern. split; [exact Hin |].
  now apply includes_extend.
Qed.

(** X2. Exclusion reaches everything below: when a path is excluded, so is
    every path that contains it, in particular every entry of an excluded
    directory, and none of them is in the worklist. *)
Theorem exclusion_covers_descendants (config : Config) (st : Run)
        (dir : string) :
  shouldExclude dir (excludePatterns config) = true ->
  (forall pre suf,
     shouldExclude (pre +:+ dir +:+ suf) (excludePatterns config) = true)
  /\ (forall name,
        shouldExclude (Path.relativeJoin dir name) (excludePatterns config)
        = true)
  /\ (forall pre suf,
        ~ In (pre +:+ dir +:+ suf)
             (itemsToDelete (snd (collectItemsToDelete config st)))).
Proof.
  intros Hex. split; [| split].
  - intros pre suf. now apply shouldExclude_extend.
  - intros name. unfold Path.relativeJoin. destruct dir as [|a dir].
    + apply (shouldExclude_extend "" "" name) in Hex. exact Hex.
    + exact (shouldExclude_extend (String a dir) "" ("/" +:+ name) _ Hex).
  - intros pre suf Hin. apply worklist_In in Hin. destruct Hin as [_ Hin].
    rewrite (shouldExclude_extend dir pre suf _ Hex) in Hin. discriminate.
Qed.

Lemma filter_none {A : Type} (f : A -> bool) (l : list A) :
  (forall x, In x l -> f x = false) -> filter f l = [].
Proof.
  induction l as [|x l IH]; intros H; simpl; [reflexivity |].
  rewrite (H x (or_introl eq_refl)). apply IH. intros y Hy. apply H.
  now right.
Qed.

(** X3. An empty exclusion pattern occurs in every path: with it among the
    exclusion patterns every candidate is excluded and the worklist is
    empty. *)
Theorem empty_exclusion_excludes_everything (config : Config) (st : Run) :
  In "" (excludePatterns config) ->
  (forall filePath, shouldExclude filePath (excludePatterns config) = true)
  /\ itemsToDelete (snd (collectItemsToDelete config st)) = [].
Proof.
  intros Hin.
  assert (Hall : forall filePath,
             shouldExclude filePath (excludePatterns config) = true).
  { intros filePath. rewrite shouldExclude_existsb. apply existsb_exists.
    exists "". split; [exact Hin |]. apply includes_spec.
    now exists "", filePath. }
  split; [exact Hall |].
  rewrite collectItemsToDelete_eq. cbn [snd itemsToDelete].
  rewrite filter_none; [reflexivity |].
  intros x _. now rewrite Hall.
Qed.

(** X4. Only the set of exclusion patterns counts: their order and their
    repetitions change neither [shouldExclude] nor the worklist. *)
Theorem exclusion_patterns_as_a_set (config : Config) (st : Run)
        (patterns : list string) :
  (forall x, In x patterns <-> In x (excludePatterns config)) ->
  (forall filePath,
     shouldExclude filePath patterns
     = shouldExclude filePath (excludePatterns config))
  /\ itemsToDelete (snd (collectItemsToDelete (withExclude config patterns) st))
     = itemsToDelete (snd (collectItemsToDelete config st)).
Proof.
  intros Hset.
  assert (Hsame : forall filePath,
             shouldExclude filePath patterns
             = shouldExclude filePath (excludePatterns config)).
  { intros filePath.
    destruct (shouldExclude filePath patterns) eqn:E1;
      destruct (shouldExclude filePath (excludePatterns config)) eqn:E2;
      try reflexivity; exfalso.
    - apply shouldExclude_true_iff in E1. destruct E1 as [x [Hx H]].
      assert (E : shouldExclude filePath (excludePatterns config) = true).
      { apply shouldExclude_true_iff. exists x. split; [now apply Hset | exact H]. }
      congruence.
    - apply shouldExclude_true_iff in E2. destruct E2 as [x [Hx H]].
      assert (E : shouldExclude filePath patterns = true).
      { apply shouldExclude_true_iff. exists x. split; [now apply Hset | exact H]. }
      congruence. }
  split; [exact Hsame |].
  rewrite !collectItemsToDelete_eq. cbn [snd itemsToDelete].
  f_equal. apply filter_ext. intros a. cbn [excludePatterns withExclude].
  now rewrite Hsame.
Qed.

(** ** Patterns *)

(** The expression of a plain pattern without wildcard against any name. *)
Lemma m_globRe_literal (pattern : string) :
  noWildcard pattern = true ->
  forall (s : string) (i : nat),
    RegExp.m (globRe pattern RegExp.Eol) (i, s) (fun _ => true)
    = String.eqb s pattern.
Proof.
  unfold noWildcard.
  induction pattern as [|c pattern IH]; intros Hw s i.
  - now destruct s.
  - cbn [allChars] in Hw. apply andb_true_iff in Hw. destruct Hw as [Hc Hw].
    apply andb_true_iff in Hc. destruct Hc as [Hstar Hq].
    apply negb_true_iff in Hstar. apply negb_true_iff in Hq.
    cbn [globRe]. rewrite Hstar, Hq. cbn [RegExp.m snd fst].
    destruct s as [|a s]; [reflexivity |].
    cbn [String.eqb]. rewrite (IH Hw).
    now destruct (Ascii.eqb a c).
Qed.

(** X6. A pattern without wildcard and without a character of the
    regular-expression syntax matches the name equal to it and no other
    name. *)
Theorem literal_pattern_matches_equal_name_only (name pattern : string) :
  plainPattern pattern = true ->
  noWildcard pattern = true ->
  matchesPattern name pattern = Normal (String.eqb name pattern).
Proof.
  intros Hp Hw. unfold matchesPattern.
  rewrite (newRegExp_plain pattern Hp), test_anchored.
  now rewrite m_globRe_literal.
Qed.

(** Whether [matchesPattern] throws depends on the pattern only. *)
Lemma matchesPattern_throw_any_name (name name' pattern : string) (e : exn) :
  matchesPattern name pattern = Throw e ->
  matchesPattern name' pattern = Throw e.
Proof.
  unfold matchesPattern.
  destruct (newRegExp _); [discriminate | trivial].
Qed.

Lemma searchItems_throw (pattern : string) (e : exn)
      (maxDepth : option number) (n : FS.node) (rel : string) (d : Z)
      (acc : list string) :
  (forall name, matchesPattern name pattern = Throw e) ->
  searchItems pattern maxDepth n rel d acc = acc.
Proof.
  intros Hthrow. destruct n as [r | r w es | k]; cbn [searchItems];
    destruct (tooDeep maxDepth d); try reflexivity.
  destruct r; [| reflexivity].
  destruct es as [|[name child] es]; [reflexivity |].
  now rewrite Hthrow.
Qed.

Lemma searchDirectories_throw (pattern : string) (e : exn)
      (maxDepth : option number) (n : FS.node) (rel : string) (d : Z)
      (acc : list string) :
  (forall name, matchesPattern name pattern = Throw e) ->
  searchDirectories pattern maxDepth n rel d acc = acc.
Proof.
  intros Hthrow. destruct n as [r | r w es | k]; cbn [searchDirectories];
    destruct (tooDeep maxDepth d); try reflexivity.
  destruct r; [| reflexivity].
  induction es as [|[name child] es IH]; [reflexivity |].
  destruct (FS.direntIsDirectory child); [now rewrite Hthrow | exact IH].
Qed.

Lemma malformed_finds_nothing (pattern : string) (e : exn)
      (maxDepth : option number) (fs : FS.t) :
  (forall name, matchesPattern name pattern = Throw e) ->
  findDirectories pattern maxDepth fs = []
  /\ findItems pattern maxDepth fs = [].
Proof.
  intros Hall. unfold findDirectories, findItems.
  destruct (FS.lookup (FS.root fs) (FS.cwd fs)); [| now split].
  now rewrite (searchDirectories_throw _ e), (searchItems_throw _ e).
Qed.

(** X7. When the translated pattern is no regular expression, the
    exception of [matchesPattern] is caught inside the search:
    [findDirectories] and [findItems] return the empty list on every tree
    and for every depth limit, as if nothing matched. *)
Theorem malformed_pattern_finds_nothing (pattern name : string) (e : exn)
        (maxDepth : option number) (fs : FS.t) :
  matchesPattern name pattern = Throw e ->
  findDirectories pattern maxDepth fs = []
  /\ findItems pattern maxDepth fs = [].
Proof.
  intros Hthrow.
  assert (Hall : forall name', matchesPattern name' pattern = Throw e)
    by (intros name'; exact (matchesPattern_throw_any_name _ _ _ _ Hthrow)).
  unfold findDirectories, findItems.
  destruct (FS.lookup (FS.root fs) (FS.cwd fs)); [| now split].
  now rewrite (searchDirectories_throw _ e), (searchItems_throw _ e).
Qed.

(** ** The search *)

(** [searchDir] only adds to its array. *)
Lemma searchDirectories_extends (pattern : string) (mx : option number)
      (n : FS.node) :
  forall (rel : string) (d : Z) (acc : list string),
    incl acc (searchDirectories pattern mx n rel d acc).
Proof.
  induction n as [r | k | r w es IH] using node_induction; intros rel d acc.
  - cbn. destruct (tooDeep mx d); apply incl_refl.
  - cbn. destruct (tooDeep mx d); apply incl_refl.
  - cbn [searchDirectories]. destruct (tooDeep mx d); [apply incl_refl |].
    destruct r; [| apply incl_refl].
    revert acc. induction es as [|[name child] es IHes]; intros acc.
    + apply incl_refl.
    + inversion IH as [|? ? IHchild IHrest]; subst. cbn [snd] in IHchild.
      specialize (IHes IHrest).
      destruct (FS.direntIsDirectory child); [| apply IHes].
      destruct (matchesPattern name pattern) as [b | e]; [| apply incl_refl].
      eapply incl_tran; [| apply IHes].
      eapply incl_tran; [| apply IHchild].
      destruct b; [apply incl_appl |]; apply incl_refl.
Qed.

Lemma searchItems_extends (pattern : string) (mx : option number)
      (n : FS.node) :
  forall (rel : string) (d : Z) (acc : list string),
    incl acc (searchItems pattern mx n rel d acc).
Proof.
  induction n as [r | k | r w es IH] using node_induction; intros rel d acc.
  - cbn. destruct (tooDeep mx d); apply incl_refl.
  - cbn. destruct (tooDeep mx d); apply incl_refl.
  - cbn [searchItems]. destruct (tooDeep mx d); [apply incl_refl |].
    destruct r; [| apply incl_refl].
    revert acc. induction es as [|[name child] es IHes]; intros acc.
    + apply incl_refl.
    + inversion IH as [|? ? IHchild IHrest]; subst. cbn [snd] in IHchild.
      specialize (IHes IHrest).
      destruct (matchesPattern name pattern) as [b | e]; [| apply incl_refl].
      assert (H1 : incl acc (if b then acc ++ [Path.relativeJoin rel name]
                             else acc))
        by (destruct b; [apply incl_appl |]; apply incl_refl).
      destruct (FS.direntIsDirectory child).
      * eapply incl_tran; [| apply IHes].
        eapply incl_tran; [exact H1 | apply IHchild].
      * eapply incl_tran; [exact H1 | apply IHes].
Qed.

Lemma incl_snoc (acc1 acc2 : list string) (x : string) (b : bool) :
  incl acc1 acc2 ->
  incl (if b then acc1 ++ [x] else acc1) (if b then acc2 ++ [x] else acc2).
Proof.
  intros H. destruct b; [| exact H].
  apply incl_app; [now apply incl_appl | apply incl_appr, incl_refl].
Qed.

(** A search with a lower depth limit finds a part of what a search with a
    higher limit finds. *)
Lemma searchDirectories_mono (pattern : string) (lo hi : option number)
      (n : FS.node) :
  noDeeper lo hi ->
  forall (rel : string) (d : Z) (acc1 acc2 : list string),
    incl acc1 acc2 ->
    incl (searchDirectories pattern lo n rel d acc1)
         (searchDirectories pattern hi n rel d acc2).
Proof.
  intros Hdeep.
  induction n as [r | k | r w es IH] using node_induction;
    intros rel d acc1 acc2 Hacc.
  - cbn. now destruct (tooDeep lo d), (tooDeep hi d).
  - cbn. now destruct (tooDeep lo d), (tooDeep hi d).
  - destruct (tooDeep lo d) eqn:Elo.
    + replace (searchDirectories pattern lo (FS.Dir r w es) rel d acc1) with acc1
        by (cbn [searchDirectories]; now rewrite Elo).
      eapply incl_tran; [exact Hacc | apply searchDirectories_extends].
    + assert (Ehi : tooDeep hi d = false).
      { destruct (tooDeep hi d) eqn:E; [| reflexivity].
        rewrite (Hdeep d E) in Elo. discriminate. }
      cbn [searchDirectories]. rewrite Elo, Ehi.
      destruct r; [| exact Hacc].
      revert acc1 acc2 Hacc.
      induction es as [|[name child] es IHes]; intros acc1 acc2 Hacc.
      * exact Hacc.
      * inversion IH as [|? ? IHchild IHrest]; subst. cbn [snd] in IHchild.
        specialize (IHes IHrest).
        destruct (FS.direntIsDirectory child); [| now apply IHes].
        destruct (matchesPattern name pattern) as [b | e]; [| exact Hacc].
        apply IHes. apply IHchild. now apply incl_snoc.
Qed.

Lemma searchItems_mono (pattern : string) (lo hi : option number)
      (n : FS.node) :
  noDeeper lo hi ->
  forall (rel : string) (d : Z) (acc1 acc2 : list string),
    incl acc1 acc2 ->
    incl (searchItems pattern lo n rel d acc1)
         (searchItems pattern hi n rel d acc2).
Proof.
  intros Hdeep.
  induction n as [r | k | r w es IH] using node_induction;
    intros rel d acc1 acc2 Hacc.
  - cbn. now destruct (tooDeep lo d), (tooDeep hi d).
  - cbn. now destruct (tooDeep lo d), (tooDeep hi d).
  - destruct (tooDeep lo d) eqn:Elo.
    + replace (searchItems pattern lo (FS.Dir r w es) rel d acc1) with acc1
        by (cbn [searchItems]; now rewrite Elo).
      eapply incl_tran; [exact Hacc | apply searchItems_extends].
    + assert (Ehi : tooDeep hi d = false).
      { destruct (tooDeep hi d) eqn:E; [| reflexivity].
        rewrite (Hdeep d E) in Elo. discriminate. }
      cbn [searchItems]. rewrite Elo, Ehi.
      destruct r; [| exact Hacc].
      revert acc1 acc2 Hacc.
      induction es as [|[name child] es IHes]; intros acc1 acc2 Hacc.
      * exact Hacc.
      * inversion IH as [|? ? IHchild IHrest]; subst. cbn [snd] in IHchild.
        specialize (IHes IHrest).
        destruct (matchesPattern name pattern) as [b | e]; [| exact Hacc].
        destruct (FS.direntIsDirectory child).
        -- apply IHes. apply IHchild. now apply incl_snoc.
        -- apply IHes. now apply incl_snoc.
Qed.

Lemma noDeeper_le (lo hi : Z) :
  (lo <= hi)%Z -> noDeeper (Some (Int lo)) (Some (Int hi)).
Proof.
  intros Hle d. cbn. rewrite !Z.ltb_lt. lia.
Qed.

Lemma noDeeper_unbounded (lo : option number) : noDeeper lo None.
Proof.
  intros d. discriminate.
Qed.

(** X8. Raising the depth limit, or dropping it, never loses a candidate:
    what [findDirectories] and [findItems] return under a limit they also
    return under every higher limit and without limit. *)
Theorem raising_depth_keeps_candidates (pattern : string) (lo hi : Z)
        (fs : FS.t) (p : string) :
  (lo <= hi)%Z ->
  (In p (findDirectories pattern (Some (Int lo)) fs) ->
   In p (findDirectories pattern (Some (Int hi)) fs)
   /\ In p (findDirectories pattern None fs))
  /\ (In p (findItems pattern (Some (Int lo)) fs) ->
      In p (findItems pattern (Some (Int hi)) fs)
      /\ In p (findItems pattern None fs)).
Proof.
  intros Hle. unfold findDirectories, findItems.
  destruct (FS.lookup (FS.root fs) (FS.cwd fs)) as [n |];
    [| split; intros []].
  split; intros Hin; split.
  - exact (searchDirectories_mono pattern _ _ n (noDeeper_le lo hi Hle)
             "" 0%Z [] [] (incl_refl _) p Hin).
  - exact (searchDirectories_mono pattern _ _ n (noDeeper_unbounded _)
             "" 0%Z [] [] (incl_refl _) p Hin).
  - exact (searchItems_mono pattern _ _ n (noDeeper_le lo hi Hle)
             "" 0%Z [] [] (incl_refl _) p Hin).
  - exact (searchItems_mono pattern _ _ n (noDeeper_unbounded _)
             "" 0%Z [] [] (incl_refl _) p Hin).
Qed.

Lemma matchesPattern_throws_or_returns (pattern : string) :
  (exists e, forall name, matchesPattern name pattern = Throw e)
  \/ (forall name, exists b, matchesPattern name pattern = Normal b).
Proof.
  unfold matchesPattern. destruct (newRegExp _) as [regex | e].
  - right. intros name. now exists (regex name).
  - left. now exists e.
Qed.

(** What the search for directories finds, the search for items finds. *)
Lemma searchDirectories_in_searchItems (pattern : string)
      (mx : option number) (n : FS.node) :
  (forall name, exists b, matchesPattern name pattern = Normal b) ->
  forall (rel : string) (d : Z) (acc1 acc2 : list string),
    incl acc1 acc2 ->
    incl (searchDirectories pattern mx n rel d acc1)
         (searchItems pattern mx n rel d acc2).
Proof.
  intros Hret.
  induction n as [r | k | r w es IH] using node_induction;
    intros rel d acc1 acc2 Hacc.
  - cbn. now destruct (tooDeep mx d).
  - cbn. now destruct (tooDeep mx d).
  - cbn [searchDirectories searchItems].
    destruct (tooDeep mx d); [exact Hacc |].
    destruct r; [| exact Hacc].
    revert acc1 acc2 Hacc.
    induction es as [|[name child] es IHes]; intros acc1 acc2 Hacc.
    + exact Hacc.
    + inversion IH as [|? ? IHchild IHrest]; subst. cbn [snd] in IHchild.
      specialize (IHes IHrest).
      destruct (Hret name) as [b ->].
      destruct (FS.direntIsDirectory child).
      * apply IHes. apply IHchild. now apply incl_snoc.
      * apply IHes. destruct b; [now apply incl_appl | exact Hacc].
Qed.

(** X9. Every path that [findDirectories] returns for a pattern,
    [findItems] returns for the same pattern and depth limit; so a
    [--folders] pattern equal to the [--types] pattern adds nothing to the
    worklist. *)
Theorem folders_pattern_within_types_pattern (pattern : string)
        (mx : option number) (tree : FS.t) (config : Config) (st : Run) :
  incl (findDirectories pattern mx tree) (findItems pattern mx tree)
  /\ (foldersPattern config = typesPattern config ->
      itemsToDelete (snd (collectItemsToDelete config st))
      = itemsToDelete (snd (collectItemsToDelete (withoutFolders config) st))).
Proof.
  assert (Hincl : forall pat depth tree,
             incl (findDirectories pat depth tree) (findItems pat depth tree)).
  { intros pat depth t.
    destruct (matchesPattern_throws_or_returns pat) as [[e Hthrow] | Hret].
    - destruct (malformed_finds_nothing pat e depth t Hthrow) as [-> _].
      intros x [].
    - unfold findDirectories, findItems.
      destruct (FS.lookup (FS.root t) (FS.cwd t)) as [n |];
        [| apply incl_refl].
      apply searchDirectories_in_searchItems; [exact Hret | apply incl_refl]. }
  split; [apply Hincl |].
  intros Hsame. apply sorted_NoDup_ext.
  - rewrite collectItemsToDelete_eq. apply sort_StronglySorted.
  - rewrite collectItemsToDelete_eq. apply sort_StronglySorted.
  - apply worklist_NoDup.
  - apply worklist_NoDup.
  - intros x. rewrite !worklist_In.
    assert (Hall : In x (allItems config (fs st)) <->
                   In x (allItems (withoutFolders config) (fs st))).
    { unfold allItems. cbn [filesPattern foldersPattern typesPattern maxDepth
                            withoutFolders whenPattern].
      rewrite Hsame, !in_app_iff. cbn [In].
      split; [| tauto].
      intros [H | [H | H]]; [tauto | | tauto].
      right. right. unfold whenPattern in *.
      destruct (typesPattern config) as [q |]; [| contradiction].
      destruct (Path.nonEmpty q); [| contradiction].
      now apply Hincl. }
    cbn [excludePatterns withoutFolders]. rewrite Hall. tauto.
Qed.

(** ** The executor *)

Ltac run_step :=
  unfold deleteItem, confirmDeletion, isDirectory, isFile,
    fileUtils_deleteItem, rmSync, unlinkSync, bind, ret, log, emit,
    pushDeleted, pushFailed, question, getFs, setFs;
  cbn [fst snd itemsToDelete deletedItems failedDeletions fs answers asked
       trace].

Ltac split_cases :=
  repeat match goal with
         | |- context [if ?b then _ else _] => destruct b
         | |- context [match ?x with Normal _ => _ | Throw _ => _ end] =>
             destruct x
         end;
  cbn [fst snd negb itemsToDelete deletedItems failedDeletions fs answers
       asked trace].

(** What one call of the engine's [deleteItem] does to the lists: the
    worklist stays, and the item goes to the deleted list, to the failed
    list, or to neither. *)
Lemma deleteItem_lists (config : Config) (item : string) (st : Run) :
  itemsToDelete (snd (deleteItem config item st)) = itemsToDelete st
  /\ ((deletedItems (snd (deleteItem config item st)) = deletedItems st
       /\ failedDeletions (snd (deleteItem config item st))
          = failedDeletions st)
      \/ (deletedItems (snd (deleteItem config item st))
          = deletedItems st ++ [item]
          /\ failedDeletions (snd (deleteItem config item st))
             = failedDeletions st)
      \/ (deletedItems (snd (deleteItem config item st)) = deletedItems st
          /\ failedDeletions (snd (deleteItem config item st))
             = failedDeletions st ++ [item])).
Proof.
  clear glob hostRegExp. run_step. split_cases. all: tauto.
Qed.

Lemma forEach_cons {A : Type} (x : A) (l : list A) (body : A -> M unit)
      (st : Run) :
  forEach (x :: l) body st = forEach l body (snd (body x st)).
Proof.
  cbn [forEach]. unfold bind. now destruct (body x st) as [[] st1].
Qed.

Lemma forEach_deleteItem_lists (config : Config) (items : list string) :
  forall st,
    itemsToDelete (snd (forEach items (deleteItem config) st))
    = itemsToDelete st
    /\ exists ds fl,
         deletedItems (snd (forEach items (deleteItem config) st))
         = deletedItems st ++ ds
         /\ failedDeletions (snd (forEach items (deleteItem config) st))
            = failedDeletions st ++ fl
         /\ incl ds items /\ incl fl items
         /\ List.length ds + List.length fl <= List.length items.
Proof.
  induction items as [|x items IH]; intros st.
  - split; [reflexivity |]. exists [], []. cbn. rewrite !app_nil_r.
    repeat split; try apply incl_refl. lia.
  - rewrite forEach_cons.
    destruct (deleteItem_lists config x st) as [Hitems Hstep].
    destruct (IH (snd (deleteItem config x st)))
      as [Hitems' [ds [fl [Hd [Hf [Hds [Hfl Hlen]]]]]]].
    split; [congruence |].
    destruct Hstep as [[H1 H2] | [[H1 H2] | [H1 H2]]].
    + exists ds, fl. rewrite Hd, Hf, H1, H2.
      repeat split; try (now apply incl_tl). cbn [List.length]. lia.
    + exists (x :: ds), fl. rewrite Hd, Hf, H1, H2, <- app_assoc.
      repeat split.
      * apply incl_cons; [now left | now apply incl_tl].
      * now apply incl_tl.
      * cbn [List.length]. lia.
    + exists ds, (x :: fl). rewrite Hd, Hf, H1, H2, <- app_assoc.
      repeat split.
      * now apply incl_tl.
      * apply incl_cons; [now left | now apply incl_tl].
      * cbn [List.length]. lia.
Qed.

(** [processDeletions] in three parts: the guard, the preview block and
    the loop. *)
Lemma processDeletions_parts (config : Config) (st : Run) :
  processDeletions config st =
  match itemsToDelete st with
  | [] => log "No items to delete." INFO st
  | _ :: _ =>
      if fst (previewStep config st)
      then forEach (itemsToDelete st) (deleteItem config)
                   (snd (previewStep config st))
      else (tt, snd (previewStep config st))
  end.
Proof.
  unfold processDeletions, bind at 1, getItems.
  cbn [fst snd]. destruct (itemsToDelete st) as [|i items]; [reflexivity |].
  unfold bind at 1. fold (previewStep config).
  now destruct (previewStep config st) as [[] st1].
Qed.

(** The preview block leaves the lists and the file system alone. *)
Lemma previewStep_frame (config : Config) (st : Run) :
  itemsToDelete (snd (previewStep config st)) = itemsToDelete st
  /\ deletedItems (snd (previewStep config st)) = deletedItems st
  /\ failedDeletions (snd (previewStep config st)) = failedDeletions st
  /\ fs (snd (previewStep config st)) = fs st.
Proof.
  unfold previewStep. destruct (preview config); [| now repeat split].
  destruct (reports_displayPreview config st) as [evs [E _]].
  unfold confirmProceed, question, bind, ret, log, emit. rewrite E.
  unfold withTrace.
  destruct (negb (dryRun config) && negb (force config));
    cbn [fst snd itemsToDelete deletedItems failedDeletions fs answers asked
         trace].
  - destruct (isYes _);
      cbn [negb fst snd itemsToDelete deletedItems failedDeletions fs];
      now repeat split.
  - now repeat split.
Qed.

(** X11. The accounts of a batch add up: after [processDeletions] on a
    fresh engine the worklist is the one collected, every path recorded as
    deleted or as failed is an item of the worklist, and in the summary
    [deleted + failed <= totalItems]; [failedItems] is absent exactly when
    nothing failed and is the failed list otherwise. *)
Theorem batch_accounts_add_up (config : Config) (st : Run) :
  deletedItems st = [] ->
  failedDeletions st = [] ->
  let st' := snd (processDeletions config st) in
  let summary := getSummary config st' in
  itemsToDelete st' = itemsToDelete st
  /\ incl (deletedItems st') (itemsToDelete st)
  /\ incl (failedDeletions st') (itemsToDelete st)
  /\ deleted summary + failed summary <= totalItems summary
  /\ (failedItems summary = None <-> failed summary = 0)
  /\ (forall l, failedItems summary = Some l ->
                l = failedDeletions st' /\ List.length l = failed summary).
Proof.
  intros Hd Hf. cbv zeta.
  assert (Hsum : forall s : Run,
             (failedItems (getSummary config s) = None <->
              failed (getSummary config s) = 0)
             /\ (forall l, failedItems (getSummary config s) = Some l ->
                   l = failedDeletions s
                   /\ List.length l = failed (getSummary config s))).
  { intros s. unfold getSummary. cbn [failedItems failed].
    destruct (failedDeletions s) as [|x l']; split.
    - now split.
    - discriminate.
    - split; discriminate.
    - intros l H. injection H as <-. now split. }
  assert (Hmain :
            itemsToDelete (snd (processDeletions config st)) = itemsToDelete st
            /\ incl (deletedItems (snd (processDeletions config st)))
                    (itemsToDelete st)
            /\ incl (failedDeletions (snd (processDeletions config st)))
                    (itemsToDelete st)
            /\ List.length (deletedItems (snd (processDeletions config st)))
               + List.length (failedDeletions (snd (processDeletions config st)))
               <= List.length (itemsToDelete st)).
  { rewrite processDeletions_parts.
    destruct (previewStep_frame config st) as [H1 [H2 [H3 _]]].
    destruct (itemsToDelete st) as [|i items] eqn:Ei.
    - unfold log, emit.
      cbn [fst snd itemsToDelete deletedItems failedDeletions].
      rewrite Hd, Hf. repeat split; try (intros x []); [exact Ei | cbn; lia].
    - destruct (fst (previewStep config st)).
      + destruct (forEach_deleteItem_lists config (i :: items)
                    (snd (previewStep config st)))
          as [Hitems [ds [fl [Hds [Hfl [Hi1 [Hi2 Hlen]]]]]]].
        rewrite Hitems, Hds, Hfl, H1, H2, H3, Hd, Hf. cbn [app].
        repeat split; assumption.
      + cbn [snd]. rewrite H1, H2, H3, Hd, Hf.
        repeat split; try (intros x []). cbn; lia. }
  destruct Hmain as [Hitems [Hi1 [Hi2 Hlen]]].
  split; [exact Hitems |].
  split; [exact Hi1 |]. split; [exact Hi2 |].
  split; [| apply Hsum].
  unfold getSummary. cbn [deleted failed totalItems].
  rewrite Hitems. exact Hlen.
Qed.

Lemma seq_eq {B : Type} (c : M unit) (k : M B) (st : Run) :
  (c ;;; k) st = k (snd (c st)).
Proof.
  unfold bind. now destruct (c st) as [[] s].
Qed.

Lemma grownBy_refl (ok : event -> bool) (st st' : Run) :
  trace st' = trace st -> grownBy ok st st'.
Proof.
  intros H. exists []. now rewrite app_nil_r.
Qed.

Lemma grownBy_trans (ok : event -> bool) (st1 st2 st3 : Run) :
  grownBy ok st1 st2 -> grownBy ok st2 st3 -> grownBy ok st1 st3.
Proof.
  intros [e1 [H1 Q1]] [e2 [H2 Q2]]. exists (e1 ++ e2).
  rewrite H2, H1, <- app_assoc, forallb_app, Q1, Q2. now split.
Qed.

Lemma grownBy_weaken (ok ok' : event -> bool) (st st' : Run) :
  (forall e, ok e = true -> ok' e = true) ->
  grownBy ok st st' -> grownBy ok' st st'.
Proof.
  intros Himp [evs [H Q]]. exists evs. split; [exact H |].
  rewrite forallb_forall in *. intros e He. apply Himp. now apply Q.
Qed.

Lemma quiet_not_asks (e : event) : quiet e = true -> negb (asks e) = true.
Proof.
  unfold quiet. rewrite andb_true_iff. tauto.
Qed.

Lemma quiet_not_mutates (e : event) : quiet e = true -> negb (mutates e) = true.
Proof.
  unfold quiet. rewrite andb_true_iff. tauto.
Qed.

(** A computation that only reports, as a growth of the trace. *)
Lemma reports_grownBy (c : M unit) (st : Run) :
  reports c ->
  grownBy quiet st (snd (c st))
  /\ asked (snd (c st)) = asked st
  /\ fs (snd (c st)) = fs st
  /\ itemsToDelete (snd (c st)) = itemsToDelete st
  /\ deletedItems (snd (c st)) = deletedItems st
  /\ failedDeletions (snd (c st)) = failedDeletions st.
Proof.
  intros H. destruct (H st) as [evs [E Q]]. rewrite E. cbn [snd].
  repeat split. now exists evs.
Qed.

(** The flags under which no question is due: a dry run, force, or neither
    interactive nor preview. *)
Lemma deleteItem_asks_nothing (config : Config) (item : string) (st : Run) :
  dryRun config || force config || negb (interactive config) = true ->
  asked (snd (deleteItem config item st)) = asked st
  /\ grownBy (fun e => negb (asks e)) st (snd (deleteItem config item st)).
Proof.
  intros Hflags. unfold grownBy.
  destruct (dryRun config) eqn:Ed, (force config) eqn:Ef,
    (interactive config) eqn:Ei; try discriminate Hflags.
  all: run_step; rewrite ?Ed, ?Ef, ?Ei; split_cases.
  all: split; [reflexivity |].
  all: eexists; rewrite <- ?app_assoc; split; reflexivity.
Qed.

Lemma forEach_deleteItem_asks_nothing (config : Config) (items : list string) :
  dryRun config || force config || negb (interactive config) = true ->
  forall st,
    asked (snd (forEach items (deleteItem config) st)) = asked st
    /\ grownBy (fun e => negb (asks e)) st
               (snd (forEach items (deleteItem config) st)).
Proof.
  intros Hflags. induction items as [|x items IH]; intros st.
  - split; [reflexivity | now apply grownBy_refl].
  - rewrite forEach_cons.
    destruct (deleteItem_asks_nothing config x st Hflags) as [H1 G1].
    destruct (IH (snd (deleteItem config x st))) as [H2 G2].
    split; [congruence | exact (grownBy_trans _ _ _ _ G1 G2)].
Qed.

Lemma previewStep_asks_nothing (config : Config) (st : Run) :
  dryRun config || force config || negb (preview config) = true ->
  asked (snd (previewStep config st)) = asked st
  /\ grownBy (fun e => negb (asks e)) st (snd (previewStep config st)).
Proof.
  intros Hflags. unfold previewStep.
  destruct (preview config) eqn:Ep;
    [| split; [reflexivity | now apply grownBy_refl]].
  destruct (reports_grownBy _ st (reports_displayPreview config))
    as [G [Ha _]].
  rewrite seq_eq.
  replace (negb (dryRun config) && negb (force config)) with false
    by (destruct (dryRun config), (force config); try reflexivity;
        discriminate Hflags).
  unfold ret. cbn [snd]. split; [exact Ha |].
  exact (grownBy_weaken _ _ _ _ quiet_not_asks G).
Qed.

(** X12. In a dry run, under force, or with neither the interactive nor
    the preview flag, [processDeletions] puts no question to the operator:
    no [rl.question] call is made and no answer is consumed. *)
Theorem no_question_unless_due (config : Config) (st : Run) :
  dryRun config || force config
    || (negb (interactive config) && negb (preview config)) = true ->
  asked (snd (processDeletions config st)) = asked st
  /\ grownBy (fun e => negb (asks e)) st (snd (processDeletions config st)).
Proof.
  intros Hflags.
  assert (H1 : dryRun config || force config || negb (interactive config)
               = true)
    by (destruct (dryRun config), (force config), (interactive config);
        try reflexivity; discriminate Hflags).
  assert (H2 : dryRun config || force config || negb (preview config) = true)
    by (destruct (dryRun config), (force config), (interactive config),
          (preview config); try reflexivity; discriminate Hflags).
  rewrite processDeletions_parts.
  destruct (itemsToDelete st) as [|i items].
  - split; [reflexivity |]. now exists [Log "No items to delete." INFO].
  - destruct (previewStep_asks_nothing config st H2) as [Ha G].
    destruct (fst (previewStep config st)).
    + destruct (forEach_deleteItem_asks_nothing config (i :: items) H1
                  (snd (previewStep config st))) as [Ha' G'].
      split; [congruence | exact (grownBy_trans _ _ _ _ G G')].
    + cbn [snd]. now split.
Qed.

(** ** The whole run *)

Lemma reports_if (b : bool) (c1 c2 : M unit) :
  reports c1 -> reports c2 -> reports (if b then c1 else c2).
Proof.
  now destruct b.
Qed.

Lemma reports_printSummary (config : Config) : reports (printSummary config).
Proof.
  intros st. unfold printSummary.
  generalize (getSummary config st). intros summary.
  revert st. change (reports
    (match outputFormat config with
     | json => emit (ConsoleSummary summary)
     | plain =>
         log "=== Deletion Summary ===" INFO ;;;
         log ("Total items found: " +:+ JSString.ofNat (totalItems summary))
             INFO ;;;
         (if resultDryRun summary
          then log ("Items that would be deleted: "
                    +:+ JSString.ofNat (deleted summary)) INFO
          else log ("Items successfully deleted: "
                    +:+ JSString.ofNat (deleted summary)) INFO) ;;;
         match failedItems summary with
         | Some l =>
             if (0 <? failed summary)%nat then
               log ("Failed deletions: " +:+ JSString.ofNat (failed summary))
                   ERROR ;;;
               forEach l (fun item => log ("  - " +:+ item) ERROR)
             else ret tt
         | None => ret tt
         end
     end)).
  destruct (outputFormat config); [| now apply reports_emit].
  repeat apply reports_seq; try apply reports_log.
  - apply reports_if; apply reports_log.
  - destruct (failedItems summary) as [l |]; [| apply reports_ret].
    apply reports_if; [| apply reports_ret].
    apply reports_seq; [apply reports_log |].
    apply reports_forEach. intros x. apply reports_log.
Qed.

Lemma reports_initializeLogFile (config : Config) :
  reports (initializeLogFile config).
Proof.
  unfold initializeLogFile. apply reports_if; [| apply reports_ret].
  now apply reports_emit.
Qed.

(** A run that passes the validation, stage by stage: up to the [try]
    block the file system is as it was, and in the block either
    [process.cwd()] throws or the engine runs to its exit code. *)
Lemma main_run (options : Options) (st : Run) :
  let config := buildConfig options in
  truthy (filesPattern config) || truthy (foldersPattern config)
    || truthy (typesPattern config) = true ->
  match maxDepth config with
  | Some d => badDepth d
  | None => false
  end = false ->
  let s1 := snd (initializeLogFile config st) in
  let s2 := snd (log "Starting deletion operation..." INFO s1) in
  let s3 := snd (createEngine s2) in
  let s4 := snd (collectItemsToDelete config s3) in
  let s5 := snd (processDeletions config s4) in
  let s6 := snd (printSummary config s5) in
  fs s3 = fs st
  /\ main options st =
     match FS.processCwd (fs st) with
     | Normal _ => (getExitCode s6, s6)
     | Throw _ => (1%Z, snd (log ("Error: " +:+ FS.cwdError) ERROR s3))
     end.
Proof.
  cbv zeta. intros Hpat Hdepth.
  assert (Hfs : fs (snd (createEngine
                      (snd (log "Starting deletion operation..." INFO
                              (snd (initializeLogFile (buildConfig options)
                                      st)))))) = fs st).
  { unfold createEngine, newEngine, log, emit, initializeLogFile.
    now destruct (truthy (logFile (buildConfig options))). }
  split; [exact Hfs |].
  unfold main.
  destruct (truthy (filesPattern (buildConfig options)));
    destruct (truthy (foldersPattern (buildConfig options)));
    destruct (truthy (typesPattern (buildConfig options)));
    try discriminate Hpat; cbn [negb andb].
  all: replace (badFormat (outputFormat (buildConfig options))) with false
    by now destruct (outputFormat (buildConfig options)).
  all: rewrite Hdepth.
  all: rewrite !seq_eq; unfold bind at 1, getFs; rewrite Hfs.
  all: destruct (FS.processCwd (fs st)); now rewrite !seq_eq.
Qed.

(** X13. [--dry-run] at the level of [main], without a log file: whatever
    the other options are, valid or not, the run leaves the file system as
    it was, calls neither [rmSync] nor [unlinkSync] and puts no question.
    When the options pass the validation it exits with status 0, unless
    the working directory is gone: then [process.cwd()] throws into the
    [catch] of [main] and the status is 1. *)
Theorem main_dryRun_changes_nothing (options : Options) (st : Run) :
  opt_dryRun options = true ->
  truthy (opt_log options) = false ->
  let config := buildConfig options in
  fs (snd (main options st)) = fs st
  /\ grownBy (fun e => negb (mutates e)) st (snd (main options st))
  /\ asked (snd (main options st)) = asked st
  /\ (truthy (filesPattern config) || truthy (foldersPattern config)
        || truthy (typesPattern config) = true ->
      match maxDepth config with
      | Some d => badDepth d
      | None => false
      end = false ->
      fst (main options st) =
      match FS.processCwd (fs st) with
      | Normal _ => 0%Z
      | Throw _ => 1%Z
      end).
Proof.
  intros Hdry _. cbv zeta.
  destruct (truthy (filesPattern (buildConfig options))
            || truthy (foldersPattern (buildConfig options))
            || truthy (typesPattern (buildConfig options))) eqn:Hpat.
  - destruct (match maxDepth (buildConfig options) with
              | Some d => badDepth d
              | None => false
              end) eqn:Hdepth.
    + destruct (maxDepth (buildConfig options)) as [d |] eqn:Ed;
        [| discriminate].
      rewrite (main_rejects_bad_depth options d st Hpat Ed Hdepth).
      cbn [snd]. split; [reflexivity |].
      split; [now eexists |]. split; [reflexivity | discriminate].
    + destruct (main_run options st Hpat Hdepth) as [F3 ->].
      set (config := buildConfig options) in *.
      assert (Hd : dryRun config = true) by exact Hdry.
      destruct (reports_grownBy _ st (reports_initializeLogFile config))
        as [G1 [A1 _]].
      set (s1 := snd (initializeLogFile config st)) in *.
      destruct (reports_grownBy _ s1
                  (reports_log "Starting deletion operation..." INFO))
        as [G2 [A2 _]].
      set (s2 := snd (log "Starting deletion operation..." INFO s1)) in *.
      set (s3 := snd (createEngine s2)) in *.
      assert (G3 : grownBy quiet s2 s3) by now apply grownBy_refl.
      assert (A3 : asked s3 = asked s2) by reflexivity.
      assert (Hstart : grownBy quiet st s3).
      { apply (grownBy_trans _ _ s1); [exact G1 |].
        now apply (grownBy_trans _ _ s2). }
      destruct (FS.processCwd (fs st)); cbn [fst snd].
      * assert (E4 := collectItemsToDelete_eq config s3).
        set (s4 := snd (collectItemsToDelete config s3)) in *.
        assert (F4 : fs s4 = fs s3 /\ trace s4 = trace s3
                     /\ asked s4 = asked s3 /\ failedDeletions s4 = []).
        { unfold s4. rewrite E4. now repeat split. }
        destruct F4 as [F4 [T4 [A4 L4]]].
        destruct (processDeletions_dryRun config s4 Hd) as [evs [E5 [Q5 _]]].
        set (s5 := snd (processDeletions config s4)) in *.
        assert (F5 : fs s5 = fs s4 /\ trace s5 = trace s4 ++ evs
                     /\ asked s5 = asked s4 /\ failedDeletions s5 = []).
        { unfold s5. rewrite E5. cbn [snd fs trace asked failedDeletions].
          now repeat split. }
        destruct F5 as [F5 [T5 [A5 L5]]].
        destruct (reports_grownBy _ s5 (reports_printSummary config))
          as [G6 [A6 [F6 [_ [_ L6]]]]].
        set (s6 := snd (printSummary config s5)) in *.
        split; [congruence |]. split; [| split; [congruence |]].
        -- apply (grownBy_weaken quiet); [exact quiet_not_mutates |].
           apply (grownBy_trans _ _ s3); [exact Hstart |].
           apply (grownBy_trans _ _ s5); [| exact G6].
           exists evs. split; [congruence | exact Q5].
        -- intros _ _. apply getExitCode_zero_iff. congruence.
      * destruct (reports_grownBy _ s3
                    (reports_log ("Error: " +:+ FS.cwdError) ERROR))
          as [G4 [A4 [F4 _]]].
        split; [congruence |]. split; [| split; [congruence | reflexivity]].
        apply (grownBy_weaken quiet); [exact quiet_not_mutates |].
        now apply (grownBy_trans _ _ s3).
  - apply orb_false_iff in Hpat. destruct Hpat as [Hpat H3].
    apply orb_false_iff in Hpat. destruct Hpat as [H1 H2].
    rewrite (main_rejects_no_pattern options st H1 H2 H3). cbn [snd].
    split; [reflexivity |].
    split; [now eexists |]. split; [reflexivity | discriminate].
Qed.

(** An item enters the failed list only after a removal call on its
    resolved path: one call of the engine's [deleteItem]. *)
Lemma deleteItem_failure (config : Config) (item : string) (st : Run) :
  FS.cwd (fs (snd (deleteItem config item st))) = FS.cwd (fs st)
  /\ exists evs,
       trace (snd (deleteItem config item st)) = trace st ++ evs
       /\ (failedDeletions (snd (deleteItem config item st))
           = failedDeletions st
           \/ (failedDeletions (snd (deleteItem config item st))
               = failedDeletions st ++ [item]
               /\ (In (Rm (Path.resolve (FS.cwd (fs st)) item)) evs
                   \/ In (Unlink (Path.resolve (FS.cwd (fs st)) item)) evs))).
Proof.
  clear glob hostRegExp.
  remember (deleteItem config item st) as res eqn:Eres.
  symmetry in Eres. revert Eres.
  unfold deleteItem. destruct (dryRun config).
  { run_step. intros <-. cbn [snd fs trace failedDeletions].
    split; [reflexivity |]. eexists. split; [reflexivity |]. now left. }
  unfold bind at 1.
  destruct ((if interactive config
             then confirmDeletion item (force config)
             else ret true) st) as [confirmed st1] eqn:Ec.
  assert (H1 : fs st1 = fs st /\ failedDeletions st1 = failedDeletions st
               /\ exists evs, trace st1 = trace st ++ evs).
  { unfold confirmDeletion, question, bind, ret in Ec.
    destruct (interactive config); [destruct (force config) |];
      injection Ec as <- <-; cbn [fs failedDeletions trace];
      (split; [reflexivity |]); (split; [reflexivity |]).
    - exists []. now rewrite app_nil_r.
    - now eexists.
    - exists []. now rewrite app_nil_r. }
  destruct H1 as [Hfs [Hfailed [evs1 Htrace]]].
  assert (Hstat := statSync_resolve (fs st1) item).
  rewrite <- Hfs, <- Hfailed. clear Ec Hfs Hfailed.
  destruct confirmed; cbn [negb].
  - run_step. unfold FS.removeSync.
    assert (Es : exists r,
               FS.statAt (fs st1) (Path.resolve (FS.cwd (fs st1)) item) = r)
      by now eexists.
    destruct Es as [r Es].
    assert (E : FS.statSync (fs st1) item = r
                \/ FS.statSync (fs st1) item = Throw SystemError)
      by (rewrite <- Es; exact Hstat).
    clear Hstat.
    destruct E as [E | E]; [destruct r as [[| |] |] |].
    all: repeat first
           [ rewrite E
           | rewrite Es
           | progress cbn [fst snd fs FS.cwd FS.root trace failedDeletions
                           FS.isDirectory FS.isFile]
           | match goal with
             | |- context [match FS.remove ?a ?b with _ => _ end] =>
                 destruct (FS.remove a b)
             end ].
    all: intros <-; cbn [fst snd fs FS.cwd FS.root trace failedDeletions].
    all: (split; [reflexivity |]).
    all: eexists; rewrite Htrace, <- ?app_assoc; (split; [reflexivity |]).
    all: rewrite ?in_app_iff; cbn [In]; tauto.
  - run_step. intros <-. cbn [snd fs trace failedDeletions].
    split; [reflexivity |].
    eexists; rewrite Htrace, <- ?app_assoc; (split; [reflexivity |]).
    now left.
Qed.

(** The same over a batch: what the batch adds to the failed list are
    items of the batch on which a removal was called. *)
Lemma forEach_deleteItem_failure (config : Config) (items : list string) :
  forall st,
    FS.cwd (fs (snd (forEach items (deleteItem config) st))) = FS.cwd (fs st)
    /\ exists evs,
         trace (snd (forEach items (deleteItem config) st)) = trace st ++ evs
         /\ forall item,
              In item (failedDeletions
                         (snd (forEach items (deleteItem config) st))) ->
              In item (failedDeletions st)
              \/ (In item items
                  /\ (In (Rm (Path.resolve (FS.cwd (fs st)) item)) evs
                      \/ In (Unlink (Path.resolve (FS.cwd (fs st)) item))
                            evs)).
Proof.
  clear glob hostRegExp.
  induction items as [|x items IH]; intros st.
  - cbn [forEach ret snd]. split; [reflexivity |]. exists [].
    split; [now rewrite app_nil_r | now left].
  - rewrite forEach_cons.
    destruct (deleteItem_failure config x st) as [Hc [e1 [Ht Hf]]].
    destruct (IH (snd (deleteItem config x st))) as [Hc' [e2 [Ht' Hf']]].
    split; [congruence |]. exists (e1 ++ e2).
    split; [now rewrite Ht', Ht, app_assoc |].
    intros item Hin. apply Hf' in Hin. rewrite Hc in Hin.
    rewrite !in_app_iff.
    destruct Hin as [Hin | [Hin Hev]].
    + destruct Hf as [Hf | [Hf Hev]]; rewrite Hf in Hin; [now left |].
      apply in_app_or in Hin. destruct Hin as [Hin | [<- | []]]; [now left |].
      right. split; [now left | tauto].
    + right. split; [now right | tauto].
Qed.

Lemma previewStep_trace (config : Config) (st : Run) :
  exists evs, trace (snd (previewStep config st)) = trace st ++ evs.
Proof.
  unfold previewStep. destruct (preview config);
    [| exists []; cbn [ret snd]; now rewrite app_nil_r].
  destruct (reports_displayPreview config st) as [evs [E _]].
  unfold confirmProceed, question, bind, ret, log, emit. rewrite E.
  unfold withTrace.
  destruct (negb (dryRun config) && negb (force config));
    cbn [fst snd itemsToDelete deletedItems failedDeletions fs answers asked
         trace].
  - destruct (isYes _);
      cbn [negb fst snd itemsToDelete deletedItems failedDeletions fs answers
           asked trace];
      eexists; rewrite <- ?app_assoc; reflexivity.
  - now eexists.
Qed.

(** The same for [processDeletions]. *)
Lemma processDeletions_failure (config : Config) (st : Run) :
  itemsToDelete (snd (processDeletions config st)) = itemsToDelete st
  /\ exists evs,
       trace (snd (processDeletions config st)) = trace st ++ evs
       /\ forall item,
            In item (failedDeletions (snd (processDeletions config st))) ->
            In item (failedDeletions st)
            \/ (In item (itemsToDelete st)
                /\ (In (Rm (Path.resolve (FS.cwd (fs st)) item)) evs
                    \/ In (Unlink (Path.resolve (FS.cwd (fs st)) item))
                          evs)).
Proof.
  clear glob hostRegExp.
  rewrite processDeletions_parts.
  destruct (previewStep_frame config st) as [H1 [_ [H3 H4]]].
  destruct (previewStep_trace config st) as [e1 Ht].
  destruct (itemsToDelete st) as [|i items] eqn:Ei.
  - unfold log, emit. cbn [snd itemsToDelete trace failedDeletions].
    split; [exact Ei |]. eexists. split; [reflexivity | now left].
  - destruct (fst (previewStep config st)).
    + destruct (forEach_deleteItem_lists config (i :: items)
                  (snd (previewStep config st))) as [Hitems _].
      destruct (forEach_deleteItem_failure config (i :: items)
                  (snd (previewStep config st))) as [_ [e2 [Ht' Hf]]].
      split; [congruence |]. exists (e1 ++ e2).
      split; [now rewrite Ht', Ht, app_assoc |].
      intros item Hin. apply Hf in Hin. rewrite H3, H4 in Hin.
      rewrite !in_app_iff. tauto.
    + cbn [snd]. split; [exact H1 |]. exists e1.
      split; [exact Ht |]. intros item Hin. left. now rewrite <- H3.
Qed.

(** X17. The exit status of a run of [main] that passes the validation and
    whose flags put no question to the operator: a dry run, a forced run,
    or a run with neither [--interactive] nor [--preview].  When the
    working directory is gone, [process.cwd()]
    throws into the [catch] of [main]: the status is 1 although nothing
    was collected, removed or failed, and the error is logged.  Otherwise
    the status is 1 exactly when the failed list is not empty and 0
    exactly when it is empty, and every failed item is an item of the
    worklist on whose resolved path [rmSync] or [unlinkSync] was called:
    items skipped, declined or not found never make the status 1. *)
Theorem main_exit_code (options : Options) (st : Run) :
  let config := buildConfig options in
  let status := fst (main options st) in
  let st' := snd (main options st) in
  truthy (filesPattern config) || truthy (foldersPattern config)
    || truthy (typesPattern config) = true ->
  match maxDepth config with
  | Some d => badDepth d
  | None => false
  end = false ->
  dryRun config || force config
    || (negb (interactive config) && negb (preview config)) = true ->
  asked st' = asked st
  /\ match FS.processCwd (fs st) with
     | Throw _ =>
         status = 1%Z
         /\ itemsToDelete st' = []
         /\ deletedItems st' = []
         /\ failedDeletions st' = []
         /\ trace st' =
            trace st
            ++ (if truthy (logFile config) then [LogFileHeader] else [])
            ++ [Log "Starting deletion operation..." INFO;
                Log ("Error: " +:+ FS.cwdError) ERROR]
     | Normal _ =>
         (status = 1%Z <-> failedDeletions st' <> [])
         /\ (status = 0%Z <-> failedDeletions st' = [])
         /\ (forall item,
               In item (failedDeletions st') ->
               In item (itemsToDelete st')
               /\ (In (Rm (Path.resolve (FS.cwd (fs st)) item)) (trace st')
                   \/ In (Unlink (Path.resolve (FS.cwd (fs st)) item))
                         (trace st')))
     end.
Proof.
  cbv zeta. intros Hpat Hdepth Hflags.
  destruct (main_run options st Hpat Hdepth) as [F3 ->].
  set (config := buildConfig options) in *.
  destruct (reports_grownBy _ st (reports_initializeLogFile config))
    as [_ [A1 _]].
  set (s1 := snd (initializeLogFile config st)) in *.
  destruct (reports_grownBy _ s1
              (reports_log "Starting deletion operation..." INFO))
    as [_ [A2 _]].
  set (s2 := snd (log "Starting deletion operation..." INFO s1)) in *.
  set (s3 := snd (createEngine s2)) in *.
  assert (A3 : asked s3 = asked st).
  { unfold s3, createEngine, newEngine. cbn [snd asked]. congruence. }
  destruct (FS.processCwd (fs st)); cbn [fst snd].
  - assert (E4 := collectItemsToDelete_eq config s3).
    set (s4 := snd (collectItemsToDelete config s3)) in *.
    assert (F4 : fs s4 = fs s3 /\ failedDeletions s4 = []
                 /\ asked s4 = asked s3).
    { unfold s4. rewrite E4. now repeat split. }
    destruct F4 as [F4 [L4 A4]].
    destruct (processDeletions_failure config s4) as [I5 [evs [T5 Hf]]].
    assert (A5 : asked (snd (processDeletions config s4)) = asked s4).
    { assert (H1 : dryRun config || force config || negb (interactive config)
                   = true)
        by (destruct (dryRun config), (force config), (interactive config);
            try reflexivity; discriminate Hflags).
      assert (H2 : dryRun config || force config || negb (preview config)
                   = true)
        by (destruct (dryRun config), (force config), (interactive config),
              (preview config); try reflexivity; discriminate Hflags).
      rewrite processDeletions_parts.
      destruct (itemsToDelete s4) as [|i items]; [reflexivity |].
      destruct (previewStep_asks_nothing config s4 H2) as [Ha _].
      destruct (fst (previewStep config s4)); [| exact Ha].
      destruct (forEach_deleteItem_asks_nothing config (i :: items) H1
                  (snd (previewStep config s4))) as [Ha' _].
      congruence. }
    set (s5 := snd (processDeletions config s4)) in *.
    destruct (reports_grownBy _ s5 (reports_printSummary config))
      as [[e6 [T6 _]] [A6 [_ [I6 [_ L6]]]]].
    set (s6 := snd (printSummary config s5)) in *.
    split; [congruence |].
    split; [apply getExitCode_one_iff |].
    split; [apply getExitCode_zero_iff |].
    intros item Hin. rewrite L6 in Hin. apply Hf in Hin.
    rewrite L4 in Hin. destruct Hin as [[] | [Hin Hev]].
    rewrite I6, I5. split; [exact Hin |].
    rewrite T6, T5, !in_app_iff. rewrite F4, F3 in Hev. tauto.
  - split; [exact A3 |].
    unfold s3, s2, s1, createEngine, newEngine, log, initializeLogFile.
    destruct (truthy (logFile config)); unfold emit;
      cbn [snd itemsToDelete deletedItems failedDeletions fs trace ret];
      rewrite <- ?app_assoc; now repeat split.
Qed.

(** ** Removal *)

Lemma assoc_absent (name : string) (es : list (string * FS.node)) :
  existsb (fun e => String.eqb (fst e) name) es = false ->
  FS.assoc name es = None.
Proof.
  induction es as [|[n c] es IH]; cbn; [reflexivity |].
  destruct (String.eqb n name); [discriminate | exact IH].
Qed.

Lemma assoc_dropEntry (name : string) (r w : bool)
      (es : list (string * FS.node)) :
  uniqueNames (FS.Dir r w es) = true ->
  FS.assoc name (FS.dropEntry name es) = None.
Proof.
  induction es as [|[n c] es IH]; intros Hu; [reflexivity |].
  cbn [uniqueNames] in Hu. apply andb_true_iff in Hu. destruct Hu as [Hu Hes].
  apply andb_true_iff in Hu. destruct Hu as [Hn _].
  apply negb_true_iff in Hn. cbn [FS.dropEntry].
  destruct (String.eqb_spec n name) as [-> | Hne].
  - now apply assoc_absent.
  - cbn [FS.assoc]. apply String.eqb_neq in Hne. rewrite Hne.
    now apply IH.
Qed.

Lemma assoc_setEntry (name : string) (c c' : FS.node)
      (es : list (string * FS.node)) :
  FS.assoc name es = Some c ->
  FS.assoc name (FS.setEntry name c' es) = Some c'.
Proof.
  induction es as [|[n d] es IH]; cbn; [discriminate |].
  destruct (String.eqb n name) eqn:E; cbn; rewrite E; [reflexivity | exact IH].
Qed.

Lemma uniqueNames_assoc (name : string) (r w : bool) (c : FS.node)
      (es : list (string * FS.node)) :
  uniqueNames (FS.Dir r w es) = true ->
  FS.assoc name es = Some c ->
  uniqueNames c = true.
Proof.
  induction es as [|[n d] es IH]; intros Hu; cbn [FS.assoc]; [discriminate |].
  cbn [uniqueNames] in Hu. apply andb_true_iff in Hu. destruct Hu as [Hu Hes].
  apply andb_true_iff in Hu. destruct Hu as [_ Hd].
  destruct (String.eqb n name).
  - intros H. now injection H as <-.
  - now apply IH.
Qed.

(** After [remove], nothing is found at the path removed. *)
Lemma lookup_remove (segs : list string) :
  forall n n',
    uniqueNames n = true ->
    FS.remove n segs = Some n' ->
    FS.lookup n' segs = None.
Proof.
  induction segs as [|seg segs IH]; intros n n' Hu; [discriminate |].
  cbn [FS.remove]. destruct n as [x | r w es | k]; try discriminate.
  destruct (FS.assoc seg es) as [c |] eqn:Ec; [| discriminate].
  destruct segs as [|seg' segs'].
  - destruct (FS.nodeRemovable c); [| discriminate].
    intros H. injection H as <-. cbn [FS.lookup].
    now rewrite (assoc_dropEntry seg r w es Hu).
  - destruct (FS.remove c (seg' :: segs')) as [c' |] eqn:Er; [| discriminate].
    intros H. injection H as <-. cbn [FS.lookup].
    rewrite (assoc_setEntry seg c c' es Ec).
    apply (IH c c'); [| exact Er].
    exact (uniqueNames_assoc seg r w c es Hu Ec).
Qed.

Lemma lookup_below_nothing (n : FS.node) (segs more : list string) :
  FS.lookup n segs = None -> FS.lookup n (segs ++ more) = None.
Proof.
  revert n. induction segs as [|seg segs IH]; intros n; [discriminate |].
  cbn [FS.lookup app]. destruct n as [x | r w es | k]; try reflexivity.
  destruct (FS.assoc seg es); [apply IH | reflexivity].
Qed.

(** A successful [deleteItem] of fileUtils has removed the entry. *)
Lemma fileUtils_deleteItem_true (itemPath : string) (st : Run) :
  fst (fileUtils_deleteItem itemPath st) = true ->
  exists root',
    FS.remove (FS.root (fs st)) (Path.resolve (FS.cwd (fs st)) itemPath)
    = Some root'
    /\ fs (snd (fileUtils_deleteItem itemPath st))
       = FS.mk root' (FS.cwd (fs st)).
Proof.
  unfold fileUtils_deleteItem, rmSync, unlinkSync, FS.removeSync,
    bind, ret, emit, getFs, setFs.
  cbn [fst snd fs].
  destruct (FS.statAt _ _) as [stat |]; [| discriminate].
  destruct (FS.isDirectory stat); [| destruct (FS.isFile stat)];
    try discriminate.
  all: destruct (FS.remove _ _) as [root' |]; cbn [fst snd fs];
    [| discriminate].
  all: intros _; now exists root'.
Qed.

(** Where [path.resolve] arrives at nothing, [statSync] throws. *)
Lemma statSync_nothing (tree : FS.t) (p : string) :
  FS.lookup (FS.root tree) (Path.resolve (FS.cwd tree) p) = None ->
  FS.statSync tree p = Throw SystemError.
Proof.
  intros H. destruct (statSync_resolve tree p) as [-> | ->]; [| reflexivity].
  unfold FS.statAt. now rewrite H.
Qed.

(** X14. When [deleteItem] of fileUtils returns [true] on a tree whose
    names are distinct in every directory, the path no longer leads to
    anything: [statSync] throws on it and on every path below it, and
    [isFile] and [isDirectory] are false there.  So in every later state
    over that tree, and outside a dry run, the engine's [deleteItem] on
    such a path calls no removal and changes neither the tree nor the
    worklist, the deleted list or the failed list: after the confirmation,
    when one is due, it logs the warning "Item not found or already
    deleted", or "Skipped" when the operator declined, and nothing else. *)
Theorem removed_entry_is_gone (itemPath : string) (st : Run) :
  uniqueNames (FS.root (fs st)) = true ->
  fst (fileUtils_deleteItem itemPath st) = true ->
  let st' := snd (fileUtils_deleteItem itemPath st) in
  FS.statSync (fs st') itemPath = Throw SystemError
  /\ (forall (child : string) (rest : list string),
        Path.resolve (FS.cwd (fs st)) child
        = Path.resolve (FS.cwd (fs st)) itemPath ++ rest ->
        FS.statSync (fs st') child = Throw SystemError
        /\ notFileNorDirectory (fs st') child
        /\ forall s,
             fs s = fs st' ->
             isFile child s = (false, s)
             /\ isDirectory child s = (false, s)
             /\ forall config,
                  dryRun config = false ->
                  let query := Question ("Delete '" +:+ child +:+ "'? [y/N]: ") in
                  let warning :=
                    Log ("Item not found or already deleted: " +:+ child)
                        WARNING in
                  deleteItem config child s =
                  (tt,
                   mkRun (itemsToDelete s) (deletedItems s)
                         (failedDeletions s) (fs st') (answers s)
                         (if interactive config && negb (force config)
                          then S (asked s) else asked s)
                         (trace s ++
                          if interactive config && negb (force config)
                          then if isYes (answers s (asked s))
                               then [query; warning]
                               else [query; Log ("Skipped: " +:+ child) INFO]
                          else [warning]))).
Proof.
  intros Hu Hok. cbv zeta.
  destruct (fileUtils_deleteItem_true itemPath st Hok) as [root' [Hrm Hfs]].
  assert (Hgone : FS.lookup root' (Path.resolve (FS.cwd (fs st)) itemPath)
                  = None)
    by exact (lookup_remove _ _ _ Hu Hrm).
  assert (Hbelow : forall child rest,
             Path.resolve (FS.cwd (fs st)) child
             = Path.resolve (FS.cwd (fs st)) itemPath ++ rest ->
             FS.lookup root' (Path.resolve (FS.cwd (fs st)) child) = None).
  { intros child rest ->. now apply lookup_below_nothing. }
  split.
  - apply statSync_nothing. rewrite Hfs. cbn [FS.root FS.cwd]. exact Hgone.
  - intros child rest Hchild.
    assert (Hlookup : FS.lookup
                        (FS.root (fs (snd (fileUtils_deleteItem itemPath st))))
                        (Path.resolve
                           (FS.cwd (fs (snd (fileUtils_deleteItem itemPath
                                               st)))) child) = None).
    { rewrite Hfs. cbn [FS.root FS.cwd]. exact (Hbelow _ _ Hchild). }
    split; [now apply statSync_nothing |].
    split; [now left |].
    intros s Hs.
    assert (Hnone : notFileNorDirectory (fs s) child)
      by (left; now rewrite Hs).
    split; [now apply isFile_notFileNorDirectory |].
    split; [now apply isDirectory_notFileNorDirectory |].
    intros config Hd.
    rewrite (deleteItem_gone config child s Hd Hnone). now rewrite Hs.
Qed.

(** ** From the paths found back to the entries *)

Lemma normalize_app (a b acc : list string) :
  Path.normalize acc (a ++ b)
  = Path.normalize (rev (Path.normalize acc a)) b.
Proof.
  revert acc. induction a as [|seg a IH]; intros acc; cbn [app Path.normalize].
  - now rewrite rev_involutive.
  - destruct (String.eqb seg "" || String.eqb seg "."); [apply IH |].
    destruct (String.eqb seg ".."); apply IH.
Qed.

Lemma properName_parts (name : string) :
  properName name = true ->
  validName name = true
  /\ String.eqb name "" = false
  /\ String.eqb name "." = false
  /\ String.eqb name ".." = false
  /\ Path.isAbsolute name = false
  /\ JSString.split "/" name = [name].
Proof.
  unfold properName. rewrite !andb_true_iff, !negb_true_iff.
  intros [[Hv Hdot] Hdots]. split; [exact Hv |].
  unfold validName in Hv. apply andb_true_iff in Hv. destruct Hv as [Hne Hs].
  repeat split; try assumption.
  - now destruct name.
  - destruct name as [|a name]; [reflexivity |].
    cbn [allChars] in Hs. apply andb_true_iff in Hs. destruct Hs as [Ha _].
    apply negb_true_iff in Ha. unfold Path.isAbsolute.
    cbn [JSString.startsWith]. rewrite Ascii.eqb_sym. now rewrite Ha.
  - now apply split_validName.
Qed.

Lemma normalize_single (acc : list string) (name : string) :
  properName name = true ->
  Path.normalize acc [name] = rev acc ++ [name].
Proof.
  intros Hp. destruct (properName_parts name Hp) as [_ [H1 [H2 [H3 _]]]].
  cbn [Path.normalize]. now rewrite H1, H2, H3.
Qed.

Lemma resolve_empty (cwd : list string) : Path.resolve cwd "" = cwd.
Proof.
  unfold Path.resolve. cbn. apply rev_involutive.
Qed.

(** Resolving the path of an entry: the path of its directory, then its
    name. *)
Lemma resolve_relativeJoin (cwd : list string) (rel name : string) :
  properName name = true ->
  Path.isAbsolute rel = false ->
  Path.resolve cwd (Path.relativeJoin rel name) = Path.resolve cwd rel ++ [name]
  /\ Path.isAbsolute (Path.relativeJoin rel name) = false.
Proof.
  intros Hp Hrel.
  destruct (properName_parts name Hp) as [_ [_ [_ [_ [Habs Hsplit]]]]].
  destruct rel as [|x rel].
  - cbn [Path.relativeJoin]. rewrite resolve_empty. split; [| exact Habs].
    unfold Path.resolve. rewrite Habs, Hsplit, normalize_single by exact Hp.
    now rewrite rev_involutive.
  - cbn [Path.relativeJoin].
    assert (Habs' : Path.isAbsolute (String x rel +:+ "/" +:+ name) = false).
    { unfold Path.isAbsolute in *.
      cbn [JSString.startsWith String.append] in *.
      destruct (Ascii.eqb "/" x); [discriminate Hrel | reflexivity]. }
    split; [| exact Habs'].
    unfold Path.resolve. rewrite Habs', Hrel.
    change (String x rel +:+ "/" +:+ name)
      with (String x rel +:+ String "/" name).
    rewrite split_app, Hsplit, normalize_app, normalize_single by exact Hp.
    now rewrite rev_involutive.
Qed.

Lemma lookup_app (n : FS.node) (a b : list string) :
  FS.lookup n (a ++ b)
  = match FS.lookup n a with
    | Some m => FS.lookup m b
    | None => None
    end.
Proof.
  revert n. induction a as [|seg a IH]; intros n; [reflexivity |].
  cbn [FS.lookup app]. destruct n as [x | r w es | k]; try reflexivity.
  destruct (FS.assoc seg es); [apply IH | reflexivity].
Qed.

Lemma properNames_In (r w : bool) (es : list (string * FS.node))
      (name : string) (child : FS.node) :
  properNames (FS.Dir r w es) = true ->
  In (name, child) es ->
  properName name = true /\ properNames child = true.
Proof.
  induction es as [|[n c] es IH]; intros Hp; [intros [] |].
  cbn [properNames] in Hp. apply andb_true_iff in Hp. destruct Hp as [Hp Hes].
  apply andb_true_iff in Hp. destruct Hp as [Hn Hc].
  intros [H | H]; [injection H as <- <-; now split | now apply IH].
Qed.

Lemma uniqueNames_In (r w : bool) (es : list (string * FS.node))
      (name : string) (child : FS.node) :
  uniqueNames (FS.Dir r w es) = true ->
  In (name, child) es ->
  uniqueNames child = true /\ FS.assoc name es = Some child.
Proof.
  induction es as [|[n c] es IH]; intros Hu; [intros [] |].
  cbn [uniqueNames] in Hu. apply andb_true_iff in Hu. destruct Hu as [Hu Hes].
  apply andb_true_iff in Hu. destruct Hu as [Hn Hc].
  apply negb_true_iff in Hn.
  intros [H | H].
  - injection H as <- <-. split; [exact Hc |]. cbn. now rewrite String.eqb_refl.
  - destruct (IH Hes H) as [H1 H2]. split; [exact H1 |].
    cbn [FS.assoc]. destruct (String.eqb_spec n name) as [-> | _];
      [| exact H2].
    exfalso. assert (E : existsb (fun e => String.eqb (fst e) name) es = true).
    { apply existsb_exists. exists (name, child). split; [exact H |].
      cbn. apply String.eqb_refl. }
    congruence.
Qed.

Lemma direntIsDirectory_Dir (n : FS.node) :
  FS.direntIsDirectory n = true -> exists r w es, n = FS.Dir r w es.
Proof.
  destruct n as [x | r w es | k]; try discriminate. intros _. now exists r, w, es.
Qed.

(** What the search knows of an entry [(name, child)] of the directory at
    [rel]: its path resolves to it and is again relative. *)
Lemma entry_resolves (root : FS.node) (cwd : list string) (rel : string)
      (w : bool) (es : list (string * FS.node)) (name : string)
      (child : FS.node) :
  properNames (FS.Dir true w es) = true ->
  uniqueNames (FS.Dir true w es) = true ->
  Path.isAbsolute rel = false ->
  FS.lookup root (Path.resolve cwd rel) = Some (FS.Dir true w es) ->
  In (name, child) es ->
  properNames child = true
  /\ uniqueNames child = true
  /\ Path.isAbsolute (Path.relativeJoin rel name) = false
  /\ FS.lookup root (Path.resolve cwd (Path.relativeJoin rel name))
     = Some child.
Proof.
  intros Hp Hu Hrel Hn Hentry.
  destruct (properNames_In _ _ _ _ _ Hp Hentry) as [Hname Hpc].
  destruct (uniqueNames_In _ _ _ _ _ Hu Hentry) as [Huc Hassoc].
  destruct (resolve_relativeJoin cwd rel name Hname Hrel) as [Hres Habs].
  repeat split; try assumption.
  rewrite Hres, lookup_app, Hn. cbn [FS.lookup]. now rewrite Hassoc.
Qed.

(** The walk of a system call along two runs of components. *)
Lemma walk_app (n : FS.node) (a b : list string) :
  forall cur,
    FS.walk n cur (a ++ b)
    = match FS.walk n cur a with
      | Some r => FS.walk n (rev r) b
      | None => None
      end.
Proof.
  induction a as [|seg a IH]; intros cur; cbn [app FS.walk].
  - now rewrite rev_involutive.
  - destruct (FS.lookup n (rev cur)) as [[x | x w es | k] |];
      try reflexivity.
    destruct (String.eqb seg "" || String.eqb seg "."); [apply IH |].
    destruct (String.eqb seg ".."); apply IH.
Qed.

(** One step of the walk, into an entry of a directory. *)
Lemma walk_single (n : FS.node) (segs : list string) (name : string)
      (r w : bool) (es : list (string * FS.node)) :
  properName name = true ->
  FS.lookup n segs = Some (FS.Dir r w es) ->
  FS.walk n (rev segs) [name] = Some (segs ++ [name]).
Proof.
  intros Hp Hn. destruct (properName_parts name Hp) as [_ [H1 [H2 [H3 _]]]].
  cbn [FS.walk]. rewrite rev_involutive, Hn, H1, H2, H3. cbn [orb rev].
  now rewrite rev_involutive.
Qed.

(** The walk to an entry [(name, child)] of the directory at [rel], when
    the walk to the directory arrives where [path.resolve] does: so does the
    walk to the entry, and [statSync] finds the entry. *)
Lemma entry_walks (root : FS.node) (cwd : list string) (rel : string)
      (w : bool) (es : list (string * FS.node)) (name : string)
      (child : FS.node) :
  properNames (FS.Dir true w es) = true ->
  uniqueNames (FS.Dir true w es) = true ->
  Path.isAbsolute rel = false ->
  FS.lookup root (Path.resolve cwd rel) = Some (FS.Dir true w es) ->
  FS.walk root (rev cwd) (JSString.split "/" rel) = Some (Path.resolve cwd rel) ->
  In (name, child) es ->
  FS.walk root (rev cwd) (JSString.split "/" (Path.relativeJoin rel name))
  = Some (Path.resolve cwd (Path.relativeJoin rel name))
  /\ FS.statSync (FS.mk root cwd) (Path.relativeJoin rel name)
     = FS.statAt (FS.mk root cwd)
                 (Path.resolve cwd (Path.relativeJoin rel name)).
Proof.
  intros Hp Hu Hrel Hn Hwalk Hentry.
  destruct (properNames_In _ _ _ _ _ Hp Hentry) as [Hname _].
  destruct (resolve_relativeJoin cwd rel name Hname Hrel) as [Hres Habs].
  destruct (properName_parts name Hname) as [_ [Hne [_ [_ [_ Hsplit]]]]].
  assert (Hw : FS.walk root (rev cwd)
                 (JSString.split "/" (Path.relativeJoin rel name))
               = Some (Path.resolve cwd (Path.relativeJoin rel name))).
  { rewrite Hres. destruct rel as [|x rel].
    - cbn [Path.relativeJoin]. rewrite Hsplit.
      rewrite resolve_empty in *.
      exact (walk_single root cwd name true w es Hname Hn).
    - cbn [Path.relativeJoin].
      change ((String x rel +:+ "/" +:+ name))
        with (String x rel +:+ String "/" name).
      rewrite split_app, Hsplit, walk_app, Hwalk.
      exact (walk_single root _ name true w es Hname Hn). }
  split; [exact Hw |].
  unfold FS.statSync. cbn [FS.root FS.cwd].
  destruct (Path.relativeJoin rel name) as [|a q] eqn:Eq.
  - destruct rel; cbn [Path.relativeJoin] in Eq.
    + subst name. discriminate Hne.
    + discriminate Eq.
  - now rewrite Habs, Hw.
Qed.

(** Every path [searchDir] of [findDirectories] adds leads back to a
    directory of the tree, and [statSync] says so. *)
Lemma searchDirectories_found (pattern : string) (mx : option number)
      (root : FS.node) (cwd : list string) (n : FS.node) :
  forall (rel : string) (d : Z) (acc : list string) (p : string),
    properNames n = true -> uniqueNames n = true ->
    Path.isAbsolute rel = false ->
    FS.lookup root (Path.resolve cwd rel) = Some n ->
    FS.walk root (rev cwd) (JSString.split "/" rel)
    = Some (Path.resolve cwd rel) ->
    In p (searchDirectories pattern mx n rel d acc) ->
    In p acc
    \/ FS.statSync (FS.mk root cwd) p = Normal FS.StDirectory.
Proof.
  induction n as [r | k | r w es IH] using node_induction;
    intros rel d acc p Hp Hu Hrel Hn Hw Hin.
  - left. cbn in Hin. now destruct (tooDeep mx d).
  - left. cbn in Hin. now destruct (tooDeep mx d).
  - cbn [searchDirectories] in Hin.
    destruct (tooDeep mx d); [now left |].
    destruct r; [| now left].
    assert (HQ : Forall
                   (fun e =>
                      (forall acc',
                          In p (searchDirectories pattern mx (snd e)
                                  (Path.relativeJoin rel (fst e)) (d + 1) acc')
                          -> In p acc'
                             \/ FS.statSync (FS.mk root cwd) p
                                = Normal FS.StDirectory)
                      /\ (FS.direntIsDirectory (snd e) = true ->
                          FS.statSync (FS.mk root cwd)
                            (Path.relativeJoin rel (fst e))
                          = Normal FS.StDirectory)) es).
    { rewrite Forall_forall in *. intros [name child] Hentry. cbn [fst snd].
      destruct (entry_resolves root cwd rel w es name child Hp Hu Hrel Hn
                               Hentry) as [Hpc [Huc [Habs Hchild]]].
      destruct (entry_walks root cwd rel w es name child Hp Hu Hrel Hn Hw
                            Hentry) as [Hwc Hstat].
      split.
      - intros acc'. now apply (IH (name, child) Hentry).
      - intros Edir.
        destruct (direntIsDirectory_Dir child Edir) as [r' [w' [es' ->]]].
        rewrite Hstat. unfold FS.statAt. cbn [FS.root]. now rewrite Hchild. }
    clear IH Hp Hu Hn Hw.
    revert acc Hin. induction es as [|[name child] es IHes]; intros acc Hin.
    + now left.
    + inversion HQ as [|? ? [Hrec Hchild] HQ']; subst. cbn [fst snd] in *.
      specialize (IHes HQ').
      destruct (FS.direntIsDirectory child) eqn:Edir;
        [| now apply (IHes acc)].
      destruct (matchesPattern name pattern) as [b | e]; [| now left].
      apply IHes in Hin.
      destruct Hin as [Hin | Hin]; [| now right].
      apply Hrec in Hin.
      destruct Hin as [Hin | Hin]; [| now right].
      destruct b; [| now left].
      apply in_app_or in Hin. destruct Hin as [Hin | [<- | []]]; [now left |].
      right. now apply Hchild.
Qed.

(** Every path [searchDir] of [findItems] adds leads back to an entry of
    the tree. *)
Lemma searchItems_found (pattern : string) (mx : option number)
      (root : FS.node) (cwd : list string) (n : FS.node) :
  forall (rel : string) (d : Z) (acc : list string) (p : string),
    properNames n = true -> uniqueNames n = true ->
    Path.isAbsolute rel = false ->
    FS.lookup root (Path.resolve cwd rel) = Some n ->
    In p (searchItems pattern mx n rel d acc) ->
    In p acc \/ exists m, FS.lookup root (Path.resolve cwd p) = Some m.
Proof.
  induction n as [r | k | r w es IH] using node_induction;
    intros rel d acc p Hp Hu Hrel Hn Hin.
  - left. cbn in Hin. now destruct (tooDeep mx d).
  - left. cbn in Hin. now destruct (tooDeep mx d).
  - cbn [searchItems] in Hin.
    destruct (tooDeep mx d); [now left |].
    destruct r; [| now left].
    assert (HQ : Forall
                   (fun e =>
                      (forall acc',
                          In p (searchItems pattern mx (snd e)
                                  (Path.relativeJoin rel (fst e)) (d + 1) acc')
                          -> In p acc'
                             \/ exists m,
                                  FS.lookup root (Path.resolve cwd p) = Some m)
                      /\ FS.lookup root
                           (Path.resolve cwd (Path.relativeJoin rel (fst e)))
                         = Some (snd e)) es).
    { rewrite Forall_forall in *. intros [name child] Hentry. cbn [fst snd].
      destruct (entry_resolves root cwd rel w es name child Hp Hu Hrel Hn
                               Hentry) as [Hpc [Huc [Habs Hchild]]].
      split; [| exact Hchild].
      intros acc'. now apply (IH (name, child) Hentry). }
    clear IH Hp Hu Hn.
    revert acc Hin. induction es as [|[name child] es IHes]; intros acc Hin.
    + now left.
    + inversion HQ as [|? ? [Hrec Hchild] HQ']; subst. cbn [fst snd] in *.
      specialize (IHes HQ').
      destruct (matchesPattern name pattern) as [b | e]; [| now left].
      assert (Hacc1 : In p (if b then acc ++ [Path.relativeJoin rel name]
                             else acc) ->
                      In p acc
                      \/ exists m,
                           FS.lookup root (Path.resolve cwd p) = Some m).
      { destruct b; [| now left]. intros H. apply in_app_or in H.
        destruct H as [H | [<- | []]]; [now left |]. right. now exists child. }
      destruct (FS.direntIsDirectory child).
      * apply IHes in Hin.
        destruct Hin as [Hin | Hin]; [| now right].
        apply Hrec in Hin.
        destruct Hin as [Hin | Hin]; [now apply Hacc1 | now right].
      * apply IHes in Hin.
        destruct Hin as [Hin | Hin]; [now apply Hacc1 | now right].
Qed.

(** X15. The paths found lead back to what was found: on a tree whose
    names are proper and distinct in every directory, every path returned
    by [findDirectories] resolves, from the working directory, to a
    directory ([statSync] says so), and every path returned by [findItems]
    resolves to an entry of the tree. *)
Theorem found_paths_resolve (pattern : string) (mx : option number)
        (tree : FS.t) (p : string) :
  match FS.lookup (FS.root tree) (FS.cwd tree) with
  | Some n => properNames n = true /\ uniqueNames n = true
  | None => True
  end ->
  (In p (findDirectories pattern mx tree) ->
   FS.statSync tree p = Normal FS.StDirectory)
  /\ (In p (findItems pattern mx tree) ->
      exists m,
        FS.lookup (FS.root tree) (Path.resolve (FS.cwd tree) p) = Some m).
Proof.
  unfold findDirectories, findItems.
  destruct (FS.lookup (FS.root tree) (FS.cwd tree)) as [n |] eqn:En;
    [| intros _; split; intros []].
  intros [Hp Hu].
  assert (Hn : FS.lookup (FS.root tree) (Path.resolve (FS.cwd tree) "")
               = Some n) by now rewrite resolve_empty.
  split; intros Hin.
  - destruct tree as [root cwd]. cbn [FS.root FS.cwd] in *.
    destruct n as [x | r w es | k];
      try (cbn [searchDirectories] in Hin;
           destruct (tooDeep mx 0); contradiction).
    assert (Hw : FS.walk root (rev cwd) (JSString.split "/" "")
                 = Some (Path.resolve cwd "")).
    { cbn [JSString.split FS.walk]. rewrite rev_involutive, En.
      rewrite resolve_empty. reflexivity. }
    now destruct (searchDirectories_found pattern mx root cwd _ "" 0%Z [] p
                    Hp Hu eq_refl Hn Hw Hin) as [[] | H].
  - destruct (searchItems_found pattern mx (FS.root tree) (FS.cwd tree)
                n "" 0%Z [] p Hp Hu eq_refl Hn Hin) as [[] | H].
    exact H.
Qed.

(** X16. Options that do not pass the validation of [main] touch nothing:
    without a pattern, and with a depth that is NaN or below 1, [main]
    writes its error and returns before the engine exists; nothing is
    read, asked or removed.  The status is 1 for the depth; without a
    pattern it is 1 unless commander's [help()] ends the process with a
    status of its own. *)
Theorem invalid_options_are_refused (options : Options) (st : Run) :
  let config := buildConfig options in
  (truthy (filesPattern config) = false ->
   truthy (foldersPattern config) = false ->
   truthy (typesPattern config) = false ->
   main options st =
   (match commanderHelp with Some status => status | None => 1%Z end,
    withTrace st
      [ConsoleError
         "Error: At least one of --files, --folders, or --types must be specified";
       Help]))
  /\ (forall d,
        truthy (filesPattern config) || truthy (foldersPattern config)
          || truthy (typesPattern config) = true ->
        opt_depth options = Some d ->
        badDepth d = true ->
        main options st =
        (1%Z,
         withTrace st
           [ConsoleError "Error: --depth must be a positive number"])).
Proof.
  cbv zeta. split.
  - apply main_rejects_no_pattern.
  - intros d. apply main_rejects_bad_depth.
Qed.

(** ** What is found has a matching name *)

Lemma lastOr_snoc (d x : string) (l : list string) :
  Path.lastOr d (l ++ [x]) = x.
Proof.
  revert d. induction l as [|y l IH]; intros d; [reflexivity |].
  cbn [app Path.lastOr]. apply IH.
Qed.

(** The basename of an entry's path is the entry's name. *)
Lemma basename_relativeJoin (rel name : string) :
  validName name = true ->
  Path.basename (Path.relativeJoin rel name) = name.
Proof.
  unfold validName. rewrite andb_true_iff. intros [Hne Hslash].
  unfold Path.basename, Path.relativeJoin. destruct rel as [|x rel].
  - rewrite (split_validName name Hslash). cbn [filter]. now rewrite Hne.
  - change ((String x rel +:+ "/" +:+ name))
      with (String x rel +:+ String "/" name).
    rewrite split_app, (split_validName name Hslash), filter_app.
    cbn [filter]. rewrite Hne. apply lastOr_snoc.
Qed.

Lemma searchDirectories_names (pattern : string) (mx : option number)
      (n : FS.node) :
  forall (rel : string) (d : Z) (acc : list string) (p : string),
    validNames n = true ->
    In p (searchDirectories pattern mx n rel d acc) ->
    In p acc \/ matchesPattern (Path.basename p) pattern = Normal true.
Proof.
  induction n as [r | k | r w es IH] using node_induction;
    intros rel d acc p Hvalid Hin.
  - left. cbn [searchDirectories] in Hin. now destruct (tooDeep mx d).
  - left. cbn [searchDirectories] in Hin. now destruct (tooDeep mx d).
  - cbn [searchDirectories] in Hin.
    destruct (tooDeep mx d); [now left |].
    destruct r; [| now left].
    cbn [validNames] in Hvalid.
    revert acc Hin. induction es as [|[name child] es IHes]; intros acc Hin.
    + now left.
    + apply andb_true_iff in Hvalid. destruct Hvalid as [Hvalid Hes].
      apply andb_true_iff in Hvalid. destruct Hvalid as [Hname Hchild].
      inversion IH as [|? ? IHchild IHrest]; subst.
      specialize (IHes IHrest Hes).
      cbn [snd] in IHchild.
      assert (Hbase := basename_relativeJoin rel name Hname).
      destruct (FS.direntIsDirectory child);
        [| now apply IHes].
      destruct (matchesPattern name pattern) as [b | e] eqn:Hm; [| now left].
      apply IHes in Hin. destruct Hin as [Hin | Hin]; [| now right].
      apply IHchild in Hin; [| exact Hchild].
      destruct Hin as [Hin | Hin]; [| now right].
      destruct b; [| now left].
      apply in_app_or in Hin. destruct Hin as [Hin | [<- | []]];
        [now left | right].
      now rewrite Hbase.
Qed.

Lemma searchItems_names (pattern : string) (mx : option number)
      (n : FS.node) :
  forall (rel : string) (d : Z) (acc : list string) (p : string),
    validNames n = true ->
    In p (searchItems pattern mx n rel d acc) ->
    In p acc \/ matchesPattern (Path.basename p) pattern = Normal true.
Proof.
  induction n as [r | k | r w es IH] using node_induction;
    intros rel d acc p Hvalid Hin.
  - left. cbn [searchItems] in Hin. now destruct (tooDeep mx d).
  - left. cbn [searchItems] in Hin. now destruct (tooDeep mx d).
  - cbn [searchItems] in Hin.
    destruct (tooDeep mx d); [now left |].
    destruct r; [| now left].
    cbn [validNames] in Hvalid.
    revert acc Hin. induction es as [|[name child] es IHes]; intros acc Hin.
    + now left.
    + apply andb_true_iff in Hvalid. destruct Hvalid as [Hvalid Hes].
      apply andb_true_iff in Hvalid. destruct Hvalid as [Hname Hchild].
      inversion IH as [|? ? IHchild IHrest]; subst.
      specialize (IHes IHrest Hes).
      cbn [snd] in IHchild.
      assert (Hbase := basename_relativeJoin rel name Hname).
      destruct (matchesPattern name pattern) as [b | e] eqn:Hm; [| now left].
      assert (Hacc1 : In p (if b then acc ++ [Path.relativeJoin rel name]
                             else acc) ->
                      In p acc
                      \/ matchesPattern (Path.basename p) pattern
                         = Normal true).
      { destruct b; [| now left]. intros H. apply in_app_or in H.
        destruct H as [H | [<- | []]]; [now left | right].
        now rewrite Hbase. }
      destruct (FS.direntIsDirectory child).
      * apply IHes in Hin. destruct Hin as [Hin | Hin]; [| now right].
        apply IHchild in Hin; [| exact Hchild].
        destruct Hin as [Hin | Hin]; [now apply Hacc1 | now right].
      * apply IHes in Hin. destruct Hin as [Hin | Hin]; [| now right].
        now apply Hacc1.
Qed.

(** X19. What the searches return was selected by name: on a tree whose
    names are valid, the last segment of every path that [findDirectories]
    and [findItems] return matches the pattern. *)
Theorem found_names_match (pattern : string) (mx : option number)
        (tree : FS.t) (p : string) :
  match FS.lookup (FS.root tree) (FS.cwd tree) with
  | Some n => validNames n = true
  | None => True
  end ->
  In p (findDirectories pattern mx tree) \/ In p (findItems pattern mx tree) ->
  matchesPattern (Path.basename p) pattern = Normal true.
Proof.
  unfold findDirectories, findItems.
  destruct (FS.lookup (FS.root tree) (FS.cwd tree)) as [n |];
    intros Hvalid [Hin | Hin]; try contradiction.
  - apply (searchDirectories_names pattern mx n "" 0%Z [] p Hvalid) in Hin.
    now destruct Hin as [[] | Hin].
  - apply (searchItems_names pattern mx n "" 0%Z [] p Hvalid) in Hin.
    now destruct Hin as [[] | Hin].
Qed.

(** ** What matches is found *)

Lemma assoc_In (name : string) (es : list (string * FS.node)) (c : FS.node) :
  FS.assoc name es = Some c -> In (name, c) es.
Proof.
  induction es as [|[x y] es IH]; cbn [FS.assoc]; [discriminate |].
  destruct (String.eqb x name) eqn:E.
  - intros H. injection H as ->. apply String.eqb_eq in E. subst x. now left.
  - intros H. right. now apply IH.
Qed.

Lemma tooDeep_below (mx : option number) (a b : Z) :
  tooDeep mx a = false -> (b <= a)%Z -> tooDeep mx b = false.
Proof.
  destruct mx as [[| z] |]; cbn [tooDeep gt]; try reflexivity.
  rewrite !Z.ltb_ge. lia.
Qed.

(** An entry of a directory that [searchDir] of [findItems] lists: its path
    is pushed when its name matches, and what the call for it pushes is
    kept. *)
Lemma searchItems_entry (pattern : string) (mx : option number) (w : bool)
      (rel : string) (d : Z) (name : string) (child : FS.node) :
  tooDeep mx d = false ->
  (forall x, exists b, matchesPattern x pattern = Normal b) ->
  forall es acc,
    In (name, child) es ->
    (matchesPattern name pattern = Normal true ->
     In (Path.relativeJoin rel name)
        (searchItems pattern mx (FS.Dir true w es) rel d acc))
    /\ (forall p,
          (forall acc',
              In p (searchItems pattern mx child (Path.relativeJoin rel name)
                      (d + 1) acc')) ->
          In p (searchItems pattern mx (FS.Dir true w es) rel d acc)).
Proof.
  intros Hdeep Hok es.
  induction es as [|[x y] es IH]; intros acc Hin; [contradiction |].
  assert (Hrest : forall acc0,
             incl acc0 (searchItems pattern mx (FS.Dir true w es) rel d acc0))
    by (intros acc0; apply searchItems_extends).
  assert (Hcons : searchItems pattern mx (FS.Dir true w ((x, y) :: es)) rel d
                    acc
                  = match matchesPattern x pattern with
                    | Throw _ => acc
                    | Normal b =>
                        searchItems pattern mx (FS.Dir true w es) rel d
                          (if FS.direntIsDirectory y then
                             searchItems pattern mx y
                               (Path.relativeJoin rel x) (d + 1)
                               (if b then acc ++ [Path.relativeJoin rel x]
                                else acc)
                           else if b then acc ++ [Path.relativeJoin rel x]
                                else acc)
                    end).
  { cbn [searchItems]. rewrite Hdeep.
    destruct (matchesPattern x pattern) as [b |]; [| reflexivity].
    now destruct (FS.direntIsDirectory y). }
  rewrite Hcons. destruct (Hok x) as [b Hb]. rewrite Hb.
  destruct Hin as [Heq | Hin]; [| now apply IH].
  injection Heq as -> ->. split.
  - intros Hm. rewrite Hm in Hb. injection Hb as <-. apply Hrest.
    destruct (FS.direntIsDirectory child).
    + apply searchItems_extends. apply in_or_app. right. now left.
    + apply in_or_app. right. now left.
  - intros p Hp. apply Hrest.
    destruct (FS.direntIsDirectory child) eqn:Hdir; [apply Hp |].
    specialize (Hp []).
    destruct child as [r | r w' es' | k]; try discriminate Hdir;
      cbn [searchItems] in Hp;
      destruct (tooDeep mx (d + 1)); contradiction.
Qed.

(** The same for [searchDir] of [findDirectories], which looks at
    directories only. *)
Lemma searchDirectories_entry (pattern : string) (mx : option number)
      (w : bool) (rel : string) (d : Z) (name : string) (child : FS.node) :
  tooDeep mx d = false ->
  (forall x, exists b, matchesPattern x pattern = Normal b) ->
  forall es acc,
    In (name, child) es ->
    (FS.direntIsDirectory child = true ->
     matchesPattern name pattern = Normal true ->
     In (Path.relativeJoin rel name)
        (searchDirectories pattern mx (FS.Dir true w es) rel d acc))
    /\ (forall p,
          (forall acc',
              In p (searchDirectories pattern mx child
                      (Path.relativeJoin rel name) (d + 1) acc')) ->
          In p (searchDirectories pattern mx (FS.Dir true w es) rel d acc)).
Proof.
  intros Hdeep Hok es.
  induction es as [|[x y] es IH]; intros acc Hin; [contradiction |].
  assert (Hrest : forall acc0,
             incl acc0
                  (searchDirectories pattern mx (FS.Dir true w es) rel d acc0))
    by (intros acc0; apply searchDirectories_extends).
  assert (Hcons : searchDirectories pattern mx (FS.Dir true w ((x, y) :: es))
                    rel d acc
                  = if FS.direntIsDirectory y then
                      match matchesPattern x pattern with
                      | Throw _ => acc
                      | Normal b =>
                          searchDirectories pattern mx (FS.Dir true w es) rel d
                            (searchDirectories pattern mx y
                               (Path.relativeJoin rel x) (d + 1)
                               (if b then acc ++ [Path.relativeJoin rel x]
                                else acc))
                      end
                    else
                      searchDirectories pattern mx (FS.Dir true w es) rel d
                        acc).
  { cbn [searchDirectories]. now rewrite Hdeep. }
  rewrite Hcons. destruct (Hok x) as [b Hb]. rewrite Hb.
  destruct Hin as [Heq | Hin].
  - injection Heq as -> ->. split.
    + intros Hdir Hm. rewrite Hdir. rewrite Hm in Hb. injection Hb as <-.
      apply Hrest. apply searchDirectories_extends.
      apply in_or_app. right. now left.
    + intros p Hp.
      destruct (FS.direntIsDirectory child) eqn:Hdir;
        [apply Hrest; apply Hp |].
      specialize (Hp []).
      destruct child as [r | r w' es' | k]; try discriminate Hdir;
        cbn [searchDirectories] in Hp;
        destruct (tooDeep mx (d + 1)); contradiction.
  - destruct (FS.direntIsDirectory y); now apply IH.
Qed.

Lemma listed_cons (n : FS.node) (seg : string) (segs : list string)
      (m : FS.node) :
  listed n (seg :: segs) = Some m ->
  exists w es c,
    n = FS.Dir true w es /\ In (seg, c) es /\ listed c segs = Some m.
Proof.
  cbn [listed]. destruct n as [r | [|] w es | k]; try discriminate.
  destruct (FS.assoc seg es) as [c |] eqn:E; [| discriminate].
  intros H. exists w, es, c. split; [reflexivity |].
  split; [now apply assoc_In | exact H].
Qed.

Lemma searchItems_complete (pattern : string) (mx : option number)
      (name : string) (m : FS.node) :
  matchesPattern name pattern = Normal true ->
  forall (segs : list string) (n : FS.node) (rel : string) (d : Z)
         (acc : list string),
    listed n (segs ++ [name]) = Some m ->
    tooDeep mx (d + Z.of_nat (List.length segs)) = false ->
    In (pathOf rel (segs ++ [name])) (searchItems pattern mx n rel d acc).
Proof.
  intros Hm.
  assert (Hok : forall x, exists b, matchesPattern x pattern = Normal b).
  { destruct (matchesPattern_throws_or_returns pattern) as [[e He] | H];
      [| exact H].
    rewrite He in Hm. discriminate Hm. }
  induction segs as [|seg segs IH]; intros n rel d acc Hl Hdeep.
  - cbn [app] in Hl. destruct (listed_cons _ _ _ _ Hl) as [w [es [c [-> [Hin _]]]]].
    cbn [List.length Z.of_nat] in Hdeep. rewrite Z.add_0_r in Hdeep.
    destruct (searchItems_entry pattern mx w rel d name c Hdeep Hok es acc Hin)
      as [H _].
    apply H. exact Hm.
  - cbn [app] in Hl.
    destruct (listed_cons _ _ _ _ Hl) as [w [es [c [-> [Hin Hl']]]]].
    assert (Hd : tooDeep mx d = false)
      by (apply (tooDeep_below mx _ d Hdeep); lia).
    destruct (searchItems_entry pattern mx w rel d seg c Hd Hok es acc Hin)
      as [_ H].
    apply H. intros acc'. apply (IH c _ _ acc' Hl').
    apply (tooDeep_below mx _ _ Hdeep). cbn [List.length]. lia.
Qed.

Lemma searchDirectories_complete (pattern : string) (mx : option number)
      (name : string) (m : FS.node) :
  matchesPattern name pattern = Normal true ->
  FS.direntIsDirectory m = true ->
  forall (segs : list string) (n : FS.node) (rel : string) (d : Z)
         (acc : list string),
    listed n (segs ++ [name]) = Some m ->
    tooDeep mx (d + Z.of_nat (List.length segs)) = false ->
    In (pathOf rel (segs ++ [name]))
       (searchDirectories pattern mx n rel d acc).
Proof.
  intros Hm Hdir.
  assert (Hok : forall x, exists b, matchesPattern x pattern = Normal b).
  { destruct (matchesPattern_throws_or_returns pattern) as [[e He] | H];
      [| exact H].
    rewrite He in Hm. discriminate Hm. }
  induction segs as [|seg segs IH]; intros n rel d acc Hl Hdeep.
  - cbn [app] in Hl.
    destruct (listed_cons _ _ _ _ Hl) as [w [es [c [-> [Hin Hc]]]]].
    cbn [listed] in Hc. injection Hc as ->.
    cbn [List.length Z.of_nat] in Hdeep. rewrite Z.add_0_r in Hdeep.
    destruct (searchDirectories_entry pattern mx w rel d name m Hdeep Hok es
                acc Hin)
      as [H _].
    apply H; assumption.
  - cbn [app] in Hl.
    destruct (listed_cons _ _ _ _ Hl) as [w [es [c [-> [Hin Hl']]]]].
    assert (Hd : tooDeep mx d = false)
      by (apply (tooDeep_below mx _ d Hdeep); lia).
    destruct (searchDirectories_entry pattern mx w rel d seg c Hd Hok es acc
                Hin)
      as [_ H].
    apply H. intros acc'. apply (IH c _ _ acc' Hl').
    apply (tooDeep_below mx _ _ Hdeep). cbn [List.length]. lia.
Qed.

(** X20. What matches is found.  An entry whose name matches the pattern,
    reached from the working directory through directories that can be
    listed, the last of them within the depth limit, is returned by
    [findItems] under the path [searchDir] builds for it, and by
    [findDirectories] as well when it is a directory.  What its neighbours
    are, and whether they can be listed, plays no part. *)
Theorem matching_entries_are_found (pattern : string) (mx : option number)
        (tree : FS.t) (n : FS.node) (segs : list string) (name : string)
        (m : FS.node) :
  FS.lookup (FS.root tree) (FS.cwd tree) = Some n ->
  listed n (segs ++ [name]) = Some m ->
  matchesPattern name pattern = Normal true ->
  tooDeep mx (Z.of_nat (List.length segs)) = false ->
  In (pathOf "" (segs ++ [name])) (findItems pattern mx tree)
  /\ (FS.direntIsDirectory m = true ->
      In (pathOf "" (segs ++ [name])) (findDirectories pattern mx tree)).
Proof.
  intros Hn Hl Hm Hdeep. unfold findItems, findDirectories. rewrite Hn.
  split.
  - now apply (searchItems_complete pattern mx name m Hm segs n "" 0%Z []).
  - intros Hdir.
    now apply (searchDirectories_complete pattern mx name m Hm Hdir segs n ""
                 0%Z []).
Qed.

(** ** [findFiles] and the paths of [glob] *)

Lemma pathOf_snoc (rel : string) (segs : list string) (x : string) :
  pathOf rel (segs ++ [x]) = Path.relativeJoin (pathOf rel segs) x.
Proof.
  unfold pathOf. now rewrite fold_left_app.
Qed.

Lemma resolve_pathOf (cwd : list string) (segs : list string) :
  forallb properName segs = true ->
  Path.resolve cwd (pathOf "" segs) = cwd ++ segs
  /\ Path.isAbsolute (pathOf "" segs) = false.
Proof.
  induction segs as [|x segs IH] using rev_ind; intros Hp.
  - cbn [pathOf fold_left]. rewrite resolve_empty, app_nil_r. now split.
  - rewrite forallb_app in Hp. apply andb_true_iff in Hp.
    destruct Hp as [Hsegs Hx]. cbn [forallb] in Hx.
    rewrite andb_true_r in Hx.
    destruct (IH Hsegs) as [Hres Habs].
    rewrite pathOf_snoc.
    destruct (resolve_relativeJoin cwd (pathOf "" segs) x Hx Habs)
      as [H1 H2].
    split; [| exact H2]. now rewrite H1, Hres, app_assoc.
Qed.

Lemma stripCommon_prefix (a b : list string) :
  Path.stripCommon a (a ++ b) = ([], b).
Proof.
  induction a as [|x a IH]; cbn [app Path.stripCommon].
  - now destruct b.
  - now rewrite String.eqb_refl.
Qed.

Lemma join_snoc (sep : string) (l : list string) (x : string) :
  JSString.join sep (l ++ [x])
  = match l with
    | [] => x
    | _ => JSString.join sep l +:+ sep +:+ x
    end.
Proof.
  induction l as [|a l IH]; [reflexivity |].
  cbn [app]. destruct l as [|b l]; [reflexivity |].
  change (JSString.join sep (a :: (b :: l) ++ [x]))
    with (a +:+ sep +:+ JSString.join sep ((b :: l) ++ [x])).
  rewrite IH.
  change (JSString.join sep (a :: b :: l))
    with (a +:+ sep +:+ JSString.join sep (b :: l)).
  now rewrite !append_assoc.
Qed.

Lemma join_pathOf (segs : list string) :
  forallb properName segs = true ->
  JSString.join "/" segs = pathOf "" segs
  /\ (segs <> [] -> pathOf "" segs <> "").
Proof.
  induction segs as [|x segs IH] using rev_ind; intros Hp.
  - split; [reflexivity | congruence].
  - rewrite forallb_app in Hp. apply andb_true_iff in Hp.
    destruct Hp as [Hsegs Hx]. cbn [forallb] in Hx.
    rewrite andb_true_r in Hx.
    destruct (IH Hsegs) as [Hjoin Hne].
    destruct (properName_parts x Hx) as [_ [Hx0 _]].
    apply String.eqb_neq in Hx0.
    rewrite pathOf_snoc, join_snoc.
    destruct segs as [|a segs].
    + cbn [pathOf fold_left Path.relativeJoin]. split; [reflexivity |].
      intros _. exact Hx0.
    + rewrite Hjoin.
      assert (Hrel : pathOf "" (a :: segs) <> "") by (apply Hne; discriminate).
      destruct (pathOf "" (a :: segs)) as [|c s]; [congruence |].
      cbn [Path.relativeJoin]. split; [reflexivity |].
      intros _. discriminate.
Qed.

(** From the working directory to a path below it and back. *)
Lemma relative_resolve (cwd : list string) (p : string) :
  normalRelative p ->
  Path.relative cwd (Path.resolve cwd p) = p.
Proof.
  intros [segs [Hp ->]].
  destruct (resolve_pathOf cwd segs Hp) as [-> _].
  unfold Path.relative. rewrite stripCommon_prefix. cbn [map app].
  now destruct (join_pathOf segs Hp) as [-> _].
Qed.

(** X21. [findFiles] hands on what [glob] returns: when the matches are
    relative paths in normal form, as [glob] returns them with
    [absolute: false], taking each through [path.resolve] and
    [path.relative] changes none of them; and when [glob] throws the result
    is empty. *)
Theorem findFiles_keeps_glob_matches (pattern : string)
        (maxDepth : option number) (tree : FS.t) :
  (forall files,
      glob pattern maxDepth tree = Normal files ->
      Forall normalRelative files ->
      findFiles pattern maxDepth tree = files)
  /\ (forall e,
         glob pattern maxDepth tree = Throw e ->
         findFiles pattern maxDepth tree = []).
Proof.
  unfold findFiles. split.
  - intros files -> Hall. induction Hall as [|f files Hf _ IH];
      [reflexivity |].
    cbn [map]. now rewrite IH, relative_resolve.
  - now intros e ->.
Qed.

End Cull.

(* ================================================================== *)
(** * The theorems at sample inputs *)

(** A dry run with every other flag set, over two items that exist. *)
Lemma dryRun_mutates_nothing_witness :
  let config := flags true true true true in
  let st := engineWith ["a.tmp"; "cache"] "yes" in
  dryRun config = true
  /\ deletedItems st = []
  /\ fs (snd (processDeletions config st)) = workTree
  /\ asked (snd (processDeletions config st)) = 0
  /\ deletedItems (snd (processDeletions config st)) = ["a.tmp"; "cache"].
Proof.
  cbv zeta.
  split; [reflexivity |]. split; [reflexivity |].
  destruct (dryRun_mutates_nothing (flags true true true true)
              (engineWith ["a.tmp"; "cache"] "yes") eq_refl eq_refl)
    as [Hfs [Hasked [_ [_ [_ [Hdel _]]]]]].
  split; [exact Hfs |]. split; [exact Hasked | exact Hdel].
Defined.

(** C9 as the specification states it fails on an empty worklist: with
    [preview] set and [dryRun] and [force] unset, [processDeletions] logs
    "No items to delete." and returns; nothing is shown and no
    confirmation is asked for. *)
Lemma preview_gate_skipped_on_empty_worklist :
  let config := flags false false false true in
  let st := engineWith [] "yes" in
  preview config = true
  /\ dryRun config = false
  /\ force config = false
  /\ processDeletions config st =
     (tt, withTrace st [Log "No items to delete." INFO])
  /\ asked (snd (processDeletions config st)) = 0
  /\ ~ In (Question "Proceed with deletion? [y/N]: ")
          (trace (snd (processDeletions config st))).
Proof.
  cbv zeta. repeat (split; [reflexivity |]).
  simpl. intros [H | []]. discriminate H.
Qed.

(** The preview gate declined by the operator, over one file. *)
Lemma preview_gate_witness :
  let config := flags false false false true in
  let st := engineWith ["a.tmp"] "n" in
  preview config = true
  /\ dryRun config = false
  /\ force config = false
  /\ itemsToDelete st <> []
  /\ isYes (answers st (asked st)) = false
  /\ trace (snd (processDeletions config st)) =
     [Log "Preview: Items that will be deleted (1 items):" INFO;
      Console "  - a.tmp";
      Question "Proceed with deletion? [y/N]: ";
      Log "Deletion cancelled by user." INFO]
  /\ fs (snd (processDeletions config st)) = workTree
  /\ getExitCode (snd (processDeletions config st)) = 0%Z.
Proof.
  cbv zeta.
  assert (Hne : itemsToDelete (engineWith ["a.tmp"] "n") <> [])
    by discriminate.
  repeat (split; [reflexivity |]). split; [exact Hne |].
  split; [reflexivity |].
  destruct (preview_gate (flags false false false true)
              (engineWith ["a.tmp"] "n") eq_refl eq_refl eq_refl Hne)
    as [_ Hdecline].
  destruct (Hdecline eq_refl) as [Htrace [_ [Hfs [_ [_ [_ [_ Hexit]]]]]]].
  split; [exact Htrace |]. split; [exact Hfs | exact (Hexit eq_refl)].
Defined.

(** The named pipe of [workTree] in a forced, non-interactive run. *)
Lemma vanished_item_is_skipped_witness :
  let config := flags false false true false in
  let st := engineWith ["pipe"] "" in
  dryRun config = false
  /\ notFileNorDirectory (fs st) "pipe"
  /\ trace (snd (deleteItem config "pipe" st)) =
     [Log "Item not found or already deleted: pipe" WARNING]
  /\ fs (snd (deleteItem config "pipe" st)) = workTree
  /\ failedDeletions (snd (deleteItem config "pipe" st)) = [].
Proof.
  cbv zeta.
  assert (Hgone : notFileNorDirectory (fs (engineWith ["pipe"] "")) "pipe").
  { right. exists FS.Fifo. reflexivity. }
  split; [reflexivity |]. split; [exact Hgone |].
  destruct (vanished_item_is_skipped (flags false false true false) "pipe"
              (engineWith ["pipe"] "") eq_refl Hgone)
    as [[evs [Htrace [_ Hevs]]] [Hfs [_ [_ [Hfailed _]]]]].
  split; [| split; [exact Hfs | exact Hfailed]].
  rewrite Htrace, Hevs. reflexivity.
Defined.

(** Excluding [cache] over [workTree]: the file below it is left out. *)
Lemma exclusion_covers_descendants_witness :
  let config := typesConfig "*tmp" ["cache"] None in
  let st := engineWith [] "" in
  shouldExclude "cache" (excludePatterns config) = true
  /\ shouldExclude "cache/c.tmp" (excludePatterns config) = true
  /\ ~ In "cache/c.tmp"
          (itemsToDelete
             (snd (collectItemsToDelete emptyGlob strictHost config st))).
Proof.
  cbv zeta.
  destruct (exclusion_covers_descendants emptyGlob strictHost
              (typesConfig "*tmp" ["cache"] None) (engineWith [] "") "cache"
              eq_refl)
    as [_ [Hchild Hitems]].
  split; [reflexivity |].
  split; [exact (Hchild "c.tmp") | exact (Hitems "" "/c.tmp")].
Defined.

(** An empty exclusion pattern over [workTree]. *)
Lemma empty_exclusion_excludes_everything_witness :
  let config := typesConfig "*tmp" [""] None in
  In "" (excludePatterns config)
  /\ shouldExclude "a.tmp" (excludePatterns config) = true
  /\ itemsToDelete
       (snd (collectItemsToDelete emptyGlob strictHost config
               (engineWith [] ""))) = [].
Proof.
  cbv zeta.
  assert (Hin : In "" (excludePatterns (typesConfig "*tmp" [""] None)))
    by (left; reflexivity).
  destruct (empty_exclusion_excludes_everything emptyGlob strictHost
              (typesConfig "*tmp" [""] None) (engineWith [] "") Hin)
    as [Hall Hitems].
  split; [exact Hin |]. split; [exact (Hall "a.tmp") | exact Hitems].
Defined.

(** The exclusion patterns [cache; pipe] reordered and with a duplicate. *)
Lemma exclusion_patterns_as_a_set_witness :
  let config := typesConfig "*" ["cache"; "pipe"] None in
  let st := engineWith [] "" in
  itemsToDelete
    (snd (collectItemsToDelete emptyGlob strictHost
            (withExclude config ["pipe"; "cache"; "pipe"]) st))
  = itemsToDelete (snd (collectItemsToDelete emptyGlob strictHost config st)).
Proof.
  cbv zeta.
  assert (Hset : forall x,
             In x ["pipe"; "cache"; "pipe"]
             <-> In x (excludePatterns
                         (typesConfig "*" ["cache"; "pipe"] None))).
  { intros x. cbn [In excludePatterns typesConfig]. tauto. }
  destruct (exclusion_patterns_as_a_set emptyGlob strictHost
              (typesConfig "*" ["cache"; "pipe"] None) (engineWith [] "")
              ["pipe"; "cache"; "pipe"] Hset)
    as [_ Hitems].
  exact Hitems.
Defined.

(** The pattern [cache?] on the name [cache2]. *)
Lemma matchesPattern_plain_witness :
  plainPattern "cache?" = true
  /\ noLineTerminator "cache2" = true
  /\ matchesPattern strictHost "cache2" "cache?" = Normal true.
Proof.
  split; [reflexivity |]. split; [reflexivity |].
  exact (matchesPattern_plain strictHost "cache2" "cache?" eq_refl eq_refl).
Defined.

(** The pattern [cache] on the names [cache] and [cache2]. *)
Lemma literal_pattern_matches_equal_name_only_witness :
  matchesPattern strictHost "cache" "cache" = Normal true
  /\ matchesPattern strictHost "cache2" "cache" = Normal false.
Proof.
  split.
  - exact (literal_pattern_matches_equal_name_only strictHost "cache" "cache"
             eq_refl eq_refl).
  - exact (literal_pattern_matches_equal_name_only strictHost "cache2" "cache"
             eq_refl eq_refl).
Defined.

(** The pattern [(] is no regular expression; over [workTree] it finds
    nothing. *)
Lemma malformed_pattern_finds_nothing_witness :
  matchesPattern strictHost "a.tmp" "(" = Throw SyntaxError
  /\ findDirectories strictHost "(" None workTree = []
  /\ findItems strictHost "(" None workTree = [].
Proof.
  split; [reflexivity |].
  exact (malformed_pattern_finds_nothing strictHost "(" "a.tmp" SyntaxError
           None workTree eq_refl).
Defined.

(** [./cache] of [cacheTree], found with depth 0, is found with depth 1
    and without a limit. *)
Lemma raising_depth_keeps_candidates_witness :
  In "cache" (findDirectories strictHost "cache" (Some (Int 0)) cacheTree)
  /\ In "cache" (findDirectories strictHost "cache" (Some (Int 1)) cacheTree)
  /\ In "cache" (findDirectories strictHost "cache" None cacheTree).
Proof.
  assert (Hlo : In "cache"
                   (findDirectories strictHost "cache" (Some (Int 0))
                      cacheTree))
    by (left; reflexivity).
  assert (Hle : (0 <= 1)%Z) by lia.
  destruct (raising_depth_keeps_candidates strictHost "cache" 0 1 cacheTree
              "cache" Hle)
    as [Hdirs _].
  split; [exact Hlo | exact (Hdirs Hlo)].
Defined.

(** [./sub/cache] of [cacheTree], found with depth 1. *)
Lemma find_depth_bound_witness :
  In "sub/cache" (findDirectories strictHost "cache" (Some (Int 1)) cacheTree)
  /\ (1 <= Path.depth "sub/cache" <= 1 + 1)%Z.
Proof.
  assert (Hin : In "sub/cache"
                   (findDirectories strictHost "cache" (Some (Int 1))
                      cacheTree))
    by (right; left; reflexivity).
  split; [exact Hin |].
  exact (find_depth_bound strictHost "cache" 1 cacheTree "sub/cache" eq_refl
           (or_introl Hin)).
Defined.

(** A batch over a file, a protected file and a named pipe: one removed,
    one failed, one skipped. *)
Lemma batch_accounts_add_up_witness :
  let config := flags false false false false in
  let st := engineWith ["a.tmp"; "b.tmp"; "pipe"] "" in
  let summary := getSummary config (snd (processDeletions config st)) in
  deletedItems st = []
  /\ failedDeletions st = []
  /\ deleted summary + failed summary <= totalItems summary
  /\ incl (failedDeletions (snd (processDeletions config st)))
          ["a.tmp"; "b.tmp"; "pipe"].
Proof.
  cbv zeta.
  destruct (batch_accounts_add_up (flags false false false false)
              (engineWith ["a.tmp"; "b.tmp"; "pipe"] "") eq_refl eq_refl)
    as [_ [_ [Hfailed [Hsum _]]]].
  split; [reflexivity |]. split; [reflexivity |].
  split; [exact Hsum | exact Hfailed].
Defined.

(** A forced run with [interactive] and [preview] set asks nothing. *)
Lemma no_question_unless_due_witness :
  let config := flags false true true true in
  let st := engineWith ["a.tmp"; "cache"] "n" in
  dryRun config || force config
    || (negb (interactive config) && negb (preview config)) = true
  /\ asked (snd (processDeletions config st)) = 0.
Proof.
  cbv zeta.
  destruct (no_question_unless_due (flags false true true true)
              (engineWith ["a.tmp"; "cache"] "n") eq_refl)
    as [Hasked _].
  split; [reflexivity | exact Hasked].
Defined.

(** [--types "*.tmp" --dry-run --interactive --preview] over [workTree],
    and started in a directory that is gone. *)
Lemma main_dryRun_changes_nothing_witness :
  let st := engineWith [] "" in
  let lost := mkRun [] [] [] goneTree (fun _ => "") 0 [] in
  opt_dryRun dryOptions = true
  /\ truthy (opt_log dryOptions) = false
  /\ fs (snd (main emptyGlob strictHost None dryOptions st)) = workTree
  /\ asked (snd (main emptyGlob strictHost None dryOptions st)) = 0
  /\ fst (main emptyGlob strictHost None dryOptions st) = 0%Z
  /\ fs (snd (main emptyGlob strictHost None dryOptions lost)) = goneTree
  /\ fst (main emptyGlob strictHost None dryOptions lost) = 1%Z.
Proof.
  cbv zeta.
  destruct (main_dryRun_changes_nothing emptyGlob strictHost None dryOptions
              (engineWith [] "") eq_refl eq_refl)
    as [Hfs [_ [Hasked Hexit]]].
  destruct (main_dryRun_changes_nothing emptyGlob strictHost None dryOptions
              (mkRun [] [] [] goneTree (fun _ => "") 0 []) eq_refl eq_refl)
    as [Hfs' [_ [_ Hexit']]].
  split; [reflexivity |]. split; [reflexivity |].
  split; [exact Hfs |]. split; [exact Hasked |].
  split; [exact (Hexit eq_refl eq_refl) |].
  split; [exact Hfs' | exact (Hexit' eq_refl eq_refl)].
Defined.

(** [cache] of [workTree] removed: the file below it is gone with it, and
    a forced run meets it as not found. *)
Lemma removed_entry_is_gone_witness :
  let st := engineWith [] "" in
  let st' := snd (fileUtils_deleteItem "cache" st) in
  let config := flags false false true false in
  uniqueNames (FS.root (fs st)) = true
  /\ fst (fileUtils_deleteItem "cache" st) = true
  /\ FS.statSync (fs st') "cache" = Throw SystemError
  /\ FS.statSync (fs st') "cache/c.tmp" = Throw SystemError
  /\ trace (snd (deleteItem config "cache/c.tmp" st'))
     = [Rm ["work"; "cache"];
        Log "Item not found or already deleted: cache/c.tmp" WARNING]
  /\ failedDeletions (snd (deleteItem config "cache/c.tmp" st')) = [].
Proof.
  cbv zeta.
  destruct (removed_entry_is_gone "cache" (engineWith [] "") eq_refl eq_refl)
    as [Hgone Hbelow].
  split; [reflexivity |]. split; [reflexivity |].
  split; [exact Hgone |].
  destruct (Hbelow "cache/c.tmp" ["c.tmp"] eq_refl) as [Hstat [_ Hlater]].
  split; [exact Hstat |].
  destruct (Hlater (snd (fileUtils_deleteItem "cache" (engineWith [] "")))
                   eq_refl) as [_ [_ Hengine]].
  rewrite (Hengine (flags false false true false) eq_refl).
  split; reflexivity.
Defined.

(** The directories that [cache] finds in [cacheTree] are directories. *)
Lemma found_paths_resolve_witness :
  In "sub/cache" (findDirectories strictHost "cache" None cacheTree)
  /\ FS.statSync cacheTree "sub/cache" = Normal FS.StDirectory.
Proof.
  assert (Hin : In "sub/cache"
                   (findDirectories strictHost "cache" None cacheTree))
    by (right; left; reflexivity).
  destruct (found_paths_resolve strictHost "cache" None cacheTree "sub/cache"
              (conj eq_refl eq_refl))
    as [Hdirs _].
  split; [exact Hin | exact (Hdirs Hin)].
Defined.

(** A run over [workTree] that fails on the protected file, and the same
    options in a directory that is gone. *)
Lemma main_exit_code_witness :
  let st := engineWith [] "" in
  let lost := mkRun [] [] [] goneTree (fun _ => "") 0 [] in
  failedDeletions (snd (main emptyGlob strictHost None tmpOptions st))
  = ["b.tmp"]
  /\ fst (main emptyGlob strictHost None tmpOptions st) = 1%Z
  /\ In (Unlink ["work"; "b.tmp"])
        (trace (snd (main emptyGlob strictHost None tmpOptions st)))
  /\ failedDeletions (snd (main emptyGlob strictHost None tmpOptions lost))
     = []
  /\ fst (main emptyGlob strictHost None tmpOptions lost) = 1%Z.
Proof.
  cbv zeta.
  assert (Hfailed :
            failedDeletions
              (snd (main emptyGlob strictHost None tmpOptions
                      (engineWith [] "")))
            = ["b.tmp"])
    by reflexivity.
  assert (Hrun := main_exit_code emptyGlob strictHost None tmpOptions
                    (engineWith [] "") eq_refl eq_refl eq_refl).
  assert (Hlost := main_exit_code emptyGlob strictHost None tmpOptions
                     (mkRun [] [] [] goneTree (fun _ => "") 0 [])
                     eq_refl eq_refl eq_refl).
  change (FS.processCwd (fs (engineWith [] ""))) with (@Normal (list string) ["work"])
    in Hrun.
  change (FS.processCwd (fs (mkRun [] [] [] goneTree (fun _ => "") 0 [])))
    with (@Throw (list string) SystemError) in Hlost.
  cbv iota in Hrun, Hlost.
  destruct Hrun as [_ [[_ Hone] _]].
  destruct Hlost as [_ [Hstatus [_ [_ [Hnone _]]]]].
  split; [exact Hfailed |].
  split; [apply Hone; rewrite Hfailed; discriminate |].
  split; [| split; [exact Hnone | exact Hstatus]].
  vm_compute. right. right. right. left. reflexivity.
Defined.

(** An interactive run in which the operator answers [n]. *)
Lemma declined_item_is_skipped_witness :
  let config := flags false true false false in
  let st := engineWith ["a.tmp"] "n" in
  isYes (answers st (asked st)) = false
  /\ fs (snd (deleteItem config "a.tmp" st)) = workTree
  /\ deletedItems (snd (deleteItem config "a.tmp" st)) = []
  /\ failedDeletions (snd (deleteItem config "a.tmp" st)) = [].
Proof.
  cbv zeta. split; [reflexivity |].
  rewrite (declined_item_is_skipped (flags false true false false) "a.tmp"
             (engineWith ["a.tmp"] "n") eq_refl eq_refl eq_refl eq_refl).
  repeat split.
Defined.

(** [sub/cache] of [cacheTree] was selected by its last segment. *)
Lemma found_names_match_witness :
  In "sub/cache" (findItems strictHost "cache" None cacheTree)
  /\ matchesPattern strictHost (Path.basename "sub/cache") "cache"
     = Normal true.
Proof.
  assert (Hin : In "sub/cache" (findItems strictHost "cache" None cacheTree))
    by (right; left; reflexivity).
  split; [exact Hin |].
  exact (found_names_match strictHost "cache" None cacheTree "sub/cache"
           eq_refl (or_intror Hin)).
Defined.

(** [cache/c.tmp] of [workTree] under the depth limit 1, and [cache] as a
    directory. *)
Lemma matching_entries_are_found_witness :
  In "cache/c.tmp" (findItems strictHost "*tmp" (Some (Int 1)) workTree)
  /\ In "cache" (findDirectories strictHost "c*" (Some (Int 0)) workTree).
Proof.
  split.
  - exact (proj1 (matching_entries_are_found strictHost "*tmp" (Some (Int 1))
                    workTree _ ["cache"] "c.tmp" _ eq_refl eq_refl eq_refl
                    eq_refl)).
  - exact (proj2 (matching_entries_are_found strictHost "c*" (Some (Int 0))
                    workTree _ [] "cache" _ eq_refl eq_refl eq_refl eq_refl)
                 eq_refl).
Defined.

(** The matches of [tmpGlob] come back as they are. *)
Lemma findFiles_keeps_glob_matches_witness :
  Forall normalRelative ["a.tmp"; "cache/c.tmp"]
  /\ findFiles tmpGlob "**/*.tmp" None workTree = ["a.tmp"; "cache/c.tmp"].
Proof.
  assert (Hall : Forall normalRelative ["a.tmp"; "cache/c.tmp"]).
  { constructor; [| constructor; [| constructor]].
    - exists ["a.tmp"]. now split.
    - exists ["cache"; "c.tmp"]. now split. }
  split; [exact Hall |].
  exact (proj1 (findFiles_keeps_glob_matches tmpGlob "**/*.tmp" None workTree)
           _ eq_refl Hall).
Defined.

(** A path matched by two pattern classes: [--folders cache --types cache]
    over [cacheTree] finds every directory twice and lists it once. *)
Example overlapping_pattern_classes :
  let config :=
    mkConfig false false false false None plain None None (Some "cache")
             (Some "cache") [] in
  let st := mkRun [] [] [] cacheTree (fun _ => "") 0 [] in
  allItems emptyGlob strictHost config (fs st)
  = ["cache"; "sub/cache"; "cache"; "sub/cache"]
  /\ itemsToDelete (snd (collectItemsToDelete emptyGlob strictHost config st))
     = ["cache"; "sub/cache"].
Proof.
  split; reflexivity.
Qed.
